(** * WhisperX Gradio front end: model cache, timestamp formatter,
      pipeline orchestrator and document exporter of [app.py].

    The development embeds [WhisperXManager.get_asr_model],
    [format_timestamp] and [transcribe_audio] and checks the properties the
    specification states about them.

    Conventions of the embedding.
    - A Python [str] is a Rocq [string]; the character with code [n] stands
      for the code point U+00nn, so the model covers texts in the Latin-1
      range.  In that range the characters [str.strip] removes are
      09-0D, 1C-1F, 20, 85 and A0, and the only decimal digits are 0-9.
    - A Python [float] is an IEEE 754 binary64 number ([spec_float] with
      53 bits of precision), a Python [int] is a [Z].
    - A Python exception is a value of [PyExc]; code that may raise returns
      a [Result]; code that also touches the process state (the model
      cache, the files, the calls made to whisperx) lives in the monad [M],
      in which the state survives an exception. *)

From Stdlib Require Import ZArith Lia Bool Ascii String List.
From Stdlib Require Import Floats.SpecFloat.
From stdpp Require Import base strings gmap list.

Local Open Scope string_scope.
Local Open Scope list_scope.
Local Open Scope Z_scope.

(** ** The Python runtime used by [app.py] *)

Module Py.

(** *** Exceptions and results *)

Inductive ExcKind :=
  | AssertionError | OverflowError | ValueError | FileExistsError
  | FileNotFoundError | OSError | RuntimeError | AttributeError.

(** An exception object: its class and [str(e)]. *)
Record PyExc := mkExc { exc_kind : ExcKind; exc_str : string }.

Inductive Result (A : Type) :=
  | Ok (a : A)
  | Raise (e : PyExc).
Arguments Ok {A} a.
Arguments Raise {A} e.

Definition rbind {A B} (r : Result A) (k : A -> Result B) : Result B :=
  match r with
  | Ok a => k a
  | Raise e => Raise e
  end.

(** *** Strings *)

Definition nl : string := String "010" EmptyString.
Definition cr : string := String "013" EmptyString.

(** [str.isspace] on one character, code points below 256. *)
Definition isspace (c : ascii) : bool :=
  let n := N_of_ascii c in
  ((9 <=? n) && (n <=? 13) || (28 <=? n) && (n <=? 32)
   || (n =? 133) || (n =? 160))%N.

Fixpoint lstrip (s : string) : string :=
  match s with
  | EmptyString => EmptyString
  | String c r => if isspace c then lstrip r else s
  end.

(** [rstrip] keeps a character when it is not a space or when something
    is kept after it. *)
Fixpoint rstrip (s : string) : string :=
  match s with
  | EmptyString => EmptyString
  | String c r =>
      match rstrip r with
      | EmptyString => if isspace c then EmptyString else String c EmptyString
      | r' => String c r'
      end
  end.

(** [s.strip()] *)
Definition strip (s : string) : string := rstrip (lstrip s).

(** [s.startswith(p)] *)
Fixpoint startswith (p s : string) : bool :=
  match p, s with
  | EmptyString, _ => true
  | String a p', String b s' => Ascii.eqb a b && startswith p' s'
  | String _ _, EmptyString => false
  end.

(** [p in s] for strings. *)
Fixpoint contains (p s : string) : bool :=
  startswith p s ||
  match s with
  | EmptyString => false
  | String _ r => contains p r
  end.

(** [s.replace(old, new)] for a non-empty [old]: occurrences are found from
    the left and do not overlap; the scan resumes after each occurrence and
    never looks at what it has produced.  [skip] counts the characters of an
    occurrence still to be dropped. *)
Fixpoint replace_from (old new : string) (skip : nat) (s : string) : string :=
  match s with
  | EmptyString => EmptyString
  | String c r =>
      match skip with
      | S k => replace_from old new k r
      | O =>
          if startswith old s
          then new +:+ replace_from old new (String.length old - 1) r
          else String c (replace_from old new 0 r)
      end
  end.

Definition replace (old new s : string) : string := replace_from old new 0 s.

(** [s.split(sep)] for a one-character separator. *)
Fixpoint split (sep : ascii) (s : string) : list string :=
  match s with
  | EmptyString => [EmptyString]
  | String c r =>
      if Ascii.eqb c sep then EmptyString :: split sep r
      else match split sep r with
           | w :: ws => String c w :: ws
           | [] => [String c EmptyString]
           end
  end.

(** *** Integers as text *)

Definition digit_char (d : N) : ascii := ascii_of_N (48 + d).

Fixpoint digits_from (fuel : nat) (n : N) (acc : string) : string :=
  match fuel with
  | O => acc
  | S f =>
      let acc' := String (digit_char (n mod 10)) acc in
      if (n / 10 =? 0)%N then acc' else digits_from f (n / 10)%N acc'
  end.

(** Decimal digits of a natural number, no leading zero. *)
Definition digits (n : N) : string :=
  digits_from (S (N.to_nat (N.log2 n))) n EmptyString.

Fixpoint zeros (k : nat) : string :=
  match k with
  | O => EmptyString
  | S k' => String "0" (zeros k')
  end.

(** [format(z, "0<width>d")], the conversion of [f"{z:02d}"]: the sign
    first, then zeros up to the width, then the digits. *)
Definition format_d (width : nat) (z : Z) : string :=
  let sign := if z <? 0 then "-" else "" in
  let ds := digits (Z.abs_N z) in
  sign +:+ zeros (width - String.length sign - String.length ds) +:+ ds.

(** [str(z)] *)
Definition str_int (z : Z) : string := format_d 0 z.

(** [repr(s)] of a string. *)
Definition hex_digit (d : N) : ascii :=
  if (d <? 10)%N then ascii_of_N (48 + d) else ascii_of_N (87 + d).

Definition printable (c : ascii) : bool :=
  let n := N_of_ascii c in
  ((32 <=? n) && (n <? 127) || (161 <=? n) && negb (n =? 173))%N.

Definition dquote : ascii := "034"%char.
Definition squote : ascii := "039"%char.
Definition backslash : ascii := "092"%char.

Fixpoint has_char (q : ascii) (s : string) : bool :=
  match s with
  | EmptyString => false
  | String c r => Ascii.eqb c q || has_char q r
  end.

Fixpoint repr_body (q : ascii) (s : string) : string :=
  match s with
  | EmptyString => EmptyString
  | String c r =>
      let n := N_of_ascii c in
      (if Ascii.eqb c q || Ascii.eqb c backslash
       then String backslash (String c EmptyString)
       else if (n =? 9)%N then String backslash "t"
       else if (n =? 10)%N then String backslash "n"
       else if (n =? 13)%N then String backslash "r"
       else if printable c then String c EmptyString
       else String backslash
              (String "x" (String (hex_digit (n / 16))
                             (String (hex_digit (n mod 16)) EmptyString))))
      +:+ repr_body q r
  end.

Definition repr (s : string) : string :=
  let q := if has_char squote s && negb (has_char dquote s)
           then dquote else squote in
  String q (repr_body q s +:+ String q EmptyString).

(** [int(s)] on a string, base 10.  Characters 85 and A0 count as blanks
    (every [isspace] character from 7F on is turned into a blank first),
    then the blanks 09-0D and 20 are skipped on both sides; a sign may
    follow; then digits, where single underscores may sit between two
    digits. *)
Definition int_blank (c : ascii) : bool :=
  let n := N_of_ascii c in
  ((9 <=? n) && (n <=? 13) || (n =? 32) || (n =? 133) || (n =? 160))%N.

Fixpoint int_lstrip (s : string) : string :=
  match s with
  | EmptyString => EmptyString
  | String c r => if int_blank c then int_lstrip r else s
  end.

Fixpoint int_rstrip (s : string) : string :=
  match s with
  | EmptyString => EmptyString
  | String c r =>
      match int_rstrip r with
      | EmptyString => if int_blank c then EmptyString else String c EmptyString
      | r' => String c r'
      end
  end.

Definition digit_value (c : ascii) : option Z :=
  let n := N_of_ascii c in
  if ((48 <=? n) && (n <=? 57))%N then Some (Z.of_N n - 48) else None.

Definition underscore : ascii := "_"%char.

(** [int_digits acc after_digit s]: [after_digit] tells whether the previous
    character was a digit, the only place where an underscore or the end is
    allowed. *)
Fixpoint int_digits (acc : Z) (after_digit : bool) (s : string) : option Z :=
  match s with
  | EmptyString => if after_digit then Some acc else None
  | String c r =>
      match digit_value c with
      | Some d => int_digits (10 * acc + d) true r
      | None =>
          if Ascii.eqb c underscore && after_digit
          then int_digits acc false r
          else None
      end
  end.

Definition int_literal (s : string) : option Z :=
  match int_rstrip (int_lstrip s) with
  | String "-" r => option_map Z.opp (int_digits 0 false r)
  | String "+" r => int_digits 0 false r
  | t => int_digits 0 false t
  end.

(** The interpreter converts at most this many digits
    ([sys.int_info.default_max_str_digits]; the program does not change
    it). *)
Definition int_max_str_digits : N := 4300.

(** What follows the leading blanks and the sign. *)
Definition int_body (s : string) : string :=
  match int_lstrip s with
  | String "-" r => r
  | String "+" r => r
  | t => t
  end.

(** The digits and underscores a string begins with. *)
Fixpoint digit_run (s : string) : string :=
  match s with
  | EmptyString => EmptyString
  | String c r =>
      match digit_value c with
      | Some _ => String c (digit_run r)
      | None =>
          if Ascii.eqb c underscore then String c (digit_run r)
          else EmptyString
      end
  end.

Fixpoint count_digits (s : string) : N :=
  match s with
  | EmptyString => 0
  | String c r =>
      match digit_value c with
      | Some _ => 1 + count_digits r
      | None => count_digits r
      end
  end.

(** The number of digits, when the conversion is refused for their number.
    As in CPython 3.11, the digits are counted once the underscores of the
    run are found well placed and before the characters after the run are
    looked at. *)
Definition int_too_long (s : string) : option N :=
  let run := digit_run (int_body s) in
  match int_digits 0 false run with
  | Some _ =>
      if (int_max_str_digits <? count_digits run)%N
      then Some (count_digits run) else None
  | None => None
  end.

(** [int(s)]; the message of an invalid literal shows at most 200
    characters of [repr(s)]. *)
Definition int_of_str (s : string) : Result Z :=
  match int_too_long s with
  | Some n =>
      Raise (mkExc ValueError
               ("Exceeds the limit (4300 digits) for integer string "
                +:+ "conversion: value has " +:+ str_int (Z.of_N n)
                +:+ " digits; use sys.set_int_max_str_digits() to increase "
                +:+ "the limit"))
  | None =>
      match int_literal s with
      | Some z => Ok z
      | None =>
          Raise (mkExc ValueError
                   ("invalid literal for int() with base 10: "
                    +:+ substring 0 200 (repr s)))
      end
  end.

(** *** Floats *)

Definition prec : Z := 53.
Definition emax : Z := 1024.

Abbreviation float := spec_float.

(** The float nearest to [m * 2^e]. *)
Definition float_of (m e : Z) : float := binary_normalize prec emax m e false.

(** [x * y] *)
Definition fmul (x y : float) : float := SFmul prec emax x y.

(** [x >= y] *)
Definition fge (x y : float) : bool := SFleb y x.

(** The integer nearest to [m / 2^k], ties to the even one. *)
Definition round_half_even (m : Z) (k : Z) : Z :=
  let d := 2 ^ k in
  let q := m / d in
  let r := m mod d in
  match 2 * r ?= d with
  | Lt => q
  | Gt => q + 1
  | Eq => if Z.even q then q else q + 1
  end.

(** [round(x)] with one argument: the nearest integer, ties to even. *)
Definition round (x : float) : Result Z :=
  match x with
  | S754_zero _ => Ok 0
  | S754_infinity _ =>
      Raise (mkExc OverflowError "cannot convert float infinity to integer")
  | S754_nan =>
      Raise (mkExc ValueError "cannot convert float NaN to integer")
  | S754_finite s m e =>
      let n := if 0 <=? e then Z.pos m * 2 ^ e
               else round_half_even (Z.pos m) (- e) in
      Ok (if s then - n else n)
  end.

(** [int(x)] on a float: truncation towards zero. *)
Definition int_of_float (x : float) : Result Z :=
  match x with
  | S754_zero _ => Ok 0
  | S754_infinity _ =>
      Raise (mkExc OverflowError "cannot convert float infinity to integer")
  | S754_nan =>
      Raise (mkExc ValueError "cannot convert float NaN to integer")
  | S754_finite s m e =>
      let n := if 0 <=? e then Z.pos m * 2 ^ e else Z.pos m / 2 ^ (- e) in
      Ok (if s then - n else n)
  end.

End Py.

Import Py.

(** ** [format_timestamp] *)

Definition format_timestamp (seconds : float) (always_include_hours : bool)
    (decimal_marker : string) : Result string :=
  if negb (fge seconds (float_of 0 0))
  then Raise (mkExc AssertionError "non-negative timestamp expected")
  else
    rbind (round (fmul seconds (float_of 1000 0))) (fun milliseconds =>
    let hours := milliseconds / 3600000 in
    let milliseconds := milliseconds - hours * 3600000 in
    let minutes := milliseconds / 60000 in
    let milliseconds := milliseconds - minutes * 60000 in
    let seconds := milliseconds / 1000 in
    let milliseconds := milliseconds - seconds * 1000 in
    let hours_marker :=
      if always_include_hours || (0 <? hours)
      then format_d 2 hours +:+ ":" else "" in
    Ok (hours_marker +:+ format_d 2 minutes +:+ ":" +:+ format_d 2 seconds
          +:+ decimal_marker +:+ format_d 3 milliseconds)).

(** The float written [3661.2005] in decimal, 0x1.c9a66a7ef9db2p+11. *)
Definition f3661_2005 : float := S754_finite false 0x1c9a66a7ef9db2 (-41).

(** ** Process state and the calls made to whisperx *)

(** A loaded transcription pipeline, known by its identity: two handles are
    the same object exactly when they are equal. *)
Definition Handle := nat.

(** [WhisperXManager]: the single cache slot and the key it was loaded
    with.  ([asr_options] is set to [None] once and never used.) *)
Record WhisperXManager := mkManager {
  asr_model : option Handle;
  model_name : option string;
  device : option string;
  compute_type : option string
}.

(** [WhisperXManager.__init__] *)
Definition WhisperXManager_init : WhisperXManager :=
  mkManager None None None None.

(** One segment of [result["segments"]]: the keys the program reads. *)
Record Segment := mkSegment {
  seg_start : float;
  seg_end : float;
  seg_text : string;
  seg_speaker : option string      (* [None]: no ["speaker"] key *)
}.

(** The [result] dictionary handed from stage to stage. *)
Record Document := mkDocument {
  segments : list Segment;
  language : option string         (* [None]: no ["language"] key *)
}.

(** [audio_file] as Gradio delivers it. *)
Inductive Audio :=
  | audio_none
  | audio_str (path : string)
  | audio_dict (path : option string).

(** A speaker bound as it reaches the diarization call. *)
Inductive Bound :=
  | bound_none
  | bound_str (s : string)
  | bound_int (n : Z).

Definition AlignModel := nat.
Definition AlignMetadata := nat.
Definition DiarizeModel := nat.
Definition DiarizeSegments := nat.

(** The calls into whisperx, in the order they are made. *)
Inductive Call :=
  | call_load_model (model_name device compute_type : string)
  | call_transcribe (m : Handle) (audio : Audio) (language : option string)
      (task : string) (batch_size chunk_size : Z)
  | call_load_align_model (language_code device : string)
      (model_name : option string)
  | call_align (segs : list Segment) (am : AlignModel) (md : AlignMetadata)
      (audio : Audio) (device : string) (return_char_alignments : bool)
      (interpolate_method : string)
  | call_DiarizationPipeline (device : string)
  | call_diarize_model (dm : DiarizeModel) (audio : Audio)
      (min_speakers max_speakers : Bound)
  | call_assign_word_speakers (ds : DiarizeSegments) (result : Document).

Inductive Mode := mode_r | mode_w.

(** What the world outside the program answers. *)
Record Env := mkEnv {
  time_time : float;
  os_error : string -> Mode -> option PyExc;
  load_model : string -> string -> string -> option PyExc;
  transcribe : Handle -> Audio -> option string -> string -> Z -> Z ->
               Result Document;
  load_align_model : string -> string -> option string ->
                     Result (AlignModel * AlignMetadata);
  align : list Segment -> AlignModel -> AlignMetadata -> Audio -> string ->
          bool -> string -> Result Document;
  DiarizationPipeline : string -> Result DiarizeModel;
  diarize_model : DiarizeModel -> Audio -> Bound -> Bound ->
                  Result DiarizeSegments;
  assign_word_speakers : DiarizeSegments -> Document -> Result Document;
  json_dumps : Document -> Result string;
  json_partial : Document -> string
}.

Record World := mkWorld {
  MODEL_MANAGER : WhisperXManager;
  files : gmap string string;
  calls : list Call
}.

(** *** The monad of the program: state that survives exceptions *)

Definition M (A : Type) : Type := World -> Result A * World.

Definition ret {A} (a : A) : M A := fun w => (Ok a, w).

Definition raise {A} (e : PyExc) : M A := fun w => (Raise e, w).

Definition bind {A B} (c : M A) (k : A -> M B) : M B :=
  fun w =>
    match c w with
    | (Ok a, w') => k a w'
    | (Raise e, w') => (Raise e, w')
    end.

Notation "'let*' x ':=' c 'in' k" := (bind c (fun x => k))
  (at level 10, x name, c at level 100, k at level 200, only parsing).
Notation "'let*' ' p ':=' c 'in' k" := (bind c (fun p => k))
  (at level 10, p strict pattern, c at level 100, k at level 200,
   only parsing).

(** A pure computation that may raise. *)
Definition lift {A} (r : Result A) : M A := fun w => (r, w).

(** [try: body except Exception as e: handler(e)] *)
Definition try_except {A} (body : M A) (handler : PyExc -> M A) : M A :=
  fun w =>
    match body w with
    | (Ok a, w') => (Ok a, w')
    | (Raise e, w') => handler e w'
    end.

(** [for x in l: body(x)] *)
Fixpoint for_each {A} (body : A -> M unit) (l : list A) : M unit :=
  match l with
  | [] => ret tt
  | x :: l' => let* _ := body x in for_each body l'
  end.

(** [enumerate(l, start)] *)
Fixpoint enumerate {A} (start : Z) (l : list A) : list (Z * A) :=
  match l with
  | [] => []
  | x :: l' => (start, x) :: enumerate (start + 1) l'
  end.

Definition record_call (c : Call) : M unit :=
  fun w => (Ok tt, mkWorld (MODEL_MANAGER w) (files w) (calls w ++ [c])).

(** Calling an external capability: the call is recorded, then it answers. *)
Definition external {A} (c : Call) (answer : Result A) : M A :=
  let* _ := record_call c in lift answer.

(** *** Files *)

(** [Path(p).mkdir(exist_ok=True)] *)
Definition mkdir (env : Env) (p : string) : M unit :=
  fun w =>
    match os_error env p mode_w with
    | Some e => (Raise e, w)
    | None =>
        match files w !! p with
        | Some _ =>
            (Raise (mkExc FileExistsError
                      ("[Errno 17] File exists: " +:+ repr p)), w)
        | None => (Ok tt, w)
        end
    end.

(** [open(p, "w", encoding="utf-8")]: the file is created or emptied. *)
Definition open_w (env : Env) (p : string) : M unit :=
  fun w =>
    match os_error env p mode_w with
    | Some e => (Raise e, w)
    | None =>
        (Ok tt, mkWorld (MODEL_MANAGER w) (<[p := ""]> (files w)) (calls w))
    end.

(** [f.write(s)] on the file opened at [p]. *)
Definition write (p s : string) : M unit :=
  fun w =>
    (Ok tt,
     mkWorld (MODEL_MANAGER w)
       (<[p := default "" (files w !! p) +:+ s]> (files w)) (calls w)).

(** Reading in text mode translates every line ending, [\r\n] or [\r],
    to [\n]. *)
Fixpoint universal_newlines (s : string) : string :=
  match s with
  | EmptyString => EmptyString
  | String c r =>
      if Ascii.eqb c "013"
      then String "010"
             match r with
             | String c' r' =>
                 if Ascii.eqb c' "010" then universal_newlines r'
                 else universal_newlines r
             | EmptyString => EmptyString
             end
      else String c (universal_newlines r)
  end.

(** [open(p, "r", encoding="utf-8").read()] *)
Definition read_text (env : Env) (p : string) : M string :=
  fun w =>
    match os_error env p mode_r with
    | Some e => (Raise e, w)
    | None =>
        match files w !! p with
        | Some s => (Ok (universal_newlines s), w)
        | None =>
            (Raise (mkExc FileNotFoundError
                      ("[Errno 2] No such file or directory: " +:+ repr p)),
             w)
        end
    end.

(** ** [WhisperXManager.get_asr_model] *)

(** [whisperx.load_model(...)]: on success a new pipeline object. *)
Definition whisperx_load_model (env : Env)
    (model_name device compute_type : string) : M Handle :=
  fun w =>
    let fresh : Handle := length (calls w) in
    external (call_load_model model_name device compute_type)
      (match load_model env model_name device compute_type with
       | Some e => Raise e
       | None => Ok fresh
       end) w.

Definition get_manager : M WhisperXManager :=
  fun w => (Ok (MODEL_MANAGER w), w).

Definition set_manager (self : WhisperXManager) : M unit :=
  fun w => (Ok tt, mkWorld self (files w) (calls w)).

Definition get_asr_model (env : Env)
    (model_name' device' compute_type' : string) : M (option Handle) :=
  let* self := get_manager in
  let* _ :=
    if bool_decide (asr_model self = None)
       || bool_decide (Some model_name' ≠ model_name self)
       || bool_decide (Some device' ≠ device self)
       || bool_decide (Some compute_type' ≠ compute_type self)
    then
      let* loaded := whisperx_load_model env model_name' device' compute_type' in
      set_manager
        (mkManager (Some loaded) (Some model_name') (Some device')
           (Some compute_type'))
    else ret tt in
  let* self := get_manager in
  ret (asr_model self).

(** ** [transcribe_audio] *)

(** The parameters of [transcribe_audio] that its body reads; the other
    parameters of the signature are accepted and ignored. *)
Module Args.
Record t := make {
  audio_file : Audio;
  model : string;
  task : string;
  language : option string;
  device : string;
  compute_type : string;
  batch_size : Z;
  align_model : option string;
  no_align : bool;
  interpolate_method : string;
  return_char_alignments : bool;
  chunk_size : Z;
  diarize : bool;
  min_speakers : option string;
  max_speakers : option string;
  hotwords : option string
}.
End Args.

(** Truth value of a string. *)
Definition truthy (s : string) : bool := negb (String.eqb s "").

(** [if b: b = int(b)] *)
Definition parse_bound (b : option string) : Result Bound :=
  match b with
  | None => Ok bound_none
  | Some s =>
      if truthy s then rbind (int_of_str s) (fun n => Ok (bound_int n))
      else Ok (bound_str s)
  end.

(** [hotwords_list] *)
Definition parse_hotwords (hotwords : option string) : option (list string) :=
  match hotwords with
  | Some h => if truthy h then Some (map strip (split "," h)) else None
  | None => None
  end.

(** The language code handed to the alignment loader. *)
Definition resolve_language (requested : option string) (result : Document)
    : string :=
  let detected_language := default "en" (language result) in
  match requested with
  | Some l => if truthy l && truthy (strip l) then strip l
              else detected_language
  | None => detected_language
  end.

Definition output_dir : string := "whisperx_output".

(** [str(output_dir / name)] *)
Definition in_output_dir (name : string) : string :=
  output_dir +:+ "/" +:+ name.

(** The text of a subtitle cue. *)
Definition cue_text (diarize : bool) (segment : Segment) : string :=
  let text := replace "-->" "->" (strip (seg_text segment)) in
  match diarize, seg_speaker segment with
  | true, Some speaker => "[" +:+ speaker +:+ "]: " +:+ text
  | _, _ => text
  end.

Definition txt_line (diarize : bool) (segment : Segment) : string :=
  match diarize, seg_speaker segment with
  | true, Some speaker =>
      "[" +:+ speaker +:+ "]: " +:+ strip (seg_text segment) +:+ nl
  | _, _ => strip (seg_text segment) +:+ nl
  end.

Definition srt_cue (diarize : bool) (i : Z) (segment : Segment)
    : Result string :=
  rbind (format_timestamp (seg_start segment) true ",") (fun start_time =>
  rbind (format_timestamp (seg_end segment) true ",") (fun end_time =>
  let text := cue_text diarize segment in
  Ok (str_int i +:+ nl +:+ start_time +:+ " --> " +:+ end_time +:+ nl
        +:+ text +:+ nl +:+ nl))).

Definition vtt_cue (diarize : bool) (segment : Segment) : Result string :=
  rbind (format_timestamp (seg_start segment) false ".") (fun start_time =>
  rbind (format_timestamp (seg_end segment) false ".") (fun end_time =>
  let text := cue_text diarize segment in
  Ok (start_time +:+ " --> " +:+ end_time +:+ nl +:+ text +:+ nl +:+ nl))).

(** [json.dump(result, f, ensure_ascii=False, indent=2)] on the file opened
    at [p].  The encoder hands the text over piece by piece and each piece
    is written as it comes: [json_dumps] is the whole text when the encoder
    gets through, and when it raises, [json_partial] is what has been
    written by then. *)
Definition json_dump (env : Env) (result : Document) (p : string) : M unit :=
  match json_dumps env result with
  | Ok dumped => write p dumped
  | Raise e => let* _ := write p (json_partial env result) in raise e
  end.

(** "Save outputs in multiple formats" and the read-back of the text file:
    the last part of the inner [try] block. *)
Definition export_results (env : Env) (file_prefix : string) (diarize : bool)
    (result : Document) : M (string * list string) :=
  let output_files : list string := [] in
  (* 1. JSON format *)
  let json_path := in_output_dir (file_prefix +:+ ".json") in
  let* _ := open_w env json_path in
  let* _ := json_dump env result json_path in
  let output_files := output_files ++ [json_path] in
  (* 2. Plain text format *)
  let txt_path := in_output_dir (file_prefix +:+ ".txt") in
  let* _ := open_w env txt_path in
  let* _ := for_each (fun segment => write txt_path (txt_line diarize segment))
              (segments result) in
  let output_files := output_files ++ [txt_path] in
  (* 3. SRT format *)
  let srt_path := in_output_dir (file_prefix +:+ ".srt") in
  let* _ := open_w env srt_path in
  let* _ := for_each (fun '(i, segment) =>
                        let* cue := lift (srt_cue diarize i segment) in
                        write srt_path cue)
              (enumerate 1 (segments result)) in
  let output_files := output_files ++ [srt_path] in
  (* 4. VTT format *)
  let vtt_path := in_output_dir (file_prefix +:+ ".vtt") in
  let* _ := open_w env vtt_path in
  let* _ := write vtt_path ("WEBVTT" +:+ nl +:+ nl) in
  let* _ := for_each (fun '(i, segment) =>
                        let* cue := lift (vtt_cue diarize segment) in
                        write vtt_path cue)
              (enumerate 1 (segments result)) in
  let output_files := output_files ++ [vtt_path] in
  (* Read the TXT file content for display *)
  let* transcript := read_text env txt_path in
  ret (transcript, output_files).

(** [model_manager.transcribe(...)] *)
Definition call_model (env : Env) (model_manager : option Handle)
    (audio_path : Audio) (language : option string) (task : string)
    (batch_size chunk_size : Z) : M Document :=
  match model_manager with
  | Some m =>
      external
        (call_transcribe m audio_path language task batch_size chunk_size)
        (transcribe env m audio_path language task batch_size chunk_size)
  | None =>
      raise (mkExc AttributeError
               "'NoneType' object has no attribute 'transcribe'")
  end.

(** Steps 1 to 3 and the export: the inner [try] block. *)
Definition run_stages (env : Env) (a : Args.t) (file_prefix : string)
    (audio_path : Audio) (model_manager : option Handle)
    (min_speakers max_speakers : Bound) : M (string * list string) :=
  (* Step 1: Transcribe with Whisper *)
  let* result := call_model env model_manager audio_path (Args.language a)
                   (Args.task a) (Args.batch_size a) (Args.chunk_size a) in
  (* Step 2: Perform alignment if enabled *)
  let* result :=
    if negb (Args.no_align a) then
      let detected_language := resolve_language (Args.language a) result in
      let model_name :=
        match Args.align_model a with
        | Some am => if truthy am && truthy (strip am) then Some am else None
        | None => None
        end in
      let* '(alignment_model, align_metadata) :=
        external
          (call_load_align_model detected_language (Args.device a) model_name)
          (load_align_model env detected_language (Args.device a) model_name) in
      external
        (call_align (segments result) alignment_model align_metadata
           audio_path (Args.device a) (Args.return_char_alignments a)
           (Args.interpolate_method a))
        (align env (segments result) alignment_model align_metadata
           audio_path (Args.device a) (Args.return_char_alignments a)
           (Args.interpolate_method a))
    else ret result in
  (* Step 3: Perform diarization if enabled *)
  let* result :=
    if Args.diarize a then
      let* diarize_model' :=
        external (call_DiarizationPipeline (Args.device a))
          (DiarizationPipeline env (Args.device a)) in
      let* diarize_segments :=
        external
          (call_diarize_model diarize_model' audio_path min_speakers
             max_speakers)
          (diarize_model env diarize_model' audio_path min_speakers
             max_speakers) in
      external (call_assign_word_speakers diarize_segments result)
        (assign_word_speakers env diarize_segments result)
    else ret result in
  export_results env file_prefix (Args.diarize a) result.

(** The statements before the outer [try]: the output directory and the
    prefix of this run's files. *)
Definition setup (env : Env) : M string :=
  let* _ := mkdir env output_dir in
  let* timestamp := lift (int_of_float (time_time env)) in
  ret ("transcript_" +:+ str_int timestamp).

Definition error_result (e : PyExc) : M (string * list string) :=
  ret ("Error: " +:+ exc_str e, []).

Definition transcribe_audio (env : Env) (a : Args.t)
    : M (string * list string) :=
  let* file_prefix := setup env in
  try_except
    (let audio_path :=
       match Args.audio_file a with
       | audio_dict (Some path) => audio_str path
       | other => other
       end in
     let* model_manager :=
       get_asr_model env (Args.model a) (Args.device a)
         (Args.compute_type a) in
     let* min_speakers := lift (parse_bound (Args.min_speakers a)) in
     let* max_speakers := lift (parse_bound (Args.max_speakers a)) in
     let hotwords_list := parse_hotwords (Args.hotwords a) in
     try_except
       (run_stages env a file_prefix audio_path model_manager min_speakers
          max_speakers)
       error_result)
    error_result.

(** ** Notions used in the statements *)

(** [n] is the integer nearest to the value of [x]; when two integers are
    equally near, [n] is the even one. *)
Definition nearest_even (x : float) (n : Z) : Prop :=
  match x with
  | S754_zero _ => n = 0
  | S754_finite s m e =>
      let v := if s then Z.neg m else Z.pos m in
      if 0 <=? e then n = v * 2 ^ e
      else 2 * Z.abs (v - n * 2 ^ (- e)) <= 2 ^ (- e)
           /\ (2 * Z.abs (v - n * 2 ^ (- e)) = 2 ^ (- e) -> Z.even n = true)
  | _ => False
  end.

(** [x] is a number: neither an infinity nor a NaN. *)
Definition is_finite (x : float) : bool :=
  match x with
  | S754_zero _ | S754_finite _ _ _ => true
  | S754_infinity _ | S754_nan => false
  end.

(** The resident handle is one a loader call has produced. *)
Definition World_ok (w : World) : Prop :=
  forall h, asr_model (MODEL_MANAGER w) = Some h -> (h < length (calls w))%nat.

(** The state of a fresh process. *)
Definition w_init : World := mkWorld WhisperXManager_init ∅ [].

(** Concatenation of the pieces written to a file. *)
Definition concat_strings (l : list string) : string :=
  fold_right String.append "" l.

(** The results before the first exception, and that exception. *)
Fixpoint gather (l : list (Result string)) : list string * option PyExc :=
  match l with
  | [] => ([], None)
  | Ok s :: l' => let (ss, e) := gather l' in (s :: ss, e)
  | Raise e :: _ => ([], Some e)
  end.

(** The four paths of a run, in the order they are written. *)
Definition artifact_paths (file_prefix : string) : list string :=
  map (fun ext => in_output_dir (file_prefix +:+ ext))
    [".json"; ".txt"; ".srt"; ".vtt"].

Definition set_files (w : World) (fs : gmap string string) : World :=
  mkWorld (MODEL_MANAGER w) fs (calls w).

(** What the subtitle loops produce for a list of segments. *)
Definition srt_cues (diarize : bool) (segs : list Segment)
    : list string * option PyExc :=
  gather (map (fun '(i, segment) => srt_cue diarize i segment)
            (enumerate 1 segs)).

Definition vtt_cues (diarize : bool) (segs : list Segment)
    : list string * option PyExc :=
  gather (map (fun '(i, segment) => vtt_cue diarize segment)
            (enumerate 1 segs)).

Definition txt_content (diarize : bool) (segs : list Segment) : string :=
  concat_strings (map (txt_line diarize) segs).

Definition vtt_header : string := "WEBVTT" +:+ nl +:+ nl.

(** The files after a complete export. *)
Definition exported (fp : string) (dumped : string) (diarize : bool)
    (segs : list Segment) (fs : gmap string string) : gmap string string :=
  <[in_output_dir (fp +:+ ".vtt") :=
      vtt_header +:+ concat_strings (fst (vtt_cues diarize segs))]>
  (<[in_output_dir (fp +:+ ".srt") :=
       concat_strings (fst (srt_cues diarize segs))]>
   (<[in_output_dir (fp +:+ ".txt") := txt_content diarize segs]>
    (<[in_output_dir (fp +:+ ".json") := dumped]> fs))).

(** *** Concrete inputs *)

(** An environment in which nothing fails: the clock reads [now], the
    transcription returns [doc], alignment keeps the segments, diarization
    returns the document unchanged, the serializer writes [dumped]. *)
Definition quiet_env (now : float) (doc : Document) (dumped : string) : Env :=
  mkEnv now (fun _ _ => None) (fun _ _ _ => None)
    (fun _ _ _ _ _ _ => Ok doc)
    (fun _ _ _ => Ok (0%nat, 0%nat))
    (fun segs _ _ _ _ _ _ => Ok (mkDocument segs None))
    (fun _ => Ok 0%nat)
    (fun _ _ _ _ => Ok 0%nat)
    (fun _ result => Ok result)
    (fun _ => Ok dumped) (fun _ => "").

(** [{start: 1.5, end: 3.75, text: "hello world"}] *)
Definition hello_segment : Segment :=
  mkSegment (float_of 3 (-1)) (float_of 15 (-2)) "hello world" None.

Definition hello_document : Document := mkDocument [hello_segment] (Some "en").

(** The language rule in the words of the specification: a requested
    language that is not empty after trimming wins; otherwise the detected
    language; otherwise ["en"]. *)
Definition language_rule (requested detected : option string) : string :=
  let fallback := match detected with Some d => d | None => "en" end in
  match requested with
  | Some l => if String.eqb (strip l) "" then fallback else strip l
  | None => fallback
  end.

(** The alignment model name handed to the loader. *)
Definition align_model_name (a : Args.t) : option string :=
  match Args.align_model a with
  | Some am => if truthy am && truthy (strip am) then Some am else None
  | None => None
  end.

(** A computation only adds calls to the record. *)
Definition extends {A} (c : M A) : Prop :=
  forall w, exists l, calls (snd (c w)) = calls w ++ l.

(** A segment whose text is an arrow after a dash. *)
Definition dash_arrow_segment : Segment :=
  mkSegment (float_of 0 0) (float_of 1 0) "--->" None.

Definition dash_arrow_document : Document :=
  mkDocument [dash_arrow_segment] (Some "en").

(** The statements of the two [try] blocks in sequence, without their
    handlers. *)
Definition attempt (env : Env) (a : Args.t) (file_prefix : string)
    : M (string * list string) :=
  let audio_path :=
    match Args.audio_file a with
    | audio_dict (Some path) => audio_str path
    | other => other
    end in
  let* model_manager :=
    get_asr_model env (Args.model a) (Args.device a) (Args.compute_type a) in
  let* min_speakers := lift (parse_bound (Args.min_speakers a)) in
  let* max_speakers := lift (parse_bound (Args.max_speakers a)) in
  run_stages env a file_prefix audio_path model_manager min_speakers
    max_speakers.

(** The defaults of the signature of [transcribe_audio], for the given
    audio and with alignment skipped or not. *)
Definition default_args (audio : Audio) (no_align : bool) : Args.t :=
  Args.make audio "medium" "transcribe" None "cuda" "float16" 16 None
    no_align "nearest" false 30 false None None None.

(** A segment whose text has a carriage return in the middle: [a\rb]. *)
Definition cr_segment : Segment :=
  mkSegment (float_of 0 0) (float_of 1 0) ("a" +:+ cr +:+ "b") None.

Definition cr_document : Document := mkDocument [cr_segment] (Some "en").

(** Arguments asking for diarization with the given speaker bounds. *)
Definition diarize_args (min_speakers max_speakers : option string) : Args.t :=
  Args.make (audio_str "a.wav") "medium" "transcribe" None "cuda" "float16"
    16 None true "nearest" false 30 true min_speakers max_speakers None.

(** Two documents for two runs. *)
Definition first_document : Document :=
  mkDocument [mkSegment (float_of 0 0) (float_of 1 0) "first" None]
    (Some "en").

Definition second_document : Document :=
  mkDocument [mkSegment (float_of 0 0) (float_of 1 0) "second" None]
    (Some "en").

(** The speaker prefix: ["[speaker]: "] when diarization is enabled and
    the segment has a speaker, nothing otherwise. *)
Definition speaker_prefix (diarize : bool) (segment : Segment) : string :=
  match seg_speaker segment with
  | Some speaker => if diarize then "[" +:+ speaker +:+ "]: " else ""
  | None => ""
  end.

(** A diarized segment and one the diarization left without a speaker. *)
Definition spoken_segment : Segment :=
  mkSegment (float_of 0 0) (float_of 1 0) "hi" (Some "SPEAKER_00").

Definition unspoken_segment : Segment :=
  mkSegment (float_of 1 0) (float_of 2 0) "there" None.

(** A computation keeps the state well formed. *)
Definition keeps_ok {A} (c : M A) : Prop :=
  forall w, World_ok w -> World_ok (snd (c w)).

(** [seconds >= 0] is false: [x] is a NaN, a negative number or minus
    infinity. *)
Definition negative_or_nan (x : float) : bool :=
  match x with
  | S754_nan | S754_infinity true | S754_finite true _ _ => true
  | _ => false
  end.

(** Both timestamps of the segment can be formatted. *)
Definition formattable (segment : Segment) : Prop :=
  (exists t, format_timestamp (seg_start segment) true "," = Ok t)
  /\ (exists t, format_timestamp (seg_end segment) true "," = Ok t).

(** The handle [h] is resident under the key [(m, d, c)]. *)
Definition resident (w : World) (h : Handle) (m d c : string) : Prop :=
  MODEL_MANAGER w = mkManager (Some h) (Some m) (Some d) (Some c).

(** The audio handed to the stages: the path of a Gradio file
    dictionary, anything else as it came. *)
Definition audio_path_of (a : Args.t) : Audio :=
  match Args.audio_file a with
  | audio_dict (Some path) => audio_str path
  | other => other
  end.

(** The alignment stage took [r0] to [r1] with the calls [l]: skipped, or
    the loader and the aligner answered. *)
Definition align_step (env : Env) (a : Args.t) (r0 r1 : Document)
    (l : list Call) : Prop :=
  (Args.no_align a = true /\ l = [] /\ r1 = r0)
  \/ (Args.no_align a = false
      /\ exists am md,
           load_align_model env
             (language_rule (Args.language a) (language r0))
             (Args.device a) (align_model_name a) = Ok (am, md)
           /\ align env (segments r0) am md (audio_path_of a) (Args.device a)
                (Args.return_char_alignments a)
                (Args.interpolate_method a) = Ok r1
           /\ l = [call_load_align_model
                     (language_rule (Args.language a) (language r0))
                     (Args.device a) (align_model_name a);
                   call_align (segments r0) am md (audio_path_of a)
                     (Args.device a) (Args.return_char_alignments a)
                     (Args.interpolate_method a)]).

(** The diarization stage took [r1] to [r2] with the calls [l]. *)
Definition diarize_step (env : Env) (a : Args.t) (mn mx : Bound)
    (r1 r2 : Document) (l : list Call) : Prop :=
  (Args.diarize a = false /\ l = [] /\ r2 = r1)
  \/ (Args.diarize a = true
      /\ exists dm ds,
           DiarizationPipeline env (Args.device a) = Ok dm
           /\ diarize_model env dm (audio_path_of a) mn mx = Ok ds
           /\ assign_word_speakers env ds r1 = Ok r2
           /\ l = [call_DiarizationPipeline (Args.device a);
                   call_diarize_model dm (audio_path_of a) mn mx;
                   call_assign_word_speakers ds r1]).

(** The model lookup of a run: a hit on the resident handle [h] and no
    call, or one successful loader call. *)
Definition lookup_step (env : Env) (a : Args.t) (w : World) (h : Handle)
    (l : list Call) : Prop :=
  (resident w h (Args.model a) (Args.device a) (Args.compute_type a)
   /\ l = [])
  \/ ((forall h0, ~ resident w h0 (Args.model a) (Args.device a)
                        (Args.compute_type a))
      /\ load_model env (Args.model a) (Args.device a) (Args.compute_type a)
         = None
      /\ l = [call_load_model (Args.model a) (Args.device a)
                (Args.compute_type a)]).

(** A computation adds only calls satisfying [P] to the record and changes
    no file outside [ps]. *)
Definition confined (P : Call -> Prop) (ps : list string) {A} (c : M A)
    : Prop :=
  forall w,
    (exists l, calls (snd (c w)) = calls w ++ l /\ Forall P l)
    /\ (forall p, p ∉ ps -> files (snd (c w)) !! p = files w !! p).

(** The calls a run with the arguments [a] may make. *)
Definition allowed_call (a : Args.t) (c : Call) : Prop :=
  match c with
  | call_load_model m d ct =>
      (m, d, ct) = (Args.model a, Args.device a, Args.compute_type a)
  | call_transcribe _ _ _ _ _ _ => True
  | call_load_align_model _ _ _ | call_align _ _ _ _ _ _ _ =>
      Args.no_align a = false
  | call_DiarizationPipeline _ | call_diarize_model _ _ _ _
  | call_assign_word_speakers _ _ =>
      Args.diarize a = true
  end.

(** A segment that starts before zero. *)
Definition negative_segment : Segment :=
  mkSegment (float_of (-1) 0) (float_of 1 0) "oops" None.

(** The number a string of decimal digits denotes, read from the left
    after the digits already read as [a]. *)
Fixpoint decimal_value (a : N) (s : string) : N :=
  match s with
  | EmptyString => a
  | String c r => decimal_value (10 * a + (N_of_ascii c - 48)) r
  end.

(** Every character is one of 0-9. *)
Fixpoint all_digits (s : string) : bool :=
  match s with
  | EmptyString => true
  | String c r =>
      ((48 <=? N_of_ascii c) && (N_of_ascii c <=? 57))%N && all_digits r
  end.

(** The three inference stages of a run, without the export. *)
Definition stages (env : Env) (a : Args.t) (audio_path : Audio)
    (model_manager : option Handle) (min_speakers max_speakers : Bound)
    : M Document :=
  let* result := call_model env model_manager audio_path (Args.language a)
                   (Args.task a) (Args.batch_size a) (Args.chunk_size a) in
  let* result :=
    if negb (Args.no_align a) then
      let detected_language := resolve_language (Args.language a) result in
      let model_name :=
        match Args.align_model a with
        | Some am => if truthy am && truthy (strip am) then Some am else None
        | None => None
        end in
      let* '(alignment_model, align_metadata) :=
        external
          (call_load_align_model detected_language (Args.device a) model_name)
          (load_align_model env detected_language (Args.device a) model_name) in
      external
        (call_align (segments result) alignment_model align_metadata
           audio_path (Args.device a) (Args.return_char_alignments a)
           (Args.interpolate_method a))
        (align env (segments result) alignment_model align_metadata
           audio_path (Args.device a) (Args.return_char_alignments a)
           (Args.interpolate_method a))
    else ret result in
  if Args.diarize a then
    let* diarize_model' :=
      external (call_DiarizationPipeline (Args.device a))
        (DiarizationPipeline env (Args.device a)) in
    let* diarize_segments :=
      external
        (call_diarize_model diarize_model' audio_path min_speakers
           max_speakers)
        (diarize_model env diarize_model' audio_path min_speakers
           max_speakers) in
    external (call_assign_word_speakers diarize_segments result)
      (assign_word_speakers env diarize_segments result)
  else ret result.

(** The arguments [a] with another value in the hotwords box. *)
Definition with_hotwords (a : Args.t) (hotwords : option string) : Args.t :=
  Args.make (Args.audio_file a) (Args.model a) (Args.task a)
    (Args.language a) (Args.device a) (Args.compute_type a)
    (Args.batch_size a) (Args.align_model a) (Args.no_align a)
    (Args.interpolate_method a) (Args.return_char_alignments a)
    (Args.chunk_size a) (Args.diarize a) (Args.min_speakers a)
    (Args.max_speakers a) hotwords.

(** A bound written in decimal: the digits [D], after a minus sign when
    [neg]; and the integer it denotes. *)
Definition signed (neg : bool) (D : string) : string :=
  if neg then "-" +:+ D else D.

Definition signed_value (neg : bool) (D : string) : Z :=
  if neg then - Z.of_N (decimal_value 0 D) else Z.of_N (decimal_value 0 D).

(** Digits, at least one and no more than the interpreter converts. *)
Definition convertible (D : string) : bool :=
  all_digits D && negb (String.eqb D "")
  && (N.of_nat (String.length D) <=? int_max_str_digits)%N.

(** An environment like [quiet_env] in which the operating system refuses
    to create or to open [p], with the exception [e]. *)
Definition refusing_env (now : float) (doc : Document) (dumped : string)
    (p : string) (e : PyExc) : Env :=
  mkEnv now (fun q _ => if String.eqb q p then Some e else None)
    (fun _ _ _ => None)
    (fun _ _ _ _ _ _ => Ok doc)
    (fun _ _ _ => Ok (0%nat, 0%nat))
    (fun segs _ _ _ _ _ _ => Ok (mkDocument segs None))
    (fun _ => Ok 0%nat)
    (fun _ _ _ _ => Ok 0%nat)
    (fun _ result => Ok result)
    (fun _ => Ok dumped) (fun _ => "").

(** [OSError(30, "Read-only file system", p)] *)
Definition read_only (p : string) : PyExc :=
  mkExc OSError ("[Errno 30] Read-only file system: " +:+ repr p).

(** Where inside the two [try] blocks the exception [e] is raised, and the
    state [w'] it leaves: in the model lookup, in the conversion of one of
    the two bounds, in one of the stages, or in the exporter. *)
Definition raised_in (env : Env) (a : Args.t) (fp : string) (w : World)
    (e : PyExc) (w' : World) : Prop :=
  get_asr_model env (Args.model a) (Args.device a) (Args.compute_type a) w
  = (Raise e, w')
  \/ exists mm w1,
       get_asr_model env (Args.model a) (Args.device a) (Args.compute_type a) w
       = (Ok mm, w1)
       /\ ((parse_bound (Args.min_speakers a) = Raise e /\ w' = w1)
           \/ exists mn,
                parse_bound (Args.min_speakers a) = Ok mn
                /\ ((parse_bound (Args.max_speakers a) = Raise e /\ w' = w1)
                    \/ exists mx,
                         parse_bound (Args.max_speakers a) = Ok mx
                         /\ (stages env a (audio_path_of a) mm mn mx w1
                             = (Raise e, w')
                             \/ exists result w2,
                                  stages env a (audio_path_of a) mm mn mx w1
                                  = (Ok result, w2)
                                  /\ export_results env fp (Args.diarize a)
                                       result w2 = (Raise e, w')))).

(** The outcome of a run that went through: the document [result] the
    stages produced is serialised as [j], the four artifacts hold its
    rendering, and the text is the text artifact read back. *)
Definition completed (env : Env) (a : Args.t) (fp : string) (w : World)
    (t : string) (fs : list string) (w' : World) : Prop :=
  exists mm w1 mn mx result w2 j,
    get_asr_model env (Args.model a) (Args.device a) (Args.compute_type a) w
    = (Ok mm, w1)
    /\ parse_bound (Args.min_speakers a) = Ok mn
    /\ parse_bound (Args.max_speakers a) = Ok mx
    /\ stages env a (audio_path_of a) mm mn mx w1 = (Ok result, w2)
    /\ json_dumps env result = Ok j
    /\ t = universal_newlines
             (txt_content (Args.diarize a) (segments result))
    /\ fs = artifact_paths fp
    /\ fs <> []
    /\ files w'
       = exported fp j (Args.diarize a) (segments result) (files w)
    /\ MODEL_MANAGER w' = MODEL_MANAGER w1
    /\ calls w' = calls w2.


(** * Properties *)

(** ** The timestamp formatter *)

Lemma binary_round_aux_sign sx mx ex lx :
  match binary_round_aux prec emax sx mx ex lx with
  | S754_zero s | S754_infinity s | S754_finite s _ _ => s = sx
  | S754_nan => True
  end.
Proof.
  unfold binary_round_aux.
  destruct (shr_fexp prec emax mx ex lx) as [mrs' e'].
  destruct (shr_fexp prec emax _ e' loc_Exact) as [mrs'' e''].
  destruct (shr_m mrs''); [reflexivity | | exact I].
  destruct (Z.leb e'' (Z.sub emax prec)); reflexivity.
Qed.

Lemma round_half_even_nonneg m k : 0 <= m -> 0 <= round_half_even m k.
Proof.
  intros Hm. unfold round_half_even.
  assert (0 <= m / 2 ^ k).
  { destruct (Z.ltb_spec k 0) as [Hk|Hk].
    - rewrite Z.pow_neg_r by lia. rewrite Z.div_0_r. lia.
    - apply Z.div_pos; [lia | apply Z.pow_pos_nonneg; lia]. }
  destruct (2 * (m mod 2 ^ k) ?= 2 ^ k); [destruct (Z.even _) | |]; lia.
Qed.

Lemma round_nonneg x ms :
  fge x (float_of 0 0) = true -> round (fmul x (float_of 1000 0)) = Ok ms -> 0 <= ms.
Proof.
  change (float_of 0 0) with (S754_zero false).
  change (float_of 1000 0) with (S754_finite false 8796093022208000 (-43)).
  destruct x as [s | s | | s m e]; cbn -[binary_round_aux Z.pow]; try discriminate.
  - intros _ [= <-]. lia.
  - destruct s; try discriminate. intros _.
    pose proof (binary_round_aux_sign false (Z.pos (m * 8796093022208000)) (e + -43) loc_Exact) as Hs.
    cbn [xorb] .
    destruct (binary_round_aux _ _ _ _ _ _) as [s' | s' | | s' m' e']; cbn -[Z.pow]; try discriminate.
    + intros [= <-]; lia.
    + subst s'. intros [= <-].
      destruct (0 <=? e'). * apply Z.mul_nonneg_nonneg; [lia | apply Z.pow_nonneg; lia].
      * apply round_half_even_nonneg. lia.
Qed.

Lemma round_half_even_nearest m k :
  0 < k ->
  let n := round_half_even m k in
  2 * Z.abs (m - n * 2 ^ k) <= 2 ^ k
  /\ (2 * Z.abs (m - n * 2 ^ k) = 2 ^ k -> Z.even n = true).
Proof.
  intros Hk. unfold round_half_even.
  assert (Hd : 0 < 2 ^ k) by (apply Z.pow_pos_nonneg; lia).
  assert (Hev : Z.even (2 ^ k) = true).
  { replace k with (Z.succ (k - 1)) by lia. rewrite Z.pow_succ_r by lia.
    rewrite Z.even_mul. reflexivity. }
  generalize dependent (2 ^ k). intros d Hd Hev.
  pose proof (Z.div_mod m d ltac:(lia)) as Hdm.
  pose proof (Z.mod_pos_bound m d Hd) as Hr.
  set (q := m / d) in *. set (r := m mod d) in *.
  assert (Hm : m - q * d = r) by lia.
  assert (Hm' : m - (q + 1) * d = r - d) by lia.
  destruct (Z.compare_spec (2 * r) d) as [He|Hl|Hg]; cbn zeta.
  - destruct (Z.even q) eqn:Hq.
    + rewrite Hm. split; [lia | auto].
    + rewrite Hm'. split; [lia |]. intros _.
      rewrite Z.even_add, Hq. reflexivity.
  - rewrite Hm. split; lia.
  - rewrite Hm'. split; lia.
Qed.

Lemma round_nearest x n : round x = Ok n -> nearest_even x n.
Proof.
  destruct x as [s | s | | s m e]; cbn -[Z.pow round_half_even]; try discriminate.
  - intros [= <-]. reflexivity.
  - intros [= <-]. destruct (Z.leb_spec 0 e) as [He|He].
    + destruct s; lia.
    + pose proof (round_half_even_nearest (Z.pos m) (- e) ltac:(lia)) as [H1 H2].
      cbn zeta in H1, H2.
      destruct s; [|split; assumption].
      replace (Z.neg m - - round_half_even (Z.pos m) (- e) * 2 ^ (- e))
        with (- (Z.pos m - round_half_even (Z.pos m) (- e) * 2 ^ (- e))) by lia.
      rewrite Z.abs_opp, Z.even_opp. split; assumption.
Qed.

Lemma format_d_width_below (w : nat) (bound : nat) :
  forallb (fun n => Nat.eqb (String.length (format_d w (Z.of_nat n))) w) (seq 0 bound) = true ->
  forall z, 0 <= z < Z.of_nat bound -> String.length (format_d w z) = w.
Proof.
  intros Hall z Hz.
  rewrite forallb_forall in Hall.
  specialize (Hall (Z.to_nat z)).
  rewrite Z2Nat.id in Hall by lia.
  apply Nat.eqb_eq, Hall, in_seq. lia.
Qed.

Lemma format_d_2_length z : 0 <= z < 60 -> String.length (format_d 2 z) = 2%nat.
Proof. apply (format_d_width_below 2 60). vm_compute. reflexivity. Qed.

Lemma format_d_3_length z : 0 <= z < 1000 -> String.length (format_d 3 z) = 3%nat.
Proof. apply (format_d_width_below 3 1000). vm_compute. reflexivity. Qed.

Lemma string_length_app (a b : string) :
  String.length (a +:+ b) = (String.length a + String.length b)%nat.
Proof. induction a as [|c a IH]; simpl; [reflexivity | now rewrite IH]. Qed.

Lemma zeros_length k : String.length (zeros k) = k.
Proof. induction k; simpl; congruence. Qed.

Lemma format_d_min_width w z : (w <= String.length (format_d w z))%nat.
Proof.
  unfold format_d. rewrite !string_length_app, zeros_length. lia.
Qed.

Lemma format_timestamp_of_millis (seconds : float)
    (always_include_hours : bool) (decimal_marker : string) (ms : Z) :
  fge seconds (float_of 0 0) = true ->
  round (fmul seconds (float_of 1000 0)) = Ok ms ->
  let hours := ms / 3600000 in
  let minutes := ms mod 3600000 / 60000 in
  let secs := ms mod 60000 / 1000 in
  let millis := ms mod 1000 in
  format_timestamp seconds always_include_hours decimal_marker
  = Ok ((if always_include_hours || (0 <? hours)
         then format_d 2 hours +:+ ":" else "")
        +:+ format_d 2 minutes +:+ ":" +:+ format_d 2 secs
        +:+ decimal_marker +:+ format_d 3 millis)
  /\ (2 <= String.length (format_d 2 hours))%nat
  /\ String.length (format_d 2 minutes) = 2%nat
  /\ String.length (format_d 2 secs) = 2%nat
  /\ String.length (format_d 3 millis) = 3%nat.
Proof.
  intros Hge Hround hours minutes secs millis.
  pose proof (round_nonneg _ _ Hge Hround) as Hms.
  split.
  { unfold format_timestamp. rewrite Hge, Hround. cbn [negb rbind].
    replace (ms - ms / 3600000 * 3600000) with (ms mod 3600000)
      by (rewrite Z.mod_eq; lia).
    replace (ms mod 3600000 - ms mod 3600000 / 60000 * 60000)
      with (ms mod 60000)
      by (clear; Z.to_euclidean_division_equations; lia).
    replace (ms mod 60000 - ms mod 60000 / 1000 * 1000) with (ms mod 1000)
      by (clear; Z.to_euclidean_division_equations; lia).
    reflexivity. }
  split; [apply format_d_min_width|].
  split; [apply format_d_2_length; subst minutes;
          Z.to_euclidean_division_equations; lia|].
  split; [apply format_d_2_length; subst secs;
          Z.to_euclidean_division_equations; lia|].
  apply format_d_3_length; subst millis.
  Z.to_euclidean_division_equations; lia.
Qed.

Lemma round_finite x : is_finite x = true -> exists n, round x = Ok n.
Proof. destruct x; try discriminate; cbn -[Z.pow round_half_even]; eauto. Qed.

Lemma round_not_finite x : is_finite x = false -> exists e, round x = Raise e.
Proof. destruct x; try discriminate; cbn; eauto. Qed.

(** C2, as amended: for every [seconds >= 0], [format_timestamp] raises when
    the product [seconds * 1000.0] is not finite, and otherwise returns: the
    number of milliseconds is the integer nearest to the product (the even
    one at a tie) and is not negative; hours, minutes, seconds and
    milliseconds are its successive quotients and remainders by 3600000,
    60000 and 1000; the result is the hour field, the minutes, ":", the
    seconds, the decimal marker and the milliseconds, where minutes and
    seconds take exactly two characters, milliseconds exactly three, the
    hour field is the hours on at least two characters followed by ":" and
    is present exactly when [always_include_hours] holds or the hours are
    positive.  In particular [format_timestamp(0, False, ".")] is
    [00:00.000] and [format_timestamp(3661.2005, True, ",")] is
    [01:01:01,200]. *)
Theorem format_timestamp_fields (seconds : float) (always_include_hours : bool)
    (decimal_marker : string) :
  fge seconds (float_of 0 0) = true ->
  let product := fmul seconds (float_of 1000 0) in
  (is_finite product = false ->
   exists e,
     format_timestamp seconds always_include_hours decimal_marker = Raise e)
  /\ (is_finite product = true ->
      exists ms,
        round product = Ok ms /\ 0 <= ms /\ nearest_even product ms
        /\ let hours := ms / 3600000 in
           let minutes := ms mod 3600000 / 60000 in
           let secs := ms mod 60000 / 1000 in
           let millis := ms mod 1000 in
           format_timestamp seconds always_include_hours decimal_marker
           = Ok ((if always_include_hours || (0 <? hours)
                  then format_d 2 hours +:+ ":" else "")
                 +:+ format_d 2 minutes +:+ ":" +:+ format_d 2 secs
                 +:+ decimal_marker +:+ format_d 3 millis)
           /\ (2 <= String.length (format_d 2 hours))%nat
           /\ String.length (format_d 2 minutes) = 2%nat
           /\ String.length (format_d 2 secs) = 2%nat
           /\ String.length (format_d 3 millis) = 3%nat)
  /\ format_timestamp (float_of 0 0) false "." = Ok "00:00.000"
  /\ format_timestamp f3661_2005 true "," = Ok "01:01:01,200".
Proof.
  intros Hge product. split; [|split].
  - intros Hinf. destruct (round_not_finite _ Hinf) as [e He].
    exists e. unfold format_timestamp. rewrite Hge. cbn [negb].
    fold product. now rewrite He.
  - intros Hfin. destruct (round_finite _ Hfin) as [ms Hms].
    exists ms. split; [exact Hms|].
    split; [exact (round_nonneg _ _ Hge Hms)|].
    split; [exact (round_nearest _ _ Hms)|].
    exact (format_timestamp_of_millis seconds always_include_hours
             decimal_marker ms Hge Hms).
  - split; vm_compute; reflexivity.
Qed.

Lemma format_timestamp_fields_witness :
  format_timestamp (float_of 3 (-1)) false "." = Ok "00:01.500"
  /\ format_timestamp (float_of 3 (-1)) true "," = Ok "00:00:01,500".
Proof.
  split.
  - destruct (format_timestamp_fields (float_of 3 (-1)) false "."
                ltac:(vm_compute; reflexivity))
      as (_ & H & _).
    destruct (H ltac:(vm_compute; reflexivity)) as (ms & Hms & _ & _ & Hf & _).
    injection Hms as <-. rewrite Hf. vm_compute. reflexivity.
  - destruct (format_timestamp_fields (float_of 3 (-1)) true ","
                ltac:(vm_compute; reflexivity))
      as (_ & H & _).
    destruct (H ltac:(vm_compute; reflexivity)) as (ms & Hms & _ & _ & Hf & _).
    injection Hms as <-. rewrite Hf. vm_compute. reflexivity.
Defined.

(** C2, as stated, fails on its second example: [f3661_2005] is the
    binary64 number nearest to 3661.2005 (it is within half a unit in the
    last place, 2^-42, of 36612005/10000); its product with 1000.0 is
    exactly 3661200.5, which rounds to the even 3661200, so the result ends
    in 200 and not in 201. *)
Lemma format_timestamp_3661_2005_ends_in_200 :
  valid_binary prec emax f3661_2005 = true
  /\ 2 * Z.abs (0x1c9a66a7ef9db2 * 10000 - 36612005 * 2 ^ 41) <= 10000
  /\ fmul f3661_2005 (float_of 1000 0) = float_of 7322401 (-1)
  /\ format_timestamp f3661_2005 true "," = Ok "01:01:01,200"
  /\ format_timestamp f3661_2005 true "," <> Ok "01:01:01,201".
Proof.
  split; [vm_compute; reflexivity|].
  split; [vm_compute; discriminate|].
  split; [vm_compute; reflexivity|].
  split; [vm_compute; reflexivity | vm_compute; discriminate].
Qed.

(** ** The model cache *)

Lemma get_asr_model_returns env m d c w h w' :
  get_asr_model env m d c w = (Ok (Some h), w') ->
  MODEL_MANAGER w' = mkManager (Some h) (Some m) (Some d) (Some c)
  /\ (World_ok w -> World_ok w').
Proof.
  unfold get_asr_model, bind, get_manager, whisperx_load_model, external,
    record_call, lift, set_manager, ret, bind.
  destruct (MODEL_MANAGER w) as [am mn dv ct] eqn:Hmgr. cbn.
  assert (Hload :
    (let (r, w'0) :=
       match match load_model env m d c with
             | Some e => Raise e
             | None => Ok (length (calls w))
             end with
       | Ok a =>
           (Ok (),
            mkWorld (mkManager (Some a) (Some m) (Some d) (Some c))
              (files w) (calls w ++ [call_load_model m d c]))
       | Raise e =>
           (Raise e,
            mkWorld (MODEL_MANAGER w) (files w)
              (calls w ++ [call_load_model m d c]))
       end in
     match r with
     | Ok _ => (Ok (asr_model (MODEL_MANAGER w'0)), w'0)
     | Raise e => (Raise e, w'0)
     end) = (Ok (Some h), w') ->
    MODEL_MANAGER w' = mkManager (Some h) (Some m) (Some d) (Some c)
    /\ (World_ok w -> World_ok w')).
  { destruct (load_model env m d c); [discriminate|].
    intros [= <- <-]. split; [reflexivity|].
    intros _ h' [= <-]. cbn. rewrite length_app. cbn. lia. }
  repeat case_bool_decide; cbn; try exact Hload.
  intros [= Ham <-]. rewrite Hmgr in *. cbn in *.
  repeat match goal with H : ¬ (_ ≠ _) |- _ => apply dec_stable in H end.
  split; [congruence | auto].
Qed.

(** C3: after a call of [get_asr_model] that returned the handle [h1], a
    second call on the same cache with the same model, device and compute
    type returns [h1] itself and leaves the state as it is, the record of
    loader calls included; a second call in which one of the three differs
    makes exactly one loader call, with the new key, and when the loader
    succeeds the handle it produced, which is not [h1], is resident under
    the new key and is returned; when the loader raises, the exception
    leaves the call and the cache is as before. *)
Theorem get_asr_model_cache env (m1 d1 c1 m2 d2 c2 : string) w0 h1 w1 :
  World_ok w0 ->
  get_asr_model env m1 d1 c1 w0 = (Ok (Some h1), w1) ->
  ((m2, d2, c2) = (m1, d1, c1) ->
     get_asr_model env m2 d2 c2 w1 = (Ok (Some h1), w1))
  /\ ((m2, d2, c2) <> (m1, d1, c1) ->
      let (r, w2) := get_asr_model env m2 d2 c2 w1 in
      calls w2 = calls w1 ++ [call_load_model m2 d2 c2]
      /\ match load_model env m2 d2 c2 with
         | None =>
             exists h2, r = Ok (Some h2) /\ h2 <> h1
               /\ MODEL_MANAGER w2
                  = mkManager (Some h2) (Some m2) (Some d2) (Some c2)
         | Some e => r = Raise e /\ MODEL_MANAGER w2 = MODEL_MANAGER w1
         end).
Proof.
  intros Hok0 Hfirst.
  destruct (get_asr_model_returns _ _ _ _ _ _ _ Hfirst) as [Hmgr Hok1].
  specialize (Hok1 Hok0).
  split.
  - intros [= -> -> ->].
    unfold get_asr_model, bind, get_manager, ret. rewrite Hmgr. cbn.
    repeat case_bool_decide; try congruence. cbn. rewrite Hmgr. reflexivity.
  - intros Hne.
    assert (Hstale :
      bool_decide (asr_model (MODEL_MANAGER w1) = None)
      || bool_decide (Some m2 ≠ model_name (MODEL_MANAGER w1))
      || bool_decide (Some d2 ≠ device (MODEL_MANAGER w1))
      || bool_decide (Some c2 ≠ compute_type (MODEL_MANAGER w1)) = true).
    { rewrite Hmgr. cbn. repeat case_bool_decide; try reflexivity. 
      exfalso. apply Hne. 
      repeat match goal with H : ¬ (_ ≠ _) |- _ => apply dec_stable in H end.
      congruence. }
    unfold get_asr_model, bind, get_manager. rewrite Hstale.
    unfold whisperx_load_model, external, record_call, lift, set_manager, ret, bind.
    destruct (load_model env m2 d2 c2) as [e|]; cbn.
    + split; [reflexivity|]. split; reflexivity.
    + split; [reflexivity|]. eexists. split; [reflexivity|]. split; [|reflexivity].
      specialize (Hok1 h1). rewrite Hmgr in Hok1. specialize (Hok1 eq_refl). lia.
Qed.

Lemma get_asr_model_cache_witness :
  let env := mkEnv (float_of 0 0) (fun _ _ => None) (fun _ _ _ => None)
    (fun _ _ _ _ _ _ => Ok (mkDocument [] None)) (fun _ _ _ => Ok (0%nat,0%nat))
    (fun s _ _ _ _ _ _ => Ok (mkDocument s None))
    (fun _ => Ok 0%nat) (fun _ _ _ _ => Ok 0%nat) (fun _ d => Ok d)
    (fun _ => Ok "{}") (fun _ => "") in
  let w1 := snd (get_asr_model env "medium" "cuda" "float16" w_init) in
  get_asr_model env "medium" "cuda" "float16" w1 = (Ok (Some 0%nat), w1)
  /\ fst (get_asr_model env "large" "cuda" "float16" w1) = Ok (Some 1%nat).
Proof.
  intros env w1.
  assert (Hok : World_ok w_init) by (intros h; discriminate).
  assert (H1 : get_asr_model env "medium" "cuda" "float16" w_init
               = (Ok (Some 0%nat), w1)) by (vm_compute; reflexivity).
  split.
  - apply (get_asr_model_cache env "medium" "cuda" "float16"
             "medium" "cuda" "float16" w_init 0%nat w1 Hok H1).
    reflexivity.
  - vm_compute. reflexivity.
Defined.

(** ** Well-formed states *)

Lemma World_ok_init : World_ok w_init.
Proof. intros h. discriminate. Qed.

Lemma keeps_ok_ret {A} (a : A) : keeps_ok (ret a).
Proof. intros w H. exact H. Qed.

Lemma keeps_ok_raise {A} (e : PyExc) : keeps_ok (@raise A e).
Proof. intros w H. exact H. Qed.

Lemma keeps_ok_lift {A} (r : Result A) : keeps_ok (lift r).
Proof. intros w H. exact H. Qed.

Lemma keeps_ok_bind {A B} (c : M A) (k : A -> M B) :
  keeps_ok c -> (forall a, keeps_ok (k a)) -> keeps_ok (bind c k).
Proof.
  intros Hc Hk w H. unfold bind. specialize (Hc w H).
  destruct (c w) as [[a|e] w1]; cbn in Hc; [apply Hk, Hc | exact Hc].
Qed.

Lemma keeps_ok_try_except {A} (c : M A) (h : PyExc -> M A) :
  keeps_ok c -> (forall e, keeps_ok (h e)) -> keeps_ok (try_except c h).
Proof.
  intros Hc Hh w H. unfold try_except. specialize (Hc w H).
  destruct (c w) as [[a|e] w1]; cbn in Hc; [exact Hc | apply Hh, Hc].
Qed.

Lemma keeps_ok_for_each {A} (body : A -> M unit) (l : list A) :
  (forall x, keeps_ok (body x)) -> keeps_ok (for_each body l).
Proof.
  intros Hb. induction l as [|x l IH]; cbn [for_each].
  - apply keeps_ok_ret.
  - apply keeps_ok_bind; auto.
Qed.

Lemma keeps_ok_external {A} (c : Call) (r : Result A) :
  keeps_ok (external c r).
Proof.
  intros w H h. unfold external, bind, record_call, lift.
  destruct r; cbn; intros Hh; apply H in Hh; rewrite length_app; lia.
Qed.

Lemma keeps_ok_mkdir env p : keeps_ok (mkdir env p).
Proof.
  intros w H. unfold mkdir.
  destruct (os_error env p mode_w); [|destruct (files w !! p)]; exact H.
Qed.

Lemma keeps_ok_open_w env p : keeps_ok (open_w env p).
Proof. intros w H. unfold open_w. destruct (os_error env p mode_w); exact H. Qed.

Lemma keeps_ok_write p s : keeps_ok (write p s).
Proof. intros w H. exact H. Qed.

Lemma keeps_ok_read_text env p : keeps_ok (read_text env p).
Proof.
  intros w H. unfold read_text.
  destruct (os_error env p mode_r); [|destruct (files w !! p)]; exact H.
Qed.

Lemma keeps_ok_get_asr_model env m d c : keeps_ok (get_asr_model env m d c).
Proof.
  intros w H. unfold get_asr_model, bind, get_manager.
  destruct (_ || _); [|exact H].
  unfold whisperx_load_model, external, bind, record_call, lift, set_manager,
    ret.
  destruct (load_model env m d c); cbn; intros h; cbn; rewrite length_app;
    cbn; [intros Hh; apply H in Hh | intros [= <-]]; lia.
Qed.

Lemma keeps_ok_json_dump env result p : keeps_ok (json_dump env result p).
Proof.
  intros w H. unfold json_dump. destruct (json_dumps env result); exact H.
Qed.

Create HintDb keeps_ok.
#[local] Hint Resolve keeps_ok_ret keeps_ok_raise keeps_ok_lift
  keeps_ok_external keeps_ok_mkdir keeps_ok_open_w keeps_ok_write
  keeps_ok_json_dump keeps_ok_read_text keeps_ok_get_asr_model : keeps_ok.

Ltac keeps_ok_tac :=
  repeat first
    [ solve [ auto with keeps_ok ]
    | apply keeps_ok_bind; [| intros ? ]
    | apply keeps_ok_try_except; [| intros ? ]
    | apply keeps_ok_for_each; intros ?
    | match goal with
      | |- keeps_ok (if ?b then _ else _) => destruct b
      | |- keeps_ok (match ?x with _ => _ end) => destruct x
      end ].

(** Every run of [transcribe_audio] leads from a well-formed state to a
    well-formed state, so the hypothesis of the cache theorem holds in every
    state a process reaches. *)
Lemma keeps_ok_transcribe_audio env a : keeps_ok (transcribe_audio env a).
Proof.
  unfold transcribe_audio, setup, run_stages, call_model, export_results,
    error_result.
  keeps_ok_tac.
Qed.

(** ** Strings and files *)

Lemma append_cons (c : ascii) (s t : string) :
  String c s +:+ t = String c (s +:+ t).
Proof. reflexivity. Qed.

Lemma append_nil_l (s : string) : "" +:+ s = s.
Proof. reflexivity. Qed.

Lemma append_nil_r (s : string) : s +:+ "" = s.
Proof.
  induction s as [|c s IH]; [reflexivity | now rewrite append_cons, IH].
Qed.

Lemma append_assoc (a b c : string) : (a +:+ b) +:+ c = a +:+ (b +:+ c).
Proof.
  induction a as [|x a IH]; [reflexivity | now rewrite !append_cons, IH].
Qed.

Lemma append_inj_l (p a b : string) : p +:+ a = p +:+ b -> a = b.
Proof.
  induction p as [|c p IH]; [auto | rewrite !append_cons; intros [= H]; auto].
Qed.

Lemma in_output_dir_inj (fp e1 e2 : string) :
  in_output_dir (fp +:+ e1) = in_output_dir (fp +:+ e2) -> e1 = e2.
Proof.
  unfold in_output_dir. intros H.
  apply append_inj_l, append_inj_l, append_inj_l in H. exact H.
Qed.

Lemma set_files_id w : set_files w (files w) = w.
Proof. destruct w; reflexivity. Qed.

Lemma for_each_cues {A} (p : string) (g : A -> Result string)
    (body : A -> M unit) (l : list A) :
  (forall x w, body x w = bind (lift (g x)) (write p) w) ->
  forall w c, files w !! p = Some c ->
  for_each body l w =
  (match snd (gather (map g l)) with None => Ok tt | Some e => Raise e end,
   set_files w (<[p := c +:+ concat_strings (fst (gather (map g l)))]> (files w))).
Proof.
  intros Hbody. induction l as [|x l IH]; intros w c Hc.
  - cbn [for_each map gather fst snd concat_strings fold_right].
    rewrite append_nil_r, insert_id by assumption.
    now rewrite set_files_id.
  - cbn [for_each map gather]. unfold bind at 1. rewrite Hbody.
    unfold bind, lift, write. destruct (g x) as [s|e]; cbn.
    + rewrite Hc. cbn.
      erewrite IH by (cbn; apply lookup_insert_eq).
      destruct (gather (map g l)) as [ss e']. cbn.
      unfold set_files. cbn. rewrite insert_insert_eq, append_assoc. reflexivity.
    + rewrite append_nil_r, insert_id by assumption. now rewrite set_files_id.
Qed.

Lemma gather_ok {A} (f : A -> string) (l : list A) :
  gather (map (fun x => Ok (f x)) l) = (map f l, None).
Proof. induction l as [|x l IH]; cbn; [reflexivity | now rewrite IH]. Qed.

Lemma for_each_write {A} (p : string) (f : A -> string) (l : list A) w c :
  files w !! p = Some c ->
  for_each (fun x => write p (f x)) l w =
  (Ok tt, set_files w (<[p := c +:+ concat_strings (map f l)]> (files w))).
Proof.
  intros Hc.
  rewrite (for_each_cues p (fun x => Ok (f x)) _ l) with (c := c);
    [| reflexivity | assumption].
  now rewrite gather_ok.
Qed.

Lemma path_ne (fp e1 e2 : string) :
  e1 <> e2 -> in_output_dir (fp +:+ e1) <> in_output_dir (fp +:+ e2).
Proof. intros Hne H. apply Hne, (in_output_dir_inj fp), H. Qed.

Lemma export_results_eval env fp d result w j :
  os_error env (in_output_dir (fp +:+ ".json")) mode_w = None ->
  json_dumps env result = Ok j ->
  os_error env (in_output_dir (fp +:+ ".txt")) mode_w = None ->
  os_error env (in_output_dir (fp +:+ ".srt")) mode_w = None ->
  snd (srt_cues d (segments result)) = None ->
  os_error env (in_output_dir (fp +:+ ".vtt")) mode_w = None ->
  snd (vtt_cues d (segments result)) = None ->
  os_error env (in_output_dir (fp +:+ ".txt")) mode_r = None ->
  export_results env fp d result w =
  (Ok (universal_newlines (txt_content d (segments result)),
       artifact_paths fp),
   set_files w (exported fp j d (segments result) (files w))).
Proof.
  intros Hj Hdump Ht Hs Hsc Hv Hvc Hr.
  unfold export_results.
  unfold bind at 1. unfold open_w at 1. rewrite Hj.
  unfold bind at 1. unfold json_dump at 1. rewrite Hdump.
  unfold write at 1. cbn [files MODEL_MANAGER calls].
  rewrite lookup_insert_eq, insert_insert_eq. cbn [default]. rewrite append_nil_l.
  unfold bind at 1. unfold open_w at 1. rewrite Ht. cbn [files MODEL_MANAGER calls].
  unfold bind at 1.
  erewrite for_each_write by (cbn [files]; apply lookup_insert_eq).
  unfold set_files; cbn [files MODEL_MANAGER calls]. rewrite insert_insert_eq, append_nil_l.
  unfold bind at 1. unfold open_w at 1. rewrite Hs. cbn [files MODEL_MANAGER calls].
  unfold bind at 1.
  erewrite (for_each_cues _ (fun '(i, segment) => srt_cue d i segment))
    by (first [ intros [i s] w0; reflexivity
              | cbn [files]; apply lookup_insert_eq ]).
  fold (srt_cues d (segments result)). rewrite Hsc.
  unfold set_files; cbn [files MODEL_MANAGER calls]. rewrite insert_insert_eq, append_nil_l.
  unfold bind at 1. unfold open_w at 1. rewrite Hv. cbn [files MODEL_MANAGER calls].
  unfold bind at 1. unfold write at 1. cbn [files MODEL_MANAGER calls].
  rewrite lookup_insert_eq, insert_insert_eq. cbn [default]. rewrite append_nil_l.
  unfold bind at 1.
  erewrite (for_each_cues _ (fun '(i, segment) => vtt_cue d segment))
    by (first [ intros [i s] w0; reflexivity
              | cbn [files]; apply lookup_insert_eq ]).
  fold (vtt_cues d (segments result)). rewrite Hvc.
  unfold set_files; cbn [files MODEL_MANAGER calls]. rewrite insert_insert_eq.
  unfold bind at 1. unfold read_text. rewrite Hr. cbn [files MODEL_MANAGER calls].
  rewrite lookup_insert_ne by (apply path_ne; discriminate).
  rewrite lookup_insert_ne by (apply path_ne; discriminate).
  rewrite lookup_insert_eq.
  reflexivity.
Qed.

Lemma export_results_inv env fp d result w r w' :
  export_results env fp d result w = (Ok r, w') ->
  exists j,
    os_error env (in_output_dir (fp +:+ ".json")) mode_w = None
    /\ json_dumps env result = Ok j
    /\ os_error env (in_output_dir (fp +:+ ".txt")) mode_w = None
    /\ os_error env (in_output_dir (fp +:+ ".srt")) mode_w = None
    /\ snd (srt_cues d (segments result)) = None
    /\ os_error env (in_output_dir (fp +:+ ".vtt")) mode_w = None
    /\ snd (vtt_cues d (segments result)) = None
    /\ os_error env (in_output_dir (fp +:+ ".txt")) mode_r = None.
Proof.
  unfold export_results.
  unfold bind at 1. unfold open_w at 1.
  destruct (os_error env (in_output_dir (fp +:+ ".json")) mode_w) eqn:Hj;
    [discriminate|].
  unfold bind at 1. unfold json_dump at 1.
  destruct (json_dumps env result) as [j|] eqn:Hdump;
    [|unfold bind, write, raise; discriminate].
  unfold write at 1. cbn [files MODEL_MANAGER calls].
  unfold bind at 1. unfold open_w at 1.
  destruct (os_error env (in_output_dir (fp +:+ ".txt")) mode_w) eqn:Ht;
    [discriminate|].
  cbn [files MODEL_MANAGER calls].
  unfold bind at 1.
  erewrite for_each_write by (cbn [files]; apply lookup_insert_eq).
  unfold set_files; cbn [files MODEL_MANAGER calls].
  unfold bind at 1. unfold open_w at 1.
  destruct (os_error env (in_output_dir (fp +:+ ".srt")) mode_w) eqn:Hs;
    [discriminate|].
  cbn [files MODEL_MANAGER calls].
  unfold bind at 1.
  erewrite (for_each_cues _ (fun '(i, segment) => srt_cue d i segment))
    by (first [ intros [i s] w0; reflexivity
              | cbn [files]; apply lookup_insert_eq ]).
  fold (srt_cues d (segments result)).
  destruct (snd (srt_cues d (segments result))) eqn:Hsc; [discriminate|].
  unfold set_files; cbn [files MODEL_MANAGER calls].
  unfold bind at 1. unfold open_w at 1.
  destruct (os_error env (in_output_dir (fp +:+ ".vtt")) mode_w) eqn:Hv;
    [discriminate|].
  cbn [files MODEL_MANAGER calls].
  unfold bind at 1. unfold write at 1. cbn [files MODEL_MANAGER calls].
  unfold bind at 1.
  erewrite (for_each_cues _ (fun '(i, segment) => vtt_cue d segment))
    by (first [ intros [i s] w0; reflexivity
              | cbn [files]; apply lookup_insert_eq ]).
  fold (vtt_cues d (segments result)).
  destruct (snd (vtt_cues d (segments result))) eqn:Hvc; [discriminate|].
  unfold set_files; cbn [files MODEL_MANAGER calls].
  unfold bind at 1. unfold read_text.
  destruct (os_error env (in_output_dir (fp +:+ ".txt")) mode_r) eqn:Hr;
    [discriminate|].
  intros _. exists j. repeat split; assumption.
Qed.

Lemma export_results_ok env fp d result w r w' :
  export_results env fp d result w = (Ok r, w') ->
  exists j,
    json_dumps env result = Ok j
    /\ snd (srt_cues d (segments result)) = None
    /\ snd (vtt_cues d (segments result)) = None
    /\ r = (universal_newlines (txt_content d (segments result)),
            artifact_paths fp)
    /\ w' = set_files w (exported fp j d (segments result) (files w)).
Proof.
  intros H.
  destruct (export_results_inv _ _ _ _ _ _ _ H)
    as (j & Hj & Hdump & Ht & Hs & Hsc & Hv & Hvc & Hr).
  rewrite (export_results_eval _ _ _ _ _ j) in H by assumption.
  injection H as <- <-. exists j. repeat split; assumption.
Qed.

(** ** The exporter on one segment *)

Lemma hello_txt : txt_content false [hello_segment] = "hello world" +:+ nl.
Proof. vm_compute. reflexivity. Qed.

Lemma hello_srt :
  srt_cues false [hello_segment]
  = (["1" +:+ nl +:+ "00:00:01,500 --> 00:00:03,750" +:+ nl
        +:+ "hello world" +:+ nl +:+ nl], None).
Proof. vm_compute. reflexivity. Qed.

Lemma hello_vtt :
  vtt_cues false [hello_segment]
  = (["00:01.500 --> 00:03.750" +:+ nl +:+ "hello world" +:+ nl +:+ nl],
     None).
Proof. vm_compute. reflexivity. Qed.

(** C1, as amended: for the document with the single segment
    [{start: 1.5, end: 3.75, text: "hello world"}] and diarization disabled,
    when no file operation and the serializer do not fail, the exporter
    returns the four paths [prefix.json], [prefix.txt], [prefix.srt],
    [prefix.vtt] of the output directory in that order, writes exactly these
    four files, the SRT file being the cue
    [1\n00:00:01,500 --> 00:00:03,750\nhello world\n\n], the VTT file the
    header [WEBVTT\n\n] followed by the cue
    [00:01.500 --> 00:03.750\nhello world\n\n] (no hour field), the text
    file [hello world\n], which is also the text returned. *)
Theorem export_hello_world env fp w lang j :
  (forall p m, os_error env p m = None) ->
  json_dumps env (mkDocument [hello_segment] lang) = Ok j ->
  export_results env fp false (mkDocument [hello_segment] lang) w =
  (Ok ("hello world" +:+ nl,
       [in_output_dir (fp +:+ ".json"); in_output_dir (fp +:+ ".txt");
        in_output_dir (fp +:+ ".srt"); in_output_dir (fp +:+ ".vtt")]),
   set_files w
     (<[in_output_dir (fp +:+ ".vtt") :=
          "WEBVTT" +:+ nl +:+ nl +:+ "00:01.500 --> 00:03.750" +:+ nl
          +:+ "hello world" +:+ nl +:+ nl]>
      (<[in_output_dir (fp +:+ ".srt") :=
           "1" +:+ nl +:+ "00:00:01,500 --> 00:00:03,750" +:+ nl
           +:+ "hello world" +:+ nl +:+ nl]>
       (<[in_output_dir (fp +:+ ".txt") := "hello world" +:+ nl]>
        (<[in_output_dir (fp +:+ ".json") := j]> (files w)))))).
Proof.
  intros Hos Hdump.
  rewrite (export_results_eval env fp false _ w j (Hos _ _) Hdump (Hos _ _)
             (Hos _ _) (f_equal snd hello_srt) (Hos _ _)
             (f_equal snd hello_vtt) (Hos _ _)).
  cbn [segments]. unfold exported, vtt_header. rewrite hello_txt, hello_srt, hello_vtt.
  reflexivity.
Qed.

Lemma export_hello_world_witness :
  fst (export_results (quiet_env (float_of 0 0) hello_document "{}")
         "transcript_1" false hello_document w_init)
  = Ok ("hello world" +:+ nl,
        ["whisperx_output/transcript_1.json";
         "whisperx_output/transcript_1.txt";
         "whisperx_output/transcript_1.srt";
         "whisperx_output/transcript_1.vtt"]).
Proof.
  exact (f_equal fst
           (export_hello_world (quiet_env (float_of 0 0) hello_document "{}")
              "transcript_1" w_init (Some "en") "{}"
              (fun _ _ => eq_refl) eq_refl)).
Defined.

(** C1, as stated, fails: the VTT file of that run does not contain the cue
    [00:00:01.500 --> 00:00:03.750\nhello world\n\n]; its timestamps have no
    hour field. *)
Lemma hello_world_vtt_has_no_hour_field :
  let w' := snd (export_results
                   (quiet_env (float_of 0 0) hello_document "{}")
                   "transcript_1" false hello_document w_init) in
  exists content,
    files w' !! "whisperx_output/transcript_1.vtt" = Some content
    /\ content = "WEBVTT" +:+ nl +:+ nl +:+ "00:01.500 --> 00:03.750" +:+ nl
                 +:+ "hello world" +:+ nl +:+ nl
    /\ contains ("00:00:01.500 --> 00:00:03.750" +:+ nl +:+ "hello world"
                 +:+ nl +:+ nl) content = false.
Proof.
  eexists. split; [vm_compute; reflexivity|].
  split; vm_compute; reflexivity.
Qed.

(** ** The record of calls *)

Lemma extends_ret {A} (a : A) : extends (ret a).
Proof. intros w. exists []. cbn. now rewrite app_nil_r. Qed.

Lemma extends_raise {A} (e : PyExc) : extends (@raise A e).
Proof. intros w. exists []. cbn. now rewrite app_nil_r. Qed.

Lemma extends_lift {A} (r : Result A) : extends (lift r).
Proof. intros w. exists []. cbn. now rewrite app_nil_r. Qed.

Lemma extends_bind {A B} (c : M A) (k : A -> M B) :
  extends c -> (forall a, extends (k a)) -> extends (bind c k).
Proof.
  intros Hc Hk w. unfold bind. destruct (Hc w) as [l Hl].
  destruct (c w) as [[a|e] w1]; cbn in Hl.
  - destruct (Hk a w1) as [l' Hl']. exists (l ++ l').
    rewrite Hl', Hl. now rewrite app_assoc.
  - exists l. exact Hl.
Qed.

Lemma extends_try_except {A} (c : M A) (h : PyExc -> M A) :
  extends c -> (forall e, extends (h e)) -> extends (try_except c h).
Proof.
  intros Hc Hh w. unfold try_except. destruct (Hc w) as [l Hl].
  destruct (c w) as [[a|e] w1]; cbn in Hl.
  - exists l. exact Hl.
  - destruct (Hh e w1) as [l' Hl']. exists (l ++ l').
    rewrite Hl', Hl. now rewrite app_assoc.
Qed.

Lemma extends_external {A} (c : Call) (r : Result A) : extends (external c r).
Proof.
  intros w. exists [c]. unfold external, bind, record_call, lift.
  destruct r; reflexivity.
Qed.

Lemma extends_for_each {A} (body : A -> M unit) (l : list A) :
  (forall x, extends (body x)) -> extends (for_each body l).
Proof.
  intros Hb. induction l as [|x l IH]; cbn [for_each].
  - apply extends_ret.
  - apply extends_bind; auto.
Qed.

Lemma extends_open_w env p : extends (open_w env p).
Proof.
  intros w. exists []. unfold open_w.
  destruct (os_error env p mode_w); cbn; now rewrite app_nil_r.
Qed.

Lemma extends_write p s : extends (write p s).
Proof. intros w. exists []. cbn. now rewrite app_nil_r. Qed.

Lemma extends_read_text env p : extends (read_text env p).
Proof.
  intros w. exists []. unfold read_text.
  destruct (os_error env p mode_r); [|destruct (files w !! p)]; cbn;
    now rewrite app_nil_r.
Qed.

Lemma extends_json_dump env result p : extends (json_dump env result p).
Proof.
  intros w. exists []. unfold json_dump.
  destruct (json_dumps env result); cbn; now rewrite app_nil_r.
Qed.

Create HintDb extends.
#[local] Hint Resolve extends_ret extends_raise extends_lift extends_external
  extends_open_w extends_write extends_json_dump extends_read_text : extends.

Ltac extends_tac :=
  repeat first
    [ solve [ auto with extends ]
    | apply extends_bind; [| intros ? ]
    | apply extends_try_except; [| intros ? ]
    | apply extends_for_each; intros ?
    | match goal with
      | |- extends (if ?b then _ else _) => destruct b
      | |- extends (match ?x with _ => _ end) => destruct x
      end ].

Lemma extends_export_results env fp d result :
  extends (export_results env fp d result).
Proof. unfold export_results. extends_tac. Qed.

#[local] Hint Resolve extends_export_results : extends.

Lemma bind_assoc {A B C} (c : M A) (k : A -> M B) (k' : B -> M C) w :
  bind (bind c k) k' w = bind c (fun x => bind (k x) k') w.
Proof. unfold bind. destruct (c w) as [[a|e] w1]; reflexivity. Qed.

Lemma calls_after_external {A B} (c : Call) (r : Result A) (k : A -> M B) w :
  (forall a, extends (k a)) ->
  exists rest, calls (snd (bind (external c r) k w)) = calls w ++ c :: rest.
Proof.
  intros Hk. unfold external, bind, record_call, lift.
  destruct r as [a|e]; cbn.
  - destruct (Hk a (mkWorld (MODEL_MANAGER w) (files w) (calls w ++ [c])))
      as [l Hl].
    exists l. rewrite Hl. cbn. now rewrite <- app_assoc.
  - exists []. reflexivity.
Qed.

(** ** Language resolution *)

Lemma strip_empty : strip "" = "".
Proof. reflexivity. Qed.

Lemma resolve_language_rule requested result :
  resolve_language requested result = language_rule requested (language result).
Proof.
  unfold resolve_language, language_rule, truthy.
  destruct requested as [l|]; [|destruct (language result); reflexivity].
  destruct (String.eqb_spec l "") as [->|Hl]; cbn [negb andb].
  - rewrite strip_empty. cbn. destruct (language result); reflexivity.
  - destruct (String.eqb (strip l) ""); destruct (language result); reflexivity.
Qed.

(** C4: in every run of the stages in which the transcription returns
    [result] and alignment is enabled, the first call after the transcription
    is the alignment loader with the language code of the rule: the
    requested language trimmed when that is not empty, otherwise the
    language of the transcription result, otherwise ["en"].  No later stage
    takes a language. *)
Theorem alignment_uses_resolved_language env a fp audio mm mn mx w result w1 :
  call_model env mm audio (Args.language a) (Args.task a)
    (Args.batch_size a) (Args.chunk_size a) w = (Ok result, w1) ->
  Args.no_align a = false ->
  (exists rest,
     calls (snd (run_stages env a fp audio mm mn mx w))
     = calls w1
       ++ call_load_align_model
            (language_rule (Args.language a) (language result))
            (Args.device a) (align_model_name a) :: rest)
  /\ (forall l, Args.language a = Some l -> strip l <> "" ->
      language_rule (Args.language a) (language result) = strip l)
  /\ ((Args.language a = None
       \/ exists l, Args.language a = Some l /\ strip l = "") ->
      (forall d, language result = Some d ->
         language_rule (Args.language a) (language result) = d)
      /\ (language result = None ->
          language_rule (Args.language a) (language result) = "en")).
Proof.
  intros Hcall Hal. split; [|split].
  - unfold run_stages. unfold bind at 1. rewrite Hcall, Hal. cbn [negb].
    cbv beta iota. rewrite bind_assoc.
    rewrite resolve_language_rule. fold (align_model_name a).
    apply calls_after_external.
    intros [am md]. extends_tac.
  - intros l -> Hl. unfold language_rule.
    destruct (String.eqb_spec (strip l) ""); congruence.
  - intros Hreq. 
    assert (Hrule : language_rule (Args.language a) (language result)
                    = match language result with Some d => d | None => "en" end).
    { unfold language_rule. destruct Hreq as [-> | (l & -> & ->)]; reflexivity. }
    rewrite Hrule. split; [intros d -> | intros ->]; reflexivity.
Qed.

Lemma alignment_uses_resolved_language_witness :
  exists rest,
    calls (snd (run_stages (quiet_env (float_of 0 0) hello_document "{}")
                  (Args.make (audio_str "a.wav") "medium" "transcribe"
                     (Some " fr ") "cuda" "float16" 16 None false "nearest"
                     false 30 false None None None)
                  "transcript_1" (audio_str "a.wav") (Some 0%nat)
                  bound_none bound_none w_init))
    = [call_transcribe 0%nat (audio_str "a.wav") (Some " fr ") "transcribe"
         16 30]
      ++ call_load_align_model "fr" "cuda" None :: rest.
Proof.
  destruct (alignment_uses_resolved_language
              (quiet_env (float_of 0 0) hello_document "{}")
              (Args.make (audio_str "a.wav") "medium" "transcribe"
                 (Some " fr ") "cuda" "float16" 16 None false "nearest"
                 false 30 false None None None)
              "transcript_1" (audio_str "a.wav") (Some 0%nat)
              bound_none bound_none w_init hello_document
              (mkWorld WhisperXManager_init ∅
                 [call_transcribe 0%nat (audio_str "a.wav") (Some " fr ")
                    "transcribe" 16 30])
              eq_refl eq_refl) as [H _].
  exact H.
Defined.

(** ** Arrows in cue text *)

(** C5 at the segment text [--->]: the replacement finds the arrow at the
    second character, writes [->] for it and keeps the dash before it, so
    the cue text is [-->]; the SRT and VTT files of the run carry that cue
    text.  A speaker label is put in front of the cue text as it is, arrows
    included. *)
Theorem cue_text_keeps_arrow_after_dash :
  replace "-->" "->" "--->" = "-->"
  /\ cue_text false dash_arrow_segment = "-->"
  /\ contains "-->" (cue_text false dash_arrow_segment) = true
  /\ (let w' := snd (export_results
                       (quiet_env (float_of 0 0) dash_arrow_document "{}")
                       "transcript_1" false dash_arrow_document w_init) in
      files w' !! "whisperx_output/transcript_1.srt"
      = Some ("1" +:+ nl +:+ "00:00:00,000 --> 00:00:01,000" +:+ nl
              +:+ "-->" +:+ nl +:+ nl)
      /\ files w' !! "whisperx_output/transcript_1.vtt"
         = Some ("WEBVTT" +:+ nl +:+ nl +:+ "00:00.000 --> 00:01.000" +:+ nl
                 +:+ "-->" +:+ nl +:+ nl))
  /\ cue_text true
       (mkSegment (float_of 0 0) (float_of 1 0) "hi" (Some "A-->B"))
     = "[A-->B]: hi".
Proof. repeat split; vm_compute; reflexivity. Qed.

(** ** The error boundary *)

Lemma bind_ok_inv {A B} (c : M A) (k : A -> M B) w b w' :
  bind c k w = (Ok b, w') ->
  exists a w1, c w = (Ok a, w1) /\ k a w1 = (Ok b, w').
Proof.
  unfold bind. destruct (c w) as [[a|e] w1]; [eauto | discriminate].
Qed.

Lemma run_stages_ok env a fp audio mm mn mx w r w' :
  run_stages env a fp audio mm mn mx w = (Ok r, w') ->
  exists result w1,
    export_results env fp (Args.diarize a) result w1 = (Ok r, w').
Proof.
  unfold run_stages. intros H.
  apply bind_ok_inv in H as (r1 & w1 & _ & H).
  apply bind_ok_inv in H as (r2 & w2 & _ & H).
  apply bind_ok_inv in H as (r3 & w3 & _ & H).
  eauto.
Qed.

(** The two nested handlers act as one handler around the whole attempt. *)
Lemma transcribe_audio_attempt env a w :
  transcribe_audio env a w =
  bind (setup env)
    (fun file_prefix => try_except (attempt env a file_prefix) error_result) w.
Proof.
  unfold transcribe_audio, attempt, bind. destruct (setup env w) as [[fp|e] w1];
    [|reflexivity].
  unfold try_except, error_result, ret, lift.
  destruct (get_asr_model env _ _ _ w1) as [[mm|e] w2]; [|reflexivity].
  destruct (parse_bound (Args.min_speakers a)); [|reflexivity].
  destruct (parse_bound (Args.max_speakers a)); [|reflexivity].
  destruct (run_stages _ _ _ _ _ _ _ w2) as [[r|e] w3]; reflexivity.
Qed.

(** ** The display text and the text file *)

Lemma universal_newlines_no_cr (s : string) :
  has_char "013" s = false -> universal_newlines s = s.
Proof.
  induction s as [|c s IH]; [reflexivity|].
  cbn [has_char universal_newlines]. intros H.
  apply orb_false_iff in H as [Hc Hs]. rewrite Hc. now rewrite IH.
Qed.

Lemma transcribe_audio_success env a w transcript output_files w' :
  transcribe_audio env a w = (Ok (transcript, output_files), w') ->
  output_files <> [] ->
  exists fp result w1,
    fst (setup env w) = Ok fp
    /\ export_results env fp (Args.diarize a) result w1
       = (Ok (transcript, output_files), w').
Proof.
  intros Hrun Hne.
  rewrite transcribe_audio_attempt in Hrun. unfold bind, try_except in Hrun.
  destruct (setup env w) as [[fp|e] w0]; [|discriminate].
  destruct (attempt env a fp w0) as [[[t fs]|e] w2] eqn:Hatt.
  - injection Hrun as -> -> ->.
    unfold attempt in Hatt.
    apply bind_ok_inv in Hatt as (mm & w3 & _ & Hatt).
    apply bind_ok_inv in Hatt as (mn & w4 & _ & Hatt).
    apply bind_ok_inv in Hatt as (mx & w5 & _ & Hatt).
    apply run_stages_ok in Hatt as (result & w6 & Hexp).
    exists fp, result, w6. split; [reflexivity | exact Hexp].
  - injection Hrun as _ <- _. congruence.
Qed.

(** C7, as amended: for every successful run, the display text returned is
    the content of the text file of that run as text mode reads it back,
    that is with every carriage return and every carriage return plus line
    feed turned into one line feed; it is equal to the content of the file
    when that content has no carriage return. *)
Theorem display_text_is_file_read_back env a w transcript output_files w' :
  transcribe_audio env a w = (Ok (transcript, output_files), w') ->
  output_files <> [] ->
  exists fp content,
    fst (setup env w) = Ok fp
    /\ output_files = artifact_paths fp
    /\ files w' !! in_output_dir (fp +:+ ".txt") = Some content
    /\ transcript = universal_newlines content
    /\ (has_char "013" content = false -> transcript = content).
Proof.
  intros Hrun Hne.
  destruct (transcribe_audio_success _ _ _ _ _ _ Hrun Hne)
    as (fp & result & w1 & Hsetup & Hexp).
  apply export_results_ok in Hexp as (j & _ & _ & _ & [= -> ->] & ->).
  exists fp, (txt_content (Args.diarize a) (segments result)).
  split; [exact Hsetup|]. split; [reflexivity|].
  split.
  - unfold set_files, exported. cbn [files].
    rewrite lookup_insert_ne by (apply path_ne; discriminate).
    rewrite lookup_insert_ne by (apply path_ne; discriminate).
    apply lookup_insert_eq.
  - split; [reflexivity | intros H; now apply universal_newlines_no_cr].
Qed.

Lemma display_text_is_file_read_back_witness :
  exists fp content,
    fst (setup (quiet_env (float_of 1700000000 0) hello_document "{}") w_init)
    = Ok fp
    /\ artifact_paths "transcript_1700000000" = artifact_paths fp
    /\ files (snd (transcribe_audio
                     (quiet_env (float_of 1700000000 0) hello_document "{}")
                     (default_args (audio_str "a.wav") true) w_init))
       !! in_output_dir (fp +:+ ".txt") = Some content
    /\ "hello world" +:+ nl = universal_newlines content
    /\ (has_char "013" content = false -> "hello world" +:+ nl = content).
Proof.
  apply (display_text_is_file_read_back
           (quiet_env (float_of 1700000000 0) hello_document "{}")
           (default_args (audio_str "a.wav") true) w_init).
  - vm_compute. reflexivity.
  - discriminate.
Defined.

(** C7, as stated, fails: for the segment text [a\rb] the text file holds
    [a\rb\n] and the display text is [a\nb\n]. *)
Lemma display_text_differs_from_file :
  let run := transcribe_audio
               (quiet_env (float_of 1700000000 0) cr_document "{}")
               (default_args (audio_str "a.wav") true) w_init in
  fst run
  = Ok ("a" +:+ nl +:+ "b" +:+ nl, artifact_paths "transcript_1700000000")
  /\ files (snd run) !! "whisperx_output/transcript_1700000000.txt"
     = Some ("a" +:+ cr +:+ "b" +:+ nl)
  /\ "a" +:+ nl +:+ "b" +:+ nl <> "a" +:+ cr +:+ "b" +:+ nl.
Proof.
  split; [vm_compute; reflexivity|].
  split; [vm_compute; reflexivity | discriminate].
Qed.

(** ** Speaker bounds *)

Lemma get_asr_model_effect env m d c w :
  let (r, w') := get_asr_model env m d c w in
  files w' = files w
  /\ ((calls w' = calls w /\ exists mm, r = Ok mm)
      \/ (calls w' = calls w ++ [call_load_model m d c]
          /\ match r with
             | Raise e => load_model env m d c = Some e
             | Ok _ => load_model env m d c = None
             end)).
Proof.
  unfold get_asr_model, bind, get_manager.
  destruct (_ || _).
  - unfold whisperx_load_model, external, bind, record_call, lift,
      set_manager, ret.
    destruct (load_model env m d c) as [e|]; cbn;
      (split; [reflexivity | right; split; reflexivity]).
  - cbn. split; [reflexivity | left; split; [reflexivity | eauto]].
Qed.

(** C8, as amended: whether or not diarization is requested, a speaker
    bound that is given and not empty is parsed by [int]: it becomes the
    integer it denotes, of either sign and zero included, and a value [int]
    rejects raises a [ValueError]; an absent or empty bound is passed on as it is.  When
    one of the two bounds is rejected the run returns an error message with
    an empty list of artifacts; by then the model cache has been consulted,
    which calls the model loader when the requested model is not resident,
    and no transcription, alignment or diarization call has been made and
    no file has been written. *)
Theorem speaker_bounds_parsed_after_model_lookup env a w fp w1 e :
  setup env w = (Ok fp, w1) ->
  (parse_bound (Args.min_speakers a) = Raise e
   \/ (exists b, parse_bound (Args.min_speakers a) = Ok b)
      /\ parse_bound (Args.max_speakers a) = Raise e) ->
  (exists e' w',
     transcribe_audio env a w = (Ok ("Error: " +:+ exc_str e', []), w')
     /\ files w' = files w1
     /\ ((e' = e /\ calls w' = calls w1)
         \/ (e' = e
             /\ load_model env (Args.model a) (Args.device a)
                  (Args.compute_type a) = None
             /\ calls w' = calls w1
                           ++ [call_load_model (Args.model a) (Args.device a)
                                 (Args.compute_type a)])
         \/ (load_model env (Args.model a) (Args.device a)
               (Args.compute_type a) = Some e'
             /\ calls w' = calls w1
                           ++ [call_load_model (Args.model a) (Args.device a)
                                 (Args.compute_type a)])))
  /\ (forall s, s <> "" ->
      parse_bound (Some s)
      = match int_of_str s with
        | Ok n => Ok (bound_int n)
        | Raise e' => Raise e'
        end)
  /\ (forall s e', int_of_str s = Raise e' -> exc_kind e' = ValueError)
  /\ parse_bound None = Ok bound_none
  /\ parse_bound (Some "") = Ok (bound_str "")
  /\ parse_bound (Some "-3") = Ok (bound_int (-3))
  /\ parse_bound (Some "0") = Ok (bound_int 0).
Proof.
  intros Hsetup Hbad. split.
  - rewrite transcribe_audio_attempt. unfold bind at 1. rewrite Hsetup.
    unfold try_except, attempt, bind, lift, error_result, ret.
    pose proof (get_asr_model_effect env (Args.model a) (Args.device a)
                  (Args.compute_type a) w1) as Heff.
    destruct (get_asr_model env _ _ _ w1) as [[mm|e'] w2].
    + destruct Heff as [Hf Hc].
      assert (Hparse :
        (let (r, w') :=
           match parse_bound (Args.min_speakers a) with
           | Ok a0 =>
               match parse_bound (Args.max_speakers a) with
               | Ok a1 =>
                   run_stages env a fp
                     match Args.audio_file a with
                     | audio_dict (Some path) => audio_str path
                     | other => other
                     end mm a0 a1 w2
               | Raise e0 => (Raise e0, w2)
               end
           | Raise e0 => (Raise e0, w2)
           end in
         match r with
         | Ok a0 => (Ok a0, w')
         | Raise e0 => (Ok ("Error: " +:+ exc_str e0, []), w')
         end) = (Ok ("Error: " +:+ exc_str e, []), w2)).
      { destruct Hbad as [-> | [[b ->] ->]]; reflexivity. }
      exists e, w2. split; [exact Hparse|]. split; [exact Hf|].
      destruct Hc as [[Hc _] | [Hc Hl]]; [left | right; left]; auto.
    + destruct Heff as [Hf [[_ [mm Hmm]] | [Hc Hl]]]; [discriminate|].
      exists e', w2. split; [reflexivity|]. split; [exact Hf|].
      right; right. auto.
  - split.
    { intros s Hs. unfold parse_bound, truthy.
      destruct (String.eqb_spec s ""); [contradiction|]. cbn [negb].
      destruct (int_of_str s); reflexivity. }
    split.
    { intros s e'. unfold int_of_str.
      destruct (int_too_long s); [intros [= <-]; reflexivity|].
      destruct (int_literal s); [discriminate | intros [= <-]; reflexivity]. }
    repeat split; vm_compute; reflexivity.
Qed.

Lemma speaker_bounds_parsed_after_model_lookup_witness :
  exists e' w',
    transcribe_audio (quiet_env (float_of 1700000000 0) hello_document "{}")
      (diarize_args None (Some "abc")) w_init
    = (Ok ("Error: " +:+ exc_str e', []), w')
    /\ files w' = ∅.
Proof.
  destruct (speaker_bounds_parsed_after_model_lookup
              (quiet_env (float_of 1700000000 0) hello_document "{}")
              (diarize_args None (Some "abc")) w_init
              "transcript_1700000000" w_init
              (mkExc ValueError
                 "invalid literal for int() with base 10: 'abc'")
              ltac:(vm_compute; reflexivity)
              ltac:(right; split; [exists bound_none|]; vm_compute; reflexivity))
    as [(e' & w' & Hrun & Hfiles & _) _].
  exists e', w'. split; assumption.
Defined.

(** C8, as stated, fails twice.  With [max_speakers = "-3"] and diarization
    requested nothing is rejected: the diarization is called with the bound
    -3, which is not positive.  With [max_speakers = "abc"] in a fresh
    process the error is returned after the model loader has been called. *)
Lemma speaker_bound_not_positive_and_loader_called_first :
  (let run := transcribe_audio
                (quiet_env (float_of 1700000000 0) hello_document "{}")
                (diarize_args None (Some "-3")) w_init in
   In (call_diarize_model 0%nat (audio_str "a.wav") bound_none
         (bound_int (-3)))
      (calls (snd run))
   /\ fst run
      = Ok ("hello world" +:+ nl, artifact_paths "transcript_1700000000")
   /\ ~ 0 < -3)
  /\ (let run := transcribe_audio
                   (quiet_env (float_of 1700000000 0) hello_document "{}")
                   (diarize_args None (Some "abc")) w_init in
      fst run
      = Ok ("Error: invalid literal for int() with base 10: 'abc'", [])
      /\ calls (snd run) = [call_load_model "medium" "cuda" "float16"]).
Proof.
  split.
  - split; [vm_compute; tauto|]. split; [vm_compute; reflexivity | lia].
  - split; vm_compute; reflexivity.
Qed.

(** ** The prefix of a run *)

(** C9 at two successive runs whose clocks read 1700000000.25 and
    1700000000.75: both get the prefix [transcript_1700000000] and return
    the same four paths; after the second run the text file of the first
    run holds the transcript of the second, and there are four files, not
    eight. *)
Theorem runs_within_one_second_collide :
  let env1 := quiet_env (float_of 6800000001 (-2)) first_document "{1}" in
  let env2 := quiet_env (float_of 6800000003 (-2)) second_document "{2}" in
  let args := default_args (audio_str "a.wav") true in
  let run1 := transcribe_audio env1 args w_init in
  let run2 := transcribe_audio env2 args (snd run1) in
  fst (setup env1 w_init) = Ok "transcript_1700000000"
  /\ fst (setup env2 (snd run1)) = Ok "transcript_1700000000"
  /\ fst run1
     = Ok ("first" +:+ nl, artifact_paths "transcript_1700000000")
  /\ fst run2
     = Ok ("second" +:+ nl, artifact_paths "transcript_1700000000")
  /\ files (snd run1) !! "whisperx_output/transcript_1700000000.txt"
     = Some ("first" +:+ nl)
  /\ files (snd run2) !! "whisperx_output/transcript_1700000000.txt"
     = Some ("second" +:+ nl)
  /\ size (files (snd run2)) = 4%nat.
Proof. repeat split; vm_compute; reflexivity. Qed.

(** ** The speaker prefix *)

Lemma gather_Forall2 {A} (g : A -> Result string) (l : list A) :
  snd (gather (map g l)) = None ->
  Forall2 (fun x c => g x = Ok c) l (fst (gather (map g l))).
Proof.
  induction l as [|x l IH]; cbn [map gather]; [constructor|].
  destruct (g x) as [c|e] eqn:Hg; [|discriminate].
  destruct (gather (map g l)) as [cs e'] eqn:Hl. cbn in *.
  intros ->. constructor; auto.
Qed.

Lemma txt_line_prefix d segment :
  txt_line d segment
  = speaker_prefix d segment +:+ strip (seg_text segment) +:+ nl.
Proof.
  unfold txt_line, speaker_prefix.
  destruct d, (seg_speaker segment); try reflexivity.
  now rewrite !append_assoc.
Qed.

Lemma cue_text_prefix d segment :
  cue_text d segment
  = speaker_prefix d segment
    +:+ replace "-->" "->" (strip (seg_text segment)).
Proof.
  unfold cue_text, speaker_prefix.
  destruct d, (seg_speaker segment); try reflexivity.
  now rewrite !append_assoc.
Qed.

Lemma srt_cue_shape d i segment cue :
  srt_cue d i segment = Ok cue ->
  exists start_time end_time,
    cue = str_int i +:+ nl +:+ start_time +:+ " --> " +:+ end_time +:+ nl
          +:+ speaker_prefix d segment
          +:+ replace "-->" "->" (strip (seg_text segment)) +:+ nl +:+ nl.
Proof.
  unfold srt_cue, rbind.
  destruct (format_timestamp (seg_start segment) true ",") as [st|];
    [|discriminate].
  destruct (format_timestamp (seg_end segment) true ",") as [en|];
    [|discriminate].
  intros [= <-]. exists st, en.
  now rewrite cue_text_prefix, !append_assoc.
Qed.

Lemma vtt_cue_shape d segment cue :
  vtt_cue d segment = Ok cue ->
  exists start_time end_time,
    cue = start_time +:+ " --> " +:+ end_time +:+ nl
          +:+ speaker_prefix d segment
          +:+ replace "-->" "->" (strip (seg_text segment)) +:+ nl +:+ nl.
Proof.
  unfold vtt_cue, rbind.
  destruct (format_timestamp (seg_start segment) false ".") as [st|];
    [|discriminate].
  destruct (format_timestamp (seg_end segment) false ".") as [en|];
    [|discriminate].
  intros [= <-]. exists st, en.
  now rewrite cue_text_prefix, !append_assoc.
Qed.

(** C10: after every successful export the text file is one line per
    segment, the SRT file one cue per segment and the VTT file the header
    and one cue per segment, in the order of the segments, and in all three
    the text of a segment is preceded by its speaker prefix: ["[speaker]: "]
    when diarization is enabled and the segment has a speaker, and nothing
    when diarization is disabled or the segment has no speaker. *)
Theorem speaker_prefix_in_every_format env fp d result w r w' :
  export_results env fp d result w = (Ok r, w') ->
  (forall segment,
     match seg_speaker segment with
     | Some speaker =>
         speaker_prefix d segment
         = if d then "[" +:+ speaker +:+ "]: " else ""
     | None => speaker_prefix d segment = ""
     end)
  /\ files w' !! in_output_dir (fp +:+ ".txt")
     = Some (concat_strings
               (map (fun segment =>
                       speaker_prefix d segment
                       +:+ strip (seg_text segment) +:+ nl)
                  (segments result)))
  /\ (exists cues,
        files w' !! in_output_dir (fp +:+ ".srt")
        = Some (concat_strings cues)
        /\ Forall2
             (fun '(i, segment) cue =>
                exists start_time end_time,
                  cue = str_int i +:+ nl +:+ start_time +:+ " --> "
                        +:+ end_time +:+ nl +:+ speaker_prefix d segment
                        +:+ replace "-->" "->" (strip (seg_text segment))
                        +:+ nl +:+ nl)
             (enumerate 1 (segments result)) cues)
  /\ (exists cues,
        files w' !! in_output_dir (fp +:+ ".vtt")
        = Some ("WEBVTT" +:+ nl +:+ nl +:+ concat_strings cues)
        /\ Forall2
             (fun segment cue =>
                exists start_time end_time,
                  cue = start_time +:+ " --> " +:+ end_time +:+ nl
                        +:+ speaker_prefix d segment
                        +:+ replace "-->" "->" (strip (seg_text segment))
                        +:+ nl +:+ nl)
             (segments result) cues).
Proof.
  intros Hexp.
  apply export_results_ok in Hexp as (j & _ & Hsrt & Hvtt & _ & ->).
  unfold set_files, exported. cbn [files].
  split; [| split; [| split]].
  - intros segment. unfold speaker_prefix.
    destruct (seg_speaker segment); reflexivity.
  - rewrite lookup_insert_ne by (apply path_ne; discriminate).
    rewrite lookup_insert_ne by (apply path_ne; discriminate).
    rewrite lookup_insert_eq. unfold txt_content. do 2 f_equal.
    apply map_ext. intros s. apply txt_line_prefix.
  - exists (fst (srt_cues d (segments result))). split.
    + rewrite lookup_insert_ne by (apply path_ne; discriminate).
      apply lookup_insert_eq.
    + apply gather_Forall2 in Hsrt.
      eapply Forall2_impl; [exact Hsrt|].
      intros [i s] c Hc. now apply srt_cue_shape.
  - exists (fst (vtt_cues d (segments result))). split.
    + rewrite lookup_insert_eq. unfold vtt_header.
      now rewrite !append_assoc.
    + apply gather_Forall2 in Hvtt.
      assert (Hen : forall (l : list Segment) n cs,
                Forall2 (fun x c => (let '(_, segment) := x in
                                       vtt_cue d segment) = Ok c)
                  (enumerate n l) cs ->
                Forall2 (fun segment c => vtt_cue d segment = Ok c) l cs).
      { induction l as [|x l IH]; cbn [enumerate]; intros n cs H;
          inversion H; subst; constructor; eauto. }
      apply Hen in Hvtt.
      eapply Forall2_impl; [exact Hvtt|].
      intros s c Hc. now apply vtt_cue_shape.
Qed.

Lemma speaker_prefix_in_every_format_witness :
  let doc := mkDocument [spoken_segment; unspoken_segment] None in
  files (snd (export_results (quiet_env (float_of 0 0) doc "{}")
                "transcript_1" true doc w_init))
    !! "whisperx_output/transcript_1.txt"
  = Some ("[SPEAKER_00]: hi" +:+ nl +:+ "there" +:+ nl).
Proof.
  intros doc.
  destruct (speaker_prefix_in_every_format
              (quiet_env (float_of 0 0) doc "{}") "transcript_1" true doc
              w_init
              ("[SPEAKER_00]: hi" +:+ nl +:+ "there" +:+ nl,
               artifact_paths "transcript_1")
              (snd (export_results (quiet_env (float_of 0 0) doc "{}")
                      "transcript_1" true doc w_init))
              ltac:(vm_compute; reflexivity))
    as (_ & Htxt & _).
  exact Htxt.
Defined.

(** ** More on the timestamp formatter *)

Lemma fge_zero x : fge x (float_of 0 0) = negb (negative_or_nan x).
Proof. destruct x as [[]|[]| |[] m e]; reflexivity. Qed.

Lemma iter_pos_shr_1_nonneg p mrs :
  0 <= shr_m mrs -> 0 <= shr_m (SpecFloat.iter_pos shr_1 p mrs).
Proof.
  assert (H1 : forall mrs, 0 <= shr_m mrs -> 0 <= shr_m (shr_1 mrs)).
  { intros [m r s] H. cbn in *. destruct m as [|[q|q|]|q]; cbn; lia. }
  revert mrs. induction p as [p IH|p IH|]; intros mrs H; cbn; auto.
Qed.

Lemma shr_fexp_nonneg m e l :
  0 <= m -> 0 <= shr_m (fst (shr_fexp prec emax m e l)).
Proof.
  intros H. unfold shr_fexp, shr.
  assert (H0 : 0 <= shr_m (shr_record_of_loc m l))
    by (destruct l as [|[]]; exact H).
  destruct (_ - e); cbn [fst]; auto. now apply iter_pos_shr_1_nonneg.
Qed.

Lemma binary_round_aux_not_nan sx mx ex lx :
  0 <= mx -> binary_round_aux prec emax sx mx ex lx <> S754_nan.
Proof.
  intros H. unfold binary_round_aux.
  pose proof (shr_fexp_nonneg mx ex lx H) as H1.
  destruct (shr_fexp prec emax mx ex lx) as [mrs' e']. cbn [fst] in H1.
  assert (H2 : 0 <= round_nearest_even (shr_m mrs') (loc_of_shr_record mrs')).
  { unfold round_nearest_even.
    destruct (loc_of_shr_record mrs') as [|[]]; try destruct (Z.even _); lia. }
  pose proof (shr_fexp_nonneg _ e' loc_Exact H2) as H3.
  destruct (shr_fexp prec emax _ e' loc_Exact) as [mrs'' e'']. cbn [fst] in H3.
  destruct (shr_m mrs''); [discriminate | | lia].
  destruct (Z.leb _ _); discriminate.
Qed.

Lemma product_not_nan x :
  negative_or_nan x = false -> fmul x (float_of 1000 0) <> S754_nan.
Proof.
  change (float_of 1000 0) with (S754_finite false 8796093022208000 (-43)).
  destruct x as [s|s| |s m e]; cbn -[binary_round_aux]; try discriminate.
  intros _. apply binary_round_aux_not_nan. lia.
Qed.

(** X1: [format_timestamp] raises [AssertionError] with the message
    "non-negative timestamp expected" exactly for a NaN, a negative number
    and minus infinity; for every other input, minus zero included, the only
    exception it can raise is the [OverflowError] of rounding an infinite
    product. *)
Theorem format_timestamp_assertion seconds always_include_hours
    decimal_marker :
  (negative_or_nan seconds = true ->
   format_timestamp seconds always_include_hours decimal_marker
   = Raise (mkExc AssertionError "non-negative timestamp expected"))
  /\ (negative_or_nan seconds = false ->
      forall e,
        format_timestamp seconds always_include_hours decimal_marker
        = Raise e ->
        exc_kind e = OverflowError
        /\ is_finite (fmul seconds (float_of 1000 0)) = false).
Proof.
  unfold format_timestamp. rewrite fge_zero. split; intros Hn; rewrite Hn.
  - reflexivity.
  - cbn [negb]. intros e.
    pose proof (product_not_nan seconds Hn) as Hnan.
    destruct (fmul seconds (float_of 1000 0)) as [s|s| |s m ex];
      cbn -[Z.pow round_half_even]; try discriminate; [|congruence].
    intros [= <-]. split; reflexivity.
Qed.

Lemma format_timestamp_assertion_witness :
  format_timestamp (float_of (-1) 0) true ","
  = Raise (mkExc AssertionError "non-negative timestamp expected")
  /\ format_timestamp (S754_zero true) false "." = Ok "00:00.000".
Proof.
  split.
  - apply (format_timestamp_assertion (float_of (-1) 0) true ",").
    reflexivity.
  - vm_compute. reflexivity.
Defined.

Lemma format_d_2_length_100 z :
  0 <= z < 100 -> String.length (format_d 2 z) = 2%nat.
Proof. apply (format_d_width_below 2 100). vm_compute. reflexivity. Qed.

(** X2: timestamps have a fixed width as long as the hours fit.  For a
    non-negative input of less than 100 hours (after rounding),
    [format_timestamp] with [always_include_hours] returns exactly
    [HH:MM:SS], the marker and [mmm]: 11 characters besides the marker, the
    colons at positions 2 and 5.  Without [always_include_hours] and below
    one hour it returns [MM:SS], the marker and [mmm]: 8 characters besides
    the marker. *)
Theorem format_timestamp_width seconds decimal_marker ms :
  fge seconds (float_of 0 0) = true ->
  round (fmul seconds (float_of 1000 0)) = Ok ms ->
  (ms < 360000000 ->
   exists hh mm ss mmm,
     format_timestamp seconds true decimal_marker
     = Ok (hh +:+ ":" +:+ mm +:+ ":" +:+ ss +:+ decimal_marker +:+ mmm)
     /\ String.length hh = 2%nat /\ String.length mm = 2%nat
     /\ String.length ss = 2%nat /\ String.length mmm = 3%nat)
  /\ (ms < 3600000 ->
      exists mm ss mmm,
        format_timestamp seconds false decimal_marker
        = Ok (mm +:+ ":" +:+ ss +:+ decimal_marker +:+ mmm)
        /\ String.length mm = 2%nat /\ String.length ss = 2%nat
        /\ String.length mmm = 3%nat).
Proof.
  intros Hge Hround.
  pose proof (round_nonneg _ _ Hge Hround) as Hms.
  split; intros Hlt.
  - destruct (format_timestamp_of_millis seconds true decimal_marker ms
                Hge Hround) as (Hf & _ & Hm & Hs & Hmm).
    cbn [orb] in Hf.
    exists (format_d 2 (ms / 3600000)), (format_d 2 (ms mod 3600000 / 60000)),
      (format_d 2 (ms mod 60000 / 1000)), (format_d 3 (ms mod 1000)).
    split; [rewrite Hf; now rewrite !append_assoc|].
    split; [apply format_d_2_length_100;
            Z.to_euclidean_division_equations; lia|].
    auto.
  - destruct (format_timestamp_of_millis seconds false decimal_marker ms
                Hge Hround) as (Hf & _ & Hm & Hs & Hmm).
    cbn [orb] in Hf.
    replace (0 <? ms / 3600000) with false in Hf
      by (symmetry; apply Z.ltb_ge; Z.to_euclidean_division_equations; lia).
    exists (format_d 2 (ms mod 3600000 / 60000)),
      (format_d 2 (ms mod 60000 / 1000)), (format_d 3 (ms mod 1000)).
    split; [rewrite Hf; reflexivity|].
    auto.
Qed.

Lemma format_timestamp_width_witness :
  exists hh mm ss mmm,
    format_timestamp (float_of 15 (-2)) true ","
    = Ok (hh +:+ ":" +:+ mm +:+ ":" +:+ ss +:+ "," +:+ mmm)
    /\ String.length hh = 2%nat /\ String.length mm = 2%nat
    /\ String.length ss = 2%nat /\ String.length mmm = 3%nat.
Proof.
  apply (format_timestamp_width (float_of 15 (-2)) "," 3750).
  - vm_compute. reflexivity.
  - vm_compute. reflexivity.
  - lia.
Defined.

Lemma format_timestamp_ok_flags seconds a1 m1 a2 m2 :
  (exists s, format_timestamp seconds a1 m1 = Ok s) ->
  exists s, format_timestamp seconds a2 m2 = Ok s.
Proof.
  unfold format_timestamp.
  destruct (negb (fge seconds (float_of 0 0))); [intros [s H]; discriminate|].
  destruct (round (fmul seconds (float_of 1000 0))); cbn [rbind];
    [eauto | intros [s H]; discriminate].
Qed.

Lemma srt_cue_ok_iff d i segment :
  (exists c, srt_cue d i segment = Ok c)
  <-> (exists s, format_timestamp (seg_start segment) true "," = Ok s)
      /\ (exists s, format_timestamp (seg_end segment) true "," = Ok s).
Proof.
  unfold srt_cue, rbind.
  destruct (format_timestamp (seg_start segment) true ",");
    destruct (format_timestamp (seg_end segment) true ",");
    split; try (intros [c H]; discriminate);
    try (intros [[s H] [s' H']]; discriminate); eauto.
Qed.

Lemma vtt_cue_ok_iff d segment :
  (exists c, vtt_cue d segment = Ok c)
  <-> (exists s, format_timestamp (seg_start segment) false "." = Ok s)
      /\ (exists s, format_timestamp (seg_end segment) false "." = Ok s).
Proof.
  unfold vtt_cue, rbind.
  destruct (format_timestamp (seg_start segment) false ".");
    destruct (format_timestamp (seg_end segment) false ".");
    split; try (intros [c H]; discriminate);
    try (intros [[s H] [s' H']]; discriminate); eauto.
Qed.

Lemma gather_none_iff {A} (g : A -> Result string) (l : list A) :
  snd (gather (map g l)) = None <-> Forall (fun x => exists c, g x = Ok c) l.
Proof.
  induction l as [|x l IH]; cbn [map gather].
  - split; [constructor | reflexivity].
  - destruct (g x) as [c|e] eqn:Hg.
    + destruct (gather (map g l)) as [cs e']. cbn [snd] in *.
      rewrite IH. split.
      * intros H. constructor; eauto.
      * intros H. now inversion H.
    + split; [discriminate|]. intros H. inversion H as [|? ? [c Hc] ?].
      congruence.
Qed.

Lemma srt_loop_formattable d segs n :
  Forall (fun x : Z * Segment =>
            exists c, (let '(i, segment) := x in srt_cue d i segment) = Ok c)
    (enumerate n segs)
  <-> Forall formattable segs.
Proof.
  revert n. induction segs as [|s segs IH]; intros n; cbn [enumerate].
  - split; constructor.
  - rewrite !Forall_cons, IH, srt_cue_ok_iff. reflexivity.
Qed.

Lemma vtt_loop_formattable d segs n :
  Forall (fun x : Z * Segment =>
            exists c, (let '(i, segment) := x in vtt_cue d segment) = Ok c)
    (enumerate n segs)
  <-> Forall formattable segs.
Proof.
  revert n. induction segs as [|s segs IH]; intros n; cbn [enumerate].
  - split; constructor.
  - rewrite !Forall_cons, IH, vtt_cue_ok_iff. unfold formattable.
    split; intros [[H1 H2] H]; (split; [split|exact H]);
      eapply format_timestamp_ok_flags; eassumption.
Qed.

(** X3: whether a timestamp can be formatted depends on the number alone,
    not on the style, so the two subtitle loops fail on the same documents:
    each completes exactly when the start and the end of every segment can
    be formatted, whatever the diarization flag.  An export that has written
    the whole SRT file cannot fail on a timestamp any more. *)
Theorem vtt_loop_succeeds_iff_srt_loop d d' segs :
  (snd (srt_cues d segs) = None <-> Forall formattable segs)
  /\ (snd (vtt_cues d' segs) = None <-> Forall formattable segs)
  /\ (snd (srt_cues d segs) = None <-> snd (vtt_cues d' segs) = None).
Proof.
  assert (Hs : snd (srt_cues d segs) = None <-> Forall formattable segs).
  { unfold srt_cues. rewrite gather_none_iff. apply srt_loop_formattable. }
  assert (Hv : snd (vtt_cues d' segs) = None <-> Forall formattable segs).
  { unfold vtt_cues. rewrite gather_none_iff. apply vtt_loop_formattable. }
  split; [exact Hs|]. split; [exact Hv|]. rewrite Hs, Hv. reflexivity.
Qed.

(** ** More on the model cache *)

Lemma get_asr_model_hit env w h m d c :
  resident w h m d c -> get_asr_model env m d c w = (Ok (Some h), w).
Proof.
  unfold resident. intros H.
  unfold get_asr_model, bind, get_manager, ret. rewrite H. cbn.
  repeat case_bool_decide; try congruence. cbn. rewrite H. reflexivity.
Qed.

Lemma get_asr_model_miss env w m d c :
  asr_model (MODEL_MANAGER w) = None
  \/ (model_name (MODEL_MANAGER w), device (MODEL_MANAGER w),
      compute_type (MODEL_MANAGER w)) <> (Some m, Some d, Some c) ->
  get_asr_model env m d c w =
  match load_model env m d c with
  | Some e =>
      (Raise e,
       mkWorld (MODEL_MANAGER w) (files w) (calls w ++ [call_load_model m d c]))
  | None =>
      (Ok (Some (length (calls w))),
       mkWorld (mkManager (Some (length (calls w))) (Some m) (Some d) (Some c))
         (files w) (calls w ++ [call_load_model m d c]))
  end.
Proof.
  intros Hstale.
  assert (Hb :
    bool_decide (asr_model (MODEL_MANAGER w) = None)
    || bool_decide (Some m ≠ model_name (MODEL_MANAGER w))
    || bool_decide (Some d ≠ device (MODEL_MANAGER w))
    || bool_decide (Some c ≠ compute_type (MODEL_MANAGER w)) = true).
  { repeat case_bool_decide; try reflexivity. exfalso.
    repeat match goal with H : ¬ (_ ≠ _) |- _ => apply dec_stable in H end.
    destruct Hstale as [Hs|Hs]; [contradiction | apply Hs; congruence]. }
  unfold get_asr_model, bind, get_manager. rewrite Hb.
  unfold whisperx_load_model, external, record_call, lift, set_manager, ret,
    bind.
  destruct (load_model env m d c); reflexivity.
Qed.

(** X4: a failing load leaves the cache as it was.  When a model is
    resident and a request for another key makes the loader raise, the
    exception leaves [get_asr_model], no file is touched, the old handle
    stays resident under its old key, and a following request for the old
    key is served from the cache without a loader call. *)
Theorem failed_load_keeps_resident_model env w h1 m1 d1 c1 m2 d2 c2 e :
  resident w h1 m1 d1 c1 ->
  (m2, d2, c2) <> (m1, d1, c1) ->
  load_model env m2 d2 c2 = Some e ->
  let (r, w') := get_asr_model env m2 d2 c2 w in
  r = Raise e
  /\ resident w' h1 m1 d1 c1
  /\ files w' = files w
  /\ calls w' = calls w ++ [call_load_model m2 d2 c2]
  /\ get_asr_model env m1 d1 c1 w' = (Ok (Some h1), w').
Proof.
  intros Hres Hne Hload.
  rewrite get_asr_model_miss, Hload.
  - repeat split; try exact Hres. now apply get_asr_model_hit.
  - right. rewrite Hres. cbn. congruence.
Qed.

Lemma failed_load_keeps_resident_model_witness :
  let env := mkEnv (float_of 0 0) (fun _ _ => None)
    (fun m _ _ => if String.eqb m "large"
                  then Some (mkExc RuntimeError "out of memory") else None)
    (fun _ _ _ _ _ _ => Ok hello_document) (fun _ _ _ => Ok (0%nat, 0%nat))
    (fun s _ _ _ _ _ _ => Ok (mkDocument s None))
    (fun _ => Ok 0%nat) (fun _ _ _ _ => Ok 0%nat) (fun _ d => Ok d)
    (fun _ => Ok "{}") (fun _ => "") in
  let w1 := snd (get_asr_model env "medium" "cuda" "float16" w_init) in
  let (r, w') := get_asr_model env "large" "cuda" "float16" w1 in
  r = Raise (mkExc RuntimeError "out of memory")
  /\ resident w' 0%nat "medium" "cuda" "float16"
  /\ files w' = files w1
  /\ calls w' = calls w1 ++ [call_load_model "large" "cuda" "float16"]
  /\ get_asr_model env "medium" "cuda" "float16" w' = (Ok (Some 0%nat), w').
Proof.
  intros env w1.
  apply (failed_load_keeps_resident_model env w1 0%nat "medium" "cuda"
           "float16" "large" "cuda" "float16").
  - reflexivity.
  - discriminate.
  - reflexivity.
Defined.

(** X5: the cache holds one model and remembers nothing else.  With [h1]
    resident under one key, a request for a second key and then again for
    the first one calls the loader twice (when it succeeds both times): the
    handle returned for the first key the second time is a new one, neither
    [h1] nor the handle of the second key. *)
Theorem cache_has_capacity_one env w h1 m1 d1 c1 m2 d2 c2 :
  World_ok w ->
  resident w h1 m1 d1 c1 ->
  (m2, d2, c2) <> (m1, d1, c1) ->
  load_model env m2 d2 c2 = None ->
  load_model env m1 d1 c1 = None ->
  let (r2, w2) := get_asr_model env m2 d2 c2 w in
  let (r3, w3) := get_asr_model env m1 d1 c1 w2 in
  exists h2 h3,
    r2 = Ok (Some h2) /\ r3 = Ok (Some h3)
    /\ h2 <> h1 /\ h3 <> h1 /\ h3 <> h2
    /\ resident w3 h3 m1 d1 c1
    /\ calls w3 = calls w ++ [call_load_model m2 d2 c2;
                              call_load_model m1 d1 c1].
Proof.
  intros Hok Hres Hne H2 H1.
  rewrite get_asr_model_miss, H2 by (right; rewrite Hres; cbn; congruence).
  rewrite get_asr_model_miss by (right; cbn; congruence).
  rewrite H1. cbn [calls].
  exists (length (calls w)), (length (calls w ++ [call_load_model m2 d2 c2])).
  specialize (Hok h1). rewrite Hres in Hok. specialize (Hok eq_refl).
  rewrite length_app. cbn [length].
  repeat split; try lia. now rewrite <- app_assoc.
Qed.

Lemma cache_has_capacity_one_witness :
  let env := quiet_env (float_of 0 0) hello_document "{}" in
  let w1 := snd (get_asr_model env "medium" "cuda" "float16" w_init) in
  let (r2, w2) := get_asr_model env "large" "cuda" "float16" w1 in
  let (r3, w3) := get_asr_model env "medium" "cuda" "float16" w2 in
  exists h2 h3,
    r2 = Ok (Some h2) /\ r3 = Ok (Some h3)
    /\ h2 <> 0%nat /\ h3 <> 0%nat /\ h3 <> h2
    /\ resident w3 h3 "medium" "cuda" "float16"
    /\ calls w3 = calls w1 ++ [call_load_model "large" "cuda" "float16";
                               call_load_model "medium" "cuda" "float16"].
Proof.
  intros env w1.
  apply (cache_has_capacity_one env w1 0%nat "medium" "cuda" "float16"
           "large" "cuda" "float16").
  - intros h [= <-]. cbn. lia.
  - reflexivity.
  - discriminate.
  - reflexivity.
  - reflexivity.
Defined.

(** ** Successful runs *)

Lemma external_ok_inv {A} (c : Call) (r : Result A) w a w' :
  external c r w = (Ok a, w') ->
  r = Ok a /\ w' = mkWorld (MODEL_MANAGER w) (files w) (calls w ++ [c]).
Proof.
  unfold external, bind, record_call, lift.
  destruct r; [intros [= <- <-]; auto | discriminate].
Qed.

Lemma get_asr_model_ok_inv env m d c w mm w' :
  get_asr_model env m d c w = (Ok mm, w') ->
  exists h,
    mm = Some h /\ resident w' h m d c /\ files w' = files w
    /\ ((calls w' = calls w /\ resident w h m d c)
        \/ (calls w' = calls w ++ [call_load_model m d c]
            /\ load_model env m d c = None
            /\ forall h0, ~ resident w h0 m d c)).
Proof.
  destruct (decide (asr_model (MODEL_MANAGER w) = None
                    \/ (model_name (MODEL_MANAGER w),
                        device (MODEL_MANAGER w),
                        compute_type (MODEL_MANAGER w))
                       <> (Some m, Some d, Some c))) as [Hs|Hs].
  - rewrite get_asr_model_miss by exact Hs.
    destruct (load_model env m d c) eqn:Hl; [discriminate|].
    intros [= <- <-]. eexists. split; [reflexivity|].
    split; [reflexivity|]. split; [reflexivity|]. right.
    split; [reflexivity|]. split; [reflexivity|].
    intros h0 Hr. unfold resident in Hr. rewrite Hr in Hs. cbn in Hs.
    destruct Hs as [Hs|Hs]; [discriminate | now apply Hs].
  - assert (Hres : exists h, resident w h m d c).
    { unfold resident. destruct (MODEL_MANAGER w) as [[h|] mn dv ct]; cbn in *.
      - exists h. destruct (decide ((mn, dv, ct) = (Some m, Some d, Some c)))
          as [[= -> -> ->]|Hne]; [reflexivity|]. exfalso. apply Hs. auto.
      - exfalso. apply Hs. auto. }
    destruct Hres as [h Hres]. rewrite (get_asr_model_hit _ _ _ _ _ _ Hres).
    intros [= <- <-]. exists h. repeat split; auto.
Qed.

Lemma call_model_ok_inv env mm audio lang task bs cs w r w' :
  call_model env mm audio lang task bs cs w = (Ok r, w') ->
  exists h,
    mm = Some h /\ transcribe env h audio lang task bs cs = Ok r
    /\ w' = mkWorld (MODEL_MANAGER w) (files w)
              (calls w ++ [call_transcribe h audio lang task bs cs]).
Proof.
  unfold call_model. destruct mm as [h|]; [|discriminate].
  intros H. apply external_ok_inv in H as [H1 H2]. eauto.
Qed.

Lemma align_stage_ok_inv env a audio (r0 : Document) w r1 w' :
  (if negb (Args.no_align a) then
     let detected_language := resolve_language (Args.language a) r0 in
     let model_name :=
       match Args.align_model a with
       | Some am => if truthy am && truthy (strip am) then Some am else None
       | None => None
       end in
     let* '(alignment_model, align_metadata) :=
       external
         (call_load_align_model detected_language (Args.device a) model_name)
         (load_align_model env detected_language (Args.device a) model_name) in
     external
       (call_align (segments r0) alignment_model align_metadata
          audio (Args.device a) (Args.return_char_alignments a)
          (Args.interpolate_method a))
       (align env (segments r0) alignment_model align_metadata
          audio (Args.device a) (Args.return_char_alignments a)
          (Args.interpolate_method a))
   else ret r0) w = (Ok r1, w') ->
  exists l,
    w' = mkWorld (MODEL_MANAGER w) (files w) (calls w ++ l)
    /\ ((Args.no_align a = true /\ l = [] /\ r1 = r0)
        \/ (Args.no_align a = false
            /\ exists am md,
                 load_align_model env
                   (language_rule (Args.language a) (language r0))
                   (Args.device a) (align_model_name a) = Ok (am, md)
                 /\ align env (segments r0) am md audio (Args.device a)
                      (Args.return_char_alignments a)
                      (Args.interpolate_method a) = Ok r1
                 /\ l = [call_load_align_model
                           (language_rule (Args.language a) (language r0))
                           (Args.device a) (align_model_name a);
                         call_align (segments r0) am md audio (Args.device a)
                           (Args.return_char_alignments a)
                           (Args.interpolate_method a)])).
Proof.
  destruct (Args.no_align a); cbn [negb].
  - intros [= <- <-]. exists []. rewrite app_nil_r. destruct w; cbn. auto.
  - cbv zeta. rewrite resolve_language_rule. fold (align_model_name a).
    intros H. apply bind_ok_inv in H as ([am md] & w1 & H1 & H2).
    apply external_ok_inv in H1 as [H1 ->].
    apply external_ok_inv in H2 as [H2 ->]. cbn [MODEL_MANAGER files calls].
    eexists. split; [rewrite <- app_assoc; reflexivity|].
    right. split; [reflexivity|]. exists am, md. auto.
Qed.

Lemma diarize_stage_ok_inv env a audio mn mx (r1 : Document) w r2 w' :
  (if Args.diarize a then
     let* diarize_model' :=
       external (call_DiarizationPipeline (Args.device a))
         (DiarizationPipeline env (Args.device a)) in
     let* diarize_segments :=
       external (call_diarize_model diarize_model' audio mn mx)
         (diarize_model env diarize_model' audio mn mx) in
     external (call_assign_word_speakers diarize_segments r1)
       (assign_word_speakers env diarize_segments r1)
   else ret r1) w = (Ok r2, w') ->
  exists l,
    w' = mkWorld (MODEL_MANAGER w) (files w) (calls w ++ l)
    /\ ((Args.diarize a = false /\ l = [] /\ r2 = r1)
        \/ (Args.diarize a = true
            /\ exists dm ds,
                 DiarizationPipeline env (Args.device a) = Ok dm
                 /\ diarize_model env dm audio mn mx = Ok ds
                 /\ assign_word_speakers env ds r1 = Ok r2
                 /\ l = [call_DiarizationPipeline (Args.device a);
                         call_diarize_model dm audio mn mx;
                         call_assign_word_speakers ds r1])).
Proof.
  destruct (Args.diarize a).
  - intros H. apply bind_ok_inv in H as (dm & w1 & H1 & H).
    apply bind_ok_inv in H as (ds & w2 & H2 & H3).
    apply external_ok_inv in H1 as [H1 ->].
    apply external_ok_inv in H2 as [H2 ->].
    apply external_ok_inv in H3 as [H3 ->]. cbn [MODEL_MANAGER files calls].
    eexists. split; [rewrite <- !app_assoc; reflexivity|].
    right. split; [reflexivity|]. exists dm, ds. auto.
  - intros [= <- <-]. exists []. rewrite app_nil_r. destruct w; cbn. auto.
Qed.

Lemma setup_state env w : snd (setup env w) = w.
Proof.
  unfold setup, bind, mkdir, lift, ret.
  destruct (os_error env output_dir mode_w); [reflexivity|].
  destruct (files w !! output_dir); [reflexivity|].
  destruct (int_of_float (time_time env)); reflexivity.
Qed.

Lemma run_success_inv env a w t fs w' :
  transcribe_audio env a w = (Ok (t, fs), w') ->
  fs <> [] ->
  exists fp h mn mx r0 r1 r2 j ll la ld,
    setup env w = (Ok fp, w)
    /\ parse_bound (Args.min_speakers a) = Ok mn
    /\ parse_bound (Args.max_speakers a) = Ok mx
    /\ lookup_step env a w h ll
    /\ transcribe env h (audio_path_of a) (Args.language a) (Args.task a)
         (Args.batch_size a) (Args.chunk_size a) = Ok r0
    /\ align_step env a r0 r1 la
    /\ diarize_step env a mn mx r1 r2 ld
    /\ json_dumps env r2 = Ok j
    /\ t = universal_newlines (txt_content (Args.diarize a) (segments r2))
    /\ fs = artifact_paths fp
    /\ files w' = exported fp j (Args.diarize a) (segments r2) (files w)
    /\ resident w' h (Args.model a) (Args.device a) (Args.compute_type a)
    /\ calls w'
       = calls w ++ ll
         ++ [call_transcribe h (audio_path_of a) (Args.language a)
               (Args.task a) (Args.batch_size a) (Args.chunk_size a)]
         ++ la ++ ld.
Proof.
  intros Hrun Hne.
  rewrite transcribe_audio_attempt in Hrun. unfold bind, try_except in Hrun.
  pose proof (setup_state env w) as Hst.
  destruct (setup env w) as [[fp|e] w0]; [|discriminate]. cbn in Hst. subst w0.
  destruct (attempt env a fp w) as [[[t' fs']|e] w2] eqn:Hatt;
    [|injection Hrun as _ <- _; congruence].
  injection Hrun as -> -> ->.
  unfold attempt in Hatt. fold (audio_path_of a) in Hatt.
  apply bind_ok_inv in Hatt as (mm & w3 & Hget & Hatt).
  apply bind_ok_inv in Hatt as (mn & w4 & Hmn & Hatt).
  apply bind_ok_inv in Hatt as (mx & w5 & Hmx & Hatt).
  unfold lift in Hmn, Hmx. injection Hmn as Hmn <-. injection Hmx as Hmx <-.
  apply get_asr_model_ok_inv in Hget as (h & -> & Hres & Hfiles & Hcalls).
  unfold run_stages in Hatt.
  apply bind_ok_inv in Hatt as (r0 & w6 & Hcall & Hatt).
  apply bind_ok_inv in Hatt as (r1 & w7 & Hal & Hatt).
  apply bind_ok_inv in Hatt as (r2 & w8 & Hdi & Hexp).
  apply call_model_ok_inv in Hcall as (h' & [= <-] & Htr & ->).
  apply align_stage_ok_inv in Hal as (la & -> & Hla).
  apply diarize_stage_ok_inv in Hdi as (ld & -> & Hld).
  apply export_results_ok in Hexp as (j & Hj & _ & _ & [= -> ->] & ->).
  cbn [MODEL_MANAGER files calls set_files] in *.
  destruct Hcalls as [[Hc Hr]|(Hc & Hl & Hnr)].
  - exists fp, h, mn, mx, r0, r1, r2, j, [], la, ld.
    rewrite Hfiles, Hc.
    repeat split; auto; [left; auto|].
    cbn [app]. now rewrite <- !app_assoc.
  - exists fp, h, mn, mx, r0, r1, r2, j,
      [call_load_model (Args.model a) (Args.device a) (Args.compute_type a)],
      la, ld.
    rewrite Hfiles, Hc.
    repeat split; auto; [right; auto|].
    cbn [app]. now rewrite <- !app_assoc.
Qed.

(** X6: the calls of a successful run, in order.  A run that returns
    artifacts has made, after the calls already on record: at most one model
    loader call, made only when the requested model was not resident; one
    transcription call on the resident handle with the audio path, the
    language as given, the task, the batch size and the chunk size; then,
    unless alignment is skipped, the alignment loader and the aligner on the
    segments of the transcription; then, if diarization is requested, the
    diarization pipeline, the diarization with the two parsed bounds, and
    the speaker assignment on the document of the previous stage; and
    nothing else. *)
Theorem successful_run_calls_in_order env a w t fs w' :
  transcribe_audio env a w = (Ok (t, fs), w') ->
  fs <> [] ->
  exists h mn mx r0 r1 r2 ll la ld,
    calls w'
    = calls w ++ ll
      ++ [call_transcribe h (audio_path_of a) (Args.language a)
            (Args.task a) (Args.batch_size a) (Args.chunk_size a)]
      ++ la ++ ld
    /\ lookup_step env a w h ll
    /\ transcribe env h (audio_path_of a) (Args.language a) (Args.task a)
         (Args.batch_size a) (Args.chunk_size a) = Ok r0
    /\ align_step env a r0 r1 la
    /\ parse_bound (Args.min_speakers a) = Ok mn
    /\ parse_bound (Args.max_speakers a) = Ok mx
    /\ diarize_step env a mn mx r1 r2 ld.
Proof.
  intros Hrun Hne.
  destruct (run_success_inv _ _ _ _ _ _ Hrun Hne)
    as (fp & h & mn & mx & r0 & r1 & r2 & j & ll & la & ld & _ & Hmn & Hmx
        & Hll & Htr & Hla & Hld & _ & _ & _ & _ & _ & Hcalls).
  exists h, mn, mx, r0, r1, r2, ll, la, ld. repeat split; assumption.
Qed.

Lemma successful_run_calls_in_order_witness :
  let env := quiet_env (float_of 1700000000 0) hello_document "{}" in
  let a := diarize_args (Some "2") None in
  exists h mn mx r0 r1 r2 ll la ld,
    calls (snd (transcribe_audio env a w_init))
    = calls w_init ++ ll
      ++ [call_transcribe h (audio_path_of a) (Args.language a)
            (Args.task a) (Args.batch_size a) (Args.chunk_size a)]
      ++ la ++ ld
    /\ lookup_step env a w_init h ll
    /\ transcribe env h (audio_path_of a) (Args.language a) (Args.task a)
         (Args.batch_size a) (Args.chunk_size a) = Ok r0
    /\ align_step env a r0 r1 la
    /\ parse_bound (Args.min_speakers a) = Ok mn
    /\ parse_bound (Args.max_speakers a) = Ok mx
    /\ diarize_step env a mn mx r1 r2 ld.
Proof.
  intros env a.
  apply (successful_run_calls_in_order env a w_init
           ("hello world" +:+ nl) (artifact_paths "transcript_1700000000")).
  - vm_compute. reflexivity.
  - discriminate.
Defined.

(** X7: skipped stages leave the document alone.  When alignment is
    skipped and diarization is not requested, a successful run makes no
    call after the transcription, and the four artifacts and the transcript
    are rendered from the result of the transcription itself. *)
Theorem skipped_stages_export_transcription env a w t fs w' :
  transcribe_audio env a w = (Ok (t, fs), w') ->
  fs <> [] ->
  Args.no_align a = true ->
  Args.diarize a = false ->
  exists fp h r0 j ll,
    fst (setup env w) = Ok fp
    /\ transcribe env h (audio_path_of a) (Args.language a) (Args.task a)
         (Args.batch_size a) (Args.chunk_size a) = Ok r0
    /\ json_dumps env r0 = Ok j
    /\ files w' = exported fp j false (segments r0) (files w)
    /\ t = universal_newlines (txt_content false (segments r0))
    /\ lookup_step env a w h ll
    /\ calls w'
       = calls w ++ ll
         ++ [call_transcribe h (audio_path_of a) (Args.language a)
               (Args.task a) (Args.batch_size a) (Args.chunk_size a)].
Proof.
  intros Hrun Hne Hna Hnd.
  destruct (run_success_inv _ _ _ _ _ _ Hrun Hne)
    as (fp & h & mn & mx & r0 & r1 & r2 & j & ll & la & ld & Hsetup & _ & _
        & Hll & Htr & Hla & Hld & Hj & Ht & _ & Hfiles & _ & Hcalls).
  destruct Hla as [(_ & -> & ->)|[Hna' _]]; [|congruence].
  destruct Hld as [(_ & -> & ->)|[Hnd' _]]; [|congruence].
  rewrite Hnd in *. rewrite !app_nil_r in Hcalls.
  exists fp, h, r0, j, ll. rewrite Hsetup. repeat split; assumption.
Qed.

Lemma skipped_stages_export_transcription_witness :
  let env := quiet_env (float_of 1700000000 0) hello_document "{}" in
  let a := default_args (audio_str "a.wav") true in
  exists fp h r0 j ll,
    fst (setup env w_init) = Ok fp
    /\ transcribe env h (audio_path_of a) (Args.language a) (Args.task a)
         (Args.batch_size a) (Args.chunk_size a) = Ok r0
    /\ json_dumps env r0 = Ok j
    /\ files (snd (transcribe_audio env a w_init))
       = exported fp j false (segments r0) (files w_init)
    /\ "hello world" +:+ nl
       = universal_newlines (txt_content false (segments r0))
    /\ lookup_step env a w_init h ll
    /\ calls (snd (transcribe_audio env a w_init))
       = calls w_init ++ ll
         ++ [call_transcribe h (audio_path_of a) (Args.language a)
               (Args.task a) (Args.batch_size a) (Args.chunk_size a)].
Proof.
  intros env a.
  apply (skipped_stages_export_transcription env a w_init
           ("hello world" +:+ nl) (artifact_paths "transcript_1700000000")).
  - vm_compute. reflexivity.
  - discriminate.
  - reflexivity.
  - reflexivity.
Defined.

(** X8: the model loaded by one run serves the next.  After a successful
    run the handle it transcribed with is resident under the run's model,
    device and compute type; a following successful run that asks for the
    same three, in whatever environment and with whatever other arguments,
    calls no model loader and transcribes with that same handle. *)
Theorem next_run_reuses_model env1 a1 w t1 fs1 w1 env2 a2 t2 fs2 w2 :
  transcribe_audio env1 a1 w = (Ok (t1, fs1), w1) ->
  fs1 <> [] ->
  transcribe_audio env2 a2 w1 = (Ok (t2, fs2), w2) ->
  fs2 <> [] ->
  (Args.model a2, Args.device a2, Args.compute_type a2)
  = (Args.model a1, Args.device a1, Args.compute_type a1) ->
  exists h rest,
    resident w1 h (Args.model a1) (Args.device a1) (Args.compute_type a1)
    /\ resident w2 h (Args.model a1) (Args.device a1) (Args.compute_type a1)
    /\ calls w2
       = calls w1
         ++ call_transcribe h (audio_path_of a2) (Args.language a2)
              (Args.task a2) (Args.batch_size a2) (Args.chunk_size a2)
            :: rest
    /\ Forall (fun c => match c with
                       | call_load_model _ _ _ => False
                       | _ => True
                       end) rest.
Proof.
  intros Hrun1 Hne1 Hrun2 Hne2 [= Hm Hd Hc].
  destruct (run_success_inv _ _ _ _ _ _ Hrun1 Hne1)
    as (fp & h & mn & mx & r0 & r1 & r2 & j & ll & la & ld & _ & _ & _
        & _ & _ & _ & _ & _ & _ & _ & _ & Hres1 & _).
  destruct (run_success_inv _ _ _ _ _ _ Hrun2 Hne2)
    as (fp' & h' & mn' & mx' & r0' & r1' & r2' & j' & ll' & la' & ld' & _ & _
        & _ & Hll & _ & Hla & Hld & _ & _ & _ & _ & Hres2 & Hcalls).
  unfold lookup_step in Hll. rewrite Hm, Hd, Hc in Hll, Hres2.
  destruct Hll as [[Hhit ->]|[Hmiss _]]; [|exfalso; exact (Hmiss h Hres1)].
  assert (h' = h) as -> by (unfold resident in *; congruence).
  exists h, (la' ++ ld'). split; [exact Hres1|]. split; [exact Hres2|].
  split; [exact Hcalls|].
  apply Forall_app. split.
  - destruct Hla as [(_ & -> & _)|(_ & am & md & _ & _ & ->)];
      repeat constructor.
  - destruct Hld as [(_ & -> & _)|(_ & dm & ds & _ & _ & _ & ->)];
      repeat constructor.
Qed.

Lemma next_run_reuses_model_witness :
  let env1 := quiet_env (float_of 1700000000 0) first_document "{1}" in
  let env2 := quiet_env (float_of 1700000060 0) second_document "{2}" in
  let a := default_args (audio_str "a.wav") true in
  let w1 := snd (transcribe_audio env1 a w_init) in
  let w2 := snd (transcribe_audio env2 a w1) in
  exists h rest,
    resident w1 h (Args.model a) (Args.device a) (Args.compute_type a)
    /\ resident w2 h (Args.model a) (Args.device a) (Args.compute_type a)
    /\ calls w2
       = calls w1
         ++ call_transcribe h (audio_path_of a) (Args.language a)
              (Args.task a) (Args.batch_size a) (Args.chunk_size a)
            :: rest
    /\ Forall (fun c => match c with
                       | call_load_model _ _ _ => False
                       | _ => True
                       end) rest.
Proof.
  intros env1 env2 a w1 w2.
  apply (next_run_reuses_model env1 a w_init ("first" +:+ nl)
           (artifact_paths "transcript_1700000000") w1 env2 a
           ("second" +:+ nl) (artifact_paths "transcript_1700000060") w2).
  - vm_compute. reflexivity.
  - discriminate.
  - vm_compute. reflexivity.
  - discriminate.
  - reflexivity.
Defined.

(** ** What a run may touch *)

Section Confined.
Variable P : Call -> Prop.
Variable ps : list string.

Lemma confined_pure {A} (r : Result A) : confined P ps (lift r).
Proof.
  intros w. split; [exists []; cbn; now rewrite app_nil_r | reflexivity].
Qed.

Lemma confined_ret {A} (a : A) : confined P ps (ret a).
Proof. exact (confined_pure (Ok a)). Qed.

Lemma confined_raise {A} (e : PyExc) : confined P ps (@raise A e).
Proof. exact (confined_pure (Raise e)). Qed.

Lemma confined_bind {A B} (c : M A) (k : A -> M B) :
  confined P ps c -> (forall a, confined P ps (k a)) ->
  confined P ps (bind c k).
Proof.
  intros Hc Hk w. unfold bind. destruct (Hc w) as [[l [Hl HP]] Hf].
  destruct (c w) as [[a|e] w1]; cbn in Hl, Hf.
  - destruct (Hk a w1) as [[l' [Hl' HP']] Hf']. split.
    + exists (l ++ l'). rewrite Hl', Hl, app_assoc. split; [reflexivity|].
      apply Forall_app; auto.
    + intros p Hp. rewrite Hf', Hf by exact Hp. reflexivity.
  - split; [exists l; auto | exact Hf].
Qed.

Lemma confined_try_except {A} (c : M A) (h : PyExc -> M A) :
  confined P ps c -> (forall e, confined P ps (h e)) ->
  confined P ps (try_except c h).
Proof.
  intros Hc Hh w. unfold try_except. destruct (Hc w) as [[l [Hl HP]] Hf].
  destruct (c w) as [[a|e] w1]; cbn in Hl, Hf.
  - split; [exists l; auto | exact Hf].
  - destruct (Hh e w1) as [[l' [Hl' HP']] Hf']. split.
    + exists (l ++ l'). rewrite Hl', Hl, app_assoc. split; [reflexivity|].
      apply Forall_app; auto.
    + intros p Hp. rewrite Hf', Hf by exact Hp. reflexivity.
Qed.

Lemma confined_for_each {A} (body : A -> M unit) (l : list A) :
  (forall x, confined P ps (body x)) -> confined P ps (for_each body l).
Proof.
  intros Hb. induction l as [|x l IH]; cbn [for_each].
  - apply confined_ret.
  - apply confined_bind; auto.
Qed.

Lemma confined_external {A} (c : Call) (r : Result A) :
  P c -> confined P ps (external c r).
Proof.
  intros Hc w. unfold external, bind, record_call, lift.
  destruct r; cbn; (split; [exists [c]; auto | reflexivity]).
Qed.

Lemma confined_open_w env p : p ∈ ps -> confined P ps (open_w env p).
Proof.
  intros Hp w. unfold open_w.
  destruct (os_error env p mode_w); cbn;
    (split; [exists []; now rewrite app_nil_r|]); [reflexivity|].
  intros q Hq. apply lookup_insert_ne. intros ->. contradiction.
Qed.

Lemma confined_write p s : p ∈ ps -> confined P ps (write p s).
Proof.
  intros Hp w. cbn. split; [exists []; now rewrite app_nil_r|].
  intros q Hq. apply lookup_insert_ne. intros ->. contradiction.
Qed.

Lemma confined_json_dump env result p :
  p ∈ ps -> confined P ps (json_dump env result p).
Proof.
  intros Hp w. unfold json_dump.
  destruct (json_dumps env result); cbn;
    (split; [exists []; now rewrite app_nil_r|]);
    intros q Hq; apply lookup_insert_ne; intros ->; contradiction.
Qed.

Lemma confined_read_text env p : confined P ps (read_text env p).
Proof.
  intros w. unfold read_text.
  destruct (os_error env p mode_r); [|destruct (files w !! p)]; cbn;
    (split; [exists []; now rewrite app_nil_r | reflexivity]).
Qed.

Lemma confined_get_asr_model env m d c :
  P (call_load_model m d c) -> confined P ps (get_asr_model env m d c).
Proof.
  intros HP w.
  pose proof (get_asr_model_effect env m d c w) as H.
  destruct (get_asr_model env m d c w) as [r w']. cbn.
  destruct H as [Hf [[Hc _]|[Hc _]]].
  - split; [exists []; now rewrite app_nil_r | now rewrite Hf].
  - split; [exists [call_load_model m d c]; auto | now rewrite Hf].
Qed.

End Confined.

Lemma confined_export_results P env fp d result :
  confined P (artifact_paths fp) (export_results env fp d result).
Proof.
  assert (Hj : in_output_dir (fp +:+ ".json") ∈ artifact_paths fp)
    by (apply list_elem_of_In; cbn; tauto).
  assert (Ht : in_output_dir (fp +:+ ".txt") ∈ artifact_paths fp)
    by (apply list_elem_of_In; cbn; tauto).
  assert (Hs : in_output_dir (fp +:+ ".srt") ∈ artifact_paths fp)
    by (apply list_elem_of_In; cbn; tauto).
  assert (Hv : in_output_dir (fp +:+ ".vtt") ∈ artifact_paths fp)
    by (apply list_elem_of_In; cbn; tauto).
  unfold export_results.
  repeat first
    [ apply confined_ret | apply confined_pure | apply confined_read_text
    | apply confined_open_w; assumption
    | apply confined_write; assumption
    | apply confined_json_dump; assumption
    | apply confined_bind; [| intros ? ]
    | apply confined_for_each; intros ?
    | match goal with
      | |- confined _ _ (let '(_, _) := ?x in _) => destruct x
      end ].
Qed.

Lemma confined_run_stages env a fp audio mm mn mx :
  confined (allowed_call a) (artifact_paths fp)
    (run_stages env a fp audio mm mn mx).
Proof.
  unfold run_stages, call_model.
  apply confined_bind.
  { destruct mm; [apply confined_external; exact I | apply confined_raise]. }
  intros r0. apply confined_bind.
  { destruct (Args.no_align a) eqn:Hna; cbn [negb]; [apply confined_ret|].
    apply confined_bind; [apply confined_external; exact Hna|].
    intros [am md]. apply confined_external. exact Hna. }
  intros r1. apply confined_bind.
  { destruct (Args.diarize a) eqn:Hd; [|apply confined_ret].
    apply confined_bind; [apply confined_external; exact Hd|].
    intros dm. apply confined_bind; [apply confined_external; exact Hd|].
    intros ds. apply confined_external. exact Hd. }
  intros r2. apply confined_export_results.
Qed.

Lemma confined_attempt env a fp :
  confined (allowed_call a) (artifact_paths fp) (attempt env a fp).
Proof.
  unfold attempt.
  apply confined_bind; [apply confined_get_asr_model; reflexivity|].
  intros mm. apply confined_bind; [apply confined_pure|].
  intros mn. apply confined_bind; [apply confined_pure|].
  intros mx. apply confined_run_stages.
Qed.

Lemma transcribe_audio_confined env a w :
  (exists l,
     calls (snd (transcribe_audio env a w)) = calls w ++ l
     /\ Forall (allowed_call a) l)
  /\ (forall p,
        (forall fp, fst (setup env w) = Ok fp -> p ∉ artifact_paths fp) ->
        files (snd (transcribe_audio env a w)) !! p = files w !! p).
Proof.
  rewrite transcribe_audio_attempt. unfold bind.
  pose proof (setup_state env w) as Hst.
  destruct (setup env w) as [[fp|e] w0]; cbn in Hst; subst w0.
  - destruct (confined_try_except (allowed_call a) (artifact_paths fp)
                (attempt env a fp) error_result (confined_attempt env a fp)
                (fun e => confined_ret _ _ _) w) as [Hc Hf].
    split; [exact Hc|]. intros p Hp. apply Hf, Hp. reflexivity.
  - cbn. split; [exists []; now rewrite app_nil_r | reflexivity].
Qed.

(** X9: whatever happens in a run, failing or not, every call it adds to
    the record is one its arguments allow: a model loader call only for the
    requested model, device and compute type; alignment loader and aligner
    calls only when alignment is not skipped; diarization calls only when
    diarization is requested. *)
Theorem run_makes_only_allowed_calls env a w :
  exists l,
    calls (snd (transcribe_audio env a w)) = calls w ++ l
    /\ Forall (allowed_call a) l
    /\ (Args.no_align a = true ->
        Forall (fun c => match c with
                         | call_load_align_model _ _ _
                         | call_align _ _ _ _ _ _ _ => False
                         | _ => True
                         end) l)
    /\ (Args.diarize a = false ->
        Forall (fun c => match c with
                         | call_DiarizationPipeline _
                         | call_diarize_model _ _ _ _
                         | call_assign_word_speakers _ _ => False
                         | _ => True
                         end) l).
Proof.
  destruct (transcribe_audio_confined env a w) as [(l & Hl & HP) _].
  exists l. split; [exact Hl|]. split; [exact HP|].
  split; intros Hflag; eapply Forall_impl; try exact HP;
    intros c Hc; destruct c; cbn in Hc; try exact I; congruence.
Qed.

(** X10: a run changes no file but its own four artifacts: every path
    that is not one of the four paths under the prefix of the run holds
    after the run, failing or not, what it held before. *)
Theorem run_touches_only_its_artifacts env a w p :
  (forall fp, fst (setup env w) = Ok fp -> p ∉ artifact_paths fp) ->
  files (snd (transcribe_audio env a w)) !! p = files w !! p.
Proof.
  intros Hp. destruct (transcribe_audio_confined env a w) as [_ Hf].
  apply Hf, Hp.
Qed.

Lemma run_touches_only_its_artifacts_witness :
  let env1 := quiet_env (float_of 1700000000 0) first_document "{1}" in
  let env2 := quiet_env (float_of 1700000060 0) second_document "{2}" in
  let a := default_args (audio_str "a.wav") true in
  let w1 := snd (transcribe_audio env1 a w_init) in
  files (snd (transcribe_audio env2 a w1))
    !! "whisperx_output/transcript_1700000000.txt"
  = Some ("first" +:+ nl).
Proof.
  intros env1 env2 a w1.
  rewrite (run_touches_only_its_artifacts env2 a w1
             "whisperx_output/transcript_1700000000.txt").
  - vm_compute. reflexivity.
  - intros fp Hfp. vm_compute in Hfp. injection Hfp as <-.
    intros Hin. apply list_elem_of_In in Hin. vm_compute in Hin.
    repeat destruct Hin as [Hin|Hin]; try discriminate. exact Hin.
Defined.

(** ** Failures during the export *)

(** X11: artifacts are not written as one transaction.  When the JSON
    and text files can be written and the SRT loop raises [e] at some
    segment, the export raises [e]; by then the JSON file and the text file
    are complete, the SRT file holds the cues of the segments before the
    failing one, and the VTT file has not been opened. *)
Theorem srt_failure_leaves_partial_artifacts env fp d result w j e :
  os_error env (in_output_dir (fp +:+ ".json")) mode_w = None ->
  json_dumps env result = Ok j ->
  os_error env (in_output_dir (fp +:+ ".txt")) mode_w = None ->
  os_error env (in_output_dir (fp +:+ ".srt")) mode_w = None ->
  snd (srt_cues d (segments result)) = Some e ->
  let w' := snd (export_results env fp d result w) in
  fst (export_results env fp d result w) = Raise e
  /\ files w' !! in_output_dir (fp +:+ ".json") = Some j
  /\ files w' !! in_output_dir (fp +:+ ".txt")
     = Some (txt_content d (segments result))
  /\ files w' !! in_output_dir (fp +:+ ".srt")
     = Some (concat_strings (fst (srt_cues d (segments result))))
  /\ files w' !! in_output_dir (fp +:+ ".vtt")
     = files w !! in_output_dir (fp +:+ ".vtt").
Proof.
  intros Hj Hdump Ht Hs Hsc.
  assert (Heval :
    export_results env fp d result w =
    (Raise e,
     set_files w
       (<[in_output_dir (fp +:+ ".srt") :=
            concat_strings (fst (srt_cues d (segments result)))]>
        (<[in_output_dir (fp +:+ ".txt") := txt_content d (segments result)]>
         (<[in_output_dir (fp +:+ ".json") := j]> (files w)))))).
  { unfold export_results.
    unfold bind at 1. unfold open_w at 1. rewrite Hj.
    unfold bind at 1. unfold json_dump at 1. rewrite Hdump.
    unfold write at 1. cbn [files MODEL_MANAGER calls].
    rewrite lookup_insert_eq, insert_insert_eq. cbn [default].
    rewrite append_nil_l.
    unfold bind at 1. unfold open_w at 1. rewrite Ht.
    cbn [files MODEL_MANAGER calls].
    unfold bind at 1.
    erewrite for_each_write by (cbn [files]; apply lookup_insert_eq).
    unfold set_files; cbn [files MODEL_MANAGER calls].
    rewrite insert_insert_eq, append_nil_l.
    unfold bind at 1. unfold open_w at 1. rewrite Hs.
    cbn [files MODEL_MANAGER calls].
    unfold bind at 1.
    erewrite (for_each_cues _ (fun '(i, segment) => srt_cue d i segment))
      by (first [ intros [i s] w0; reflexivity
                | cbn [files]; apply lookup_insert_eq ]).
    fold (srt_cues d (segments result)). rewrite Hsc.
    unfold set_files; cbn [files MODEL_MANAGER calls].
    rewrite insert_insert_eq, append_nil_l. reflexivity. }
  rewrite Heval. cbn [fst snd set_files files].
  split; [reflexivity|].
  split.
  { rewrite lookup_insert_ne by (apply path_ne; discriminate).
    rewrite lookup_insert_ne by (apply path_ne; discriminate).
    apply lookup_insert_eq. }
  split.
  { rewrite lookup_insert_ne by (apply path_ne; discriminate).
    apply lookup_insert_eq. }
  split; [apply lookup_insert_eq|].
  rewrite !lookup_insert_ne by (apply path_ne; discriminate). reflexivity.
Qed.

Lemma srt_failure_leaves_partial_artifacts_witness :
  let doc := mkDocument [hello_segment; negative_segment] None in
  let env := quiet_env (float_of 0 0) doc "{}" in
  let w' := snd (export_results env "transcript_1" false doc w_init) in
  fst (export_results env "transcript_1" false doc w_init)
  = Raise (mkExc AssertionError "non-negative timestamp expected")
  /\ files w' !! "whisperx_output/transcript_1.json" = Some "{}"
  /\ files w' !! "whisperx_output/transcript_1.txt"
     = Some ("hello world" +:+ nl +:+ "oops" +:+ nl)
  /\ files w' !! "whisperx_output/transcript_1.srt"
     = Some ("1" +:+ nl +:+ "00:00:01,500 --> 00:00:03,750" +:+ nl
             +:+ "hello world" +:+ nl +:+ nl)
  /\ files w' !! "whisperx_output/transcript_1.vtt" = None.
Proof.
  intros doc env w'.
  exact (srt_failure_leaves_partial_artifacts env "transcript_1" false doc
           w_init "{}"
           (mkExc AssertionError "non-negative timestamp expected")
           eq_refl eq_refl eq_refl eq_refl
           ltac:(vm_compute; reflexivity)).
Defined.

(** ** What the arrow replacement does *)

Lemma replace_arrow_nil : replace "-->" "->" "" = "".
Proof. reflexivity. Qed.

Lemma replace_arrow_hit t :
  replace "-->" "->" ("-->" +:+ t) = "->" +:+ replace "-->" "->" t.
Proof. reflexivity. Qed.

Lemma replace_arrow_miss c r :
  startswith "-->" (String c r) = false ->
  replace "-->" "->" (String c r) = String c (replace "-->" "->" r).
Proof.
  intros H. unfold replace. cbn [replace_from]. now rewrite H.
Qed.

Lemma startswith_inv p s :
  startswith p s = true -> exists t, s = p +:+ t.
Proof.
  revert s. induction p as [|a p IH]; intros s H.
  - exists s. reflexivity.
  - destruct s as [|b s]; [discriminate|]. cbn [startswith] in H.
    apply andb_true_iff in H as [Hab Hp]. apply Ascii.eqb_eq in Hab as ->.
    destruct (IH s Hp) as [t ->]. exists t. reflexivity.
Qed.

Lemma contains_cons p c r :
  contains p r = true -> contains p (String c r) = true.
Proof. intros H. cbn [contains]. rewrite H. apply orb_true_r. Qed.

Lemma contains_startswith p s :
  startswith p s = true -> contains p s = true.
Proof. intros H. destruct s; cbn [contains]; now rewrite H. Qed.

Lemma string_length_cons c s : String.length (String c s) = S (String.length s).
Proof. reflexivity. Qed.

Lemma replace_arrow_survivor n :
  forall s, (String.length s <= n)%nat ->
  contains "-->" (replace "-->" "->" s) = true ->
  contains "--->" s = true.
Proof.
  induction n as [|n IH]; intros s Hlen.
  - destruct s; [discriminate | cbn in Hlen; lia].
  - destruct s as [|c r]; [discriminate|].
    rewrite string_length_cons in Hlen.
    destruct (startswith "-->" (String c r)) eqn:Hsw.
    + destruct (startswith_inv _ _ Hsw) as [t Ht]. rewrite Ht.
      rewrite replace_arrow_hit. intros H.
      change ("->" +:+ replace "-->" "->" t)
        with (String "-" (String ">" (replace "-->" "->" t))) in H.
      cbn [contains startswith Ascii.eqb Bool.eqb andb orb] in H.
      apply IH in H.
      * change ("-->" +:+ t) with (String "-" (String "-" (String ">" t))).
        now apply contains_cons, contains_cons, contains_cons.
      * assert (Hl : String.length (String c r) = (3 + String.length t)%nat)
          by (rewrite Ht; reflexivity).
        rewrite string_length_cons in Hl. lia.
    + rewrite (replace_arrow_miss _ _ Hsw).
      intros H. cbn [contains] in H. apply orb_true_iff in H as [H|H];
        [| apply contains_cons, IH; [lia | exact H]].
      (* an arrow begins at this character of the output *)
      cbn [startswith] in H. apply andb_true_iff in H as [Hc H].
      apply Ascii.eqb_eq in Hc as <-.
      destruct r as [|c2 r2]; [discriminate|].
      destruct (startswith "-->" (String c2 r2)) eqn:Hsw2.
      * apply contains_startswith.
        change (startswith "--->" (String "-" (String c2 r2)))
          with (Ascii.eqb "-" "-" && startswith "-->" (String c2 r2)).
        rewrite Hsw2. reflexivity.
      * rewrite (replace_arrow_miss _ _ Hsw2) in H.
        cbn [startswith] in H. apply andb_true_iff in H as [Hc2 H].
        apply Ascii.eqb_eq in Hc2 as <-.
        destruct r2 as [|c3 r3]; [discriminate|].
        destruct (startswith "-->" (String c3 r3)) eqn:Hsw3.
        -- destruct (startswith_inv _ _ Hsw3) as [t Ht]. rewrite Ht in H.
           rewrite replace_arrow_hit in H. discriminate.
        -- rewrite (replace_arrow_miss _ _ Hsw3) in H.
           cbn [startswith] in H. apply andb_true_iff in H as [Hc3 _].
           apply Ascii.eqb_eq in Hc3 as <-.
           discriminate.
Qed.

Lemma replace_arrow_id s :
  contains "-->" s = false -> replace "-->" "->" s = s.
Proof.
  induction s as [|c r IH]; [reflexivity|].
  cbn [contains]. intros H. apply orb_false_iff in H as [Hsw Hr].
  rewrite (replace_arrow_miss _ _ Hsw). now rewrite IH.
Qed.

(** X12: what the sanitisation of cue text achieves.  For a segment
    written without a speaker prefix: a text without an arrow is written as
    it is (trimmed); and the cue text can contain an arrow only when the
    trimmed text contains an arrow right after a dash, so a text free of
    [--->] gives a cue text free of [-->]. *)
Theorem cue_text_arrow_only_after_dash d segment :
  d = false \/ seg_speaker segment = None ->
  (contains "-->" (strip (seg_text segment)) = false ->
   cue_text d segment = strip (seg_text segment))
  /\ (contains "-->" (cue_text d segment) = true ->
      contains "--->" (strip (seg_text segment)) = true)
  /\ (contains "--->" (strip (seg_text segment)) = false ->
      contains "-->" (cue_text d segment) = false).
Proof.
  intros Hplain.
  assert (Hcue : cue_text d segment
                 = replace "-->" "->" (strip (seg_text segment))).
  { unfold cue_text. destruct Hplain as [-> | ->]; [reflexivity|].
    destruct d; reflexivity. }
  rewrite Hcue.
  assert (Hsurv : contains "-->" (replace "-->" "->" (strip (seg_text segment)))
                  = true ->
                  contains "--->" (strip (seg_text segment)) = true)
    by (apply (replace_arrow_survivor _ _ (le_n _))).
  split; [apply replace_arrow_id|]. split; [exact Hsurv|].
  intros Hno.
  destruct (contains "-->" (replace "-->" "->" (strip (seg_text segment))));
    [|reflexivity].
  rewrite Hsurv in Hno by reflexivity. discriminate.
Qed.

Lemma cue_text_arrow_only_after_dash_witness :
  cue_text false (mkSegment (float_of 0 0) (float_of 1 0) " a --> b " None)
  = "a -> b"
  /\ contains "-->"
       (cue_text false
          (mkSegment (float_of 0 0) (float_of 1 0) " a --> b " None))
     = false.
Proof.
  split; [vm_compute; reflexivity|].
  apply (cue_text_arrow_only_after_dash false
           (mkSegment (float_of 0 0) (float_of 1 0) " a --> b " None)).
  - left. reflexivity.
  - vm_compute. reflexivity.
Defined.

(** ** Exceptions that leave [transcribe_audio] *)

Lemma setup_eval env w :
  setup env w =
  match os_error env output_dir mode_w with
  | Some e => (Raise e, w)
  | None =>
      match files w !! output_dir with
      | Some _ =>
          (Raise (mkExc FileExistsError
                    ("[Errno 17] File exists: " +:+ repr output_dir)), w)
      | None =>
          match int_of_float (time_time env) with
          | Ok ts => (Ok ("transcript_" +:+ str_int ts), w)
          | Raise e => (Raise e, w)
          end
      end
  end.
Proof.
  unfold setup, bind, mkdir, lift, ret.
  destruct (os_error env output_dir mode_w); [reflexivity|].
  destruct (files w !! output_dir); [reflexivity|].
  destruct (int_of_float (time_time env)); reflexivity.
Qed.

(** X13: the error boundary does not cover the set-up.  An exception [e]
    leaves [transcribe_audio] exactly in three cases: creating the output
    directory is refused with [e]; or a file named [whisperx_output] is in
    the way and [e] is the [FileExistsError]; or the clock reading cannot be
    turned into an integer.  In each of them nothing has been called and no
    file has changed. *)
Theorem exceptions_leave_only_from_setup env a w e :
  (fst (transcribe_audio env a w) = Raise e
   <-> os_error env output_dir mode_w = Some e
       \/ (os_error env output_dir mode_w = None
           /\ files w !! output_dir <> None
           /\ e = mkExc FileExistsError
                    ("[Errno 17] File exists: " +:+ repr output_dir))
       \/ (os_error env output_dir mode_w = None
           /\ files w !! output_dir = None
           /\ int_of_float (time_time env) = Raise e))
  /\ (fst (transcribe_audio env a w) = Raise e ->
      snd (transcribe_audio env a w) = w).
Proof.
  rewrite transcribe_audio_attempt. unfold bind. rewrite setup_eval.
  destruct (os_error env output_dir mode_w) as [e0|] eqn:Hos; cbn.
  { split; [|reflexivity]. split.
    - intros [= ->]. auto.
    - intros [[= ->]|[(H & _)|(H & _)]]; [reflexivity | discriminate..]. }
  destruct (files w !! output_dir) as [c|] eqn:Hf; cbn.
  { split; [|reflexivity]. split.
    - intros [= <-]. right. left. auto.
    - intros [H|[(_ & _ & ->)|(_ & H & _)]];
        [discriminate | reflexivity | discriminate]. }
  destruct (int_of_float (time_time env)) as [ts|e0] eqn:Hts; cbn.
  - unfold try_except.
    destruct (attempt env a _ w) as [[r|e1] w1]; cbn.
    + split; [|discriminate]. split; [discriminate|].
      intros [H|[(_ & H & _)|(_ & _ & H)]]; [discriminate | congruence |
                                             discriminate].
    + split; [|discriminate]. split; [discriminate|].
      intros [H|[(_ & H & _)|(_ & _ & H)]]; [discriminate | congruence |
                                             discriminate].
  - split; [|reflexivity]. split.
    + intros [= ->]. right. right. auto.
    + intros [H|[(_ & H & _)|(_ & _ & [= ->])]];
        [discriminate | congruence | reflexivity].
Qed.

Lemma exceptions_leave_only_from_setup_witness :
  let env := quiet_env (float_of 1700000000 0) hello_document "{}" in
  let w := mkWorld WhisperXManager_init {[ "whisperx_output" := "a file" ]} [] in
  let e := mkExc FileExistsError "[Errno 17] File exists: 'whisperx_output'" in
  fst (transcribe_audio env (default_args (audio_str "a.wav") true) w)
  = Raise e
  /\ snd (transcribe_audio env (default_args (audio_str "a.wav") true) w) = w.
Proof.
  intros env w e.
  destruct (exceptions_leave_only_from_setup env
              (default_args (audio_str "a.wav") true) w e) as [[_ Hif] Hst].
  assert (H : fst (transcribe_audio env
                     (default_args (audio_str "a.wav") true) w) = Raise e).
  { apply Hif. right. left. split; [reflexivity|].
    split; [vm_compute; discriminate | vm_compute; reflexivity]. }
  split; [exact H | exact (Hst H)].
Defined.

(** ** Prefixes of runs in different seconds *)

Lemma digit_char_code d : (d < 10)%N -> N_of_ascii (digit_char d) = (48 + d)%N.
Proof.
  intros H. unfold digit_char. apply N_ascii_embedding. lia.
Qed.

Lemma digit_char_is_digit d :
  (d < 10)%N ->
  ((48 <=? N_of_ascii (digit_char d)) && (N_of_ascii (digit_char d) <=? 57))%N
  = true.
Proof.
  intros H. rewrite digit_char_code by exact H.
  apply andb_true_iff. split; apply N.leb_le; lia.
Qed.

Lemma all_digits_app a b :
  all_digits (a +:+ b) = all_digits a && all_digits b.
Proof.
  induction a as [|c a IH]; [reflexivity|].
  rewrite append_cons. cbn [all_digits]. rewrite IH. now rewrite andb_assoc.
Qed.

Lemma digits_from_spec fuel :
  forall n acc, (n < 2 ^ N.of_nat fuel)%N ->
  exists D,
    digits_from fuel n acc = D +:+ acc
    /\ all_digits D = true
    /\ forall a s,
         decimal_value a (D +:+ s)
         = decimal_value (a * 10 ^ N.of_nat (String.length D) + n) s.
Proof.
  induction fuel as [|f IH]; intros n acc Hn.
  - exists "". cbn in Hn. assert (n = 0)%N as -> by lia.
    split; [reflexivity|]. split; [reflexivity|].
    intros a s. cbn [String.length N.of_nat]. rewrite append_nil_l.
    f_equal. rewrite N.pow_0_r. lia.
  - cbn [digits_from].
    assert (Hd : (n mod 10 < 10)%N) by (apply N.mod_lt; lia).
    pose proof (N.div_mod n 10 ltac:(lia)) as Hdm.
    destruct (N.eqb_spec (n / 10) 0) as [Hq|Hq].
    + exists (String (digit_char (n mod 10)) "").
      split; [reflexivity|]. split.
      { cbn [all_digits]. rewrite andb_true_r.
        now apply digit_char_is_digit. }
      intros a s. rewrite append_cons, append_nil_l. cbn [decimal_value].
      rewrite digit_char_code by exact Hd. f_equal.
      cbn [String.length N.of_nat]. change (N.pos (Pos.of_succ_nat 0)) with 1%N.
      rewrite N.pow_1_r. lia.
    + assert (Hlt : (n / 10 < 2 ^ N.of_nat f)%N).
      { rewrite Nat2N.inj_succ, N.pow_succ_r' in Hn.
        apply N.Div0.div_lt_upper_bound. lia. }
      destruct (IH (n / 10)%N (String (digit_char (n mod 10)) acc) Hlt)
        as (D' & HD' & Hall & Hval).
      exists (D' +:+ String (digit_char (n mod 10)) "").
      split; [rewrite HD', append_assoc; reflexivity|]. split.
      { rewrite all_digits_app, Hall. cbn [all_digits andb].
        rewrite andb_true_r. now apply digit_char_is_digit. }
      intros a s. rewrite append_assoc, append_cons, append_nil_l.
      rewrite Hval. cbn [decimal_value].
      rewrite digit_char_code by exact Hd. f_equal.
      rewrite string_length_app. cbn [String.length].
      rewrite Nat.add_1_r, Nat2N.inj_succ, N.pow_succ_r'.
      set (X := (10 ^ N.of_nat (String.length D'))%N).
      clearbody X. clear - Hdm Hd.
      generalize dependent (n / 10)%N. generalize dependent (n mod 10)%N.
      intros r Hr q ->. lia.
Qed.

Lemma digits_spec n :
  all_digits (digits n) = true /\ decimal_value 0 (digits n) = n.
Proof.
  unfold digits.
  assert (Hn : (n < 2 ^ N.of_nat (S (N.to_nat (N.log2 n))))%N).
  { rewrite Nat2N.inj_succ, N2Nat.id.
    destruct n as [|p]; [reflexivity|]. apply N.log2_spec. lia. }
  destruct (digits_from_spec _ n "" Hn) as (D & -> & Hall & Hval).
  rewrite append_nil_r. split; [exact Hall|].
  specialize (Hval 0%N ""). rewrite append_nil_r in Hval. rewrite Hval.
  cbn [decimal_value]. lia.
Qed.

Lemma str_int_nonneg z : 0 <= z -> str_int z = digits (Z.abs_N z).
Proof.
  intros Hz. unfold str_int, format_d.
  destruct (Z.ltb_spec z 0); [lia|]. cbn [String.length Nat.sub zeros].
  now rewrite !append_nil_l.
Qed.

(** A digit string is cut off by the dot of an extension. *)
Lemma digits_before_dot D1 D2 x y :
  all_digits D1 = true -> all_digits D2 = true ->
  D1 +:+ String "." x = D2 +:+ String "." y -> D1 = D2.
Proof.
  revert D2. induction D1 as [|c D1 IH]; intros [|c2 D2] H1 H2;
    rewrite ?append_cons, ?append_nil_l; intros H.
  - reflexivity.
  - injection H as <- _. discriminate.
  - injection H as -> _. discriminate.
  - injection H as -> H. cbn [all_digits] in H1, H2.
    apply andb_true_iff in H1 as [_ H1]. apply andb_true_iff in H2 as [_ H2].
    f_equal. eapply IH; eassumption.
Qed.

Lemma artifact_path_inv fp p :
  p ∈ artifact_paths fp -> exists x, p = in_output_dir (fp +:+ String "." x).
Proof.
  intros H. apply list_elem_of_In in H. unfold artifact_paths in H.
  cbn [map In] in H.
  destruct H as [<-|[<-|[<-|[<-|[]]]]]; eexists; reflexivity.
Qed.

Lemma artifact_paths_disjoint t1 t2 p :
  0 <= t1 -> 0 <= t2 -> t1 <> t2 ->
  p ∈ artifact_paths ("transcript_" +:+ str_int t1) ->
  p ∉ artifact_paths ("transcript_" +:+ str_int t2).
Proof.
  intros H1 H2 Hne Hin1 Hin2. apply Hne.
  rewrite !str_int_nonneg in * by assumption.
  destruct (digits_spec (Z.abs_N t1)) as [Ha1 Hv1].
  destruct (digits_spec (Z.abs_N t2)) as [Ha2 Hv2].
  apply artifact_path_inv in Hin1 as [x1 Hp1].
  apply artifact_path_inv in Hin2 as [x2 Hp2].
  rewrite Hp1 in Hp2. unfold in_output_dir in Hp2.
  apply append_inj_l, append_inj_l in Hp2.
  rewrite !append_assoc in Hp2. apply append_inj_l in Hp2.
  pose proof (digits_before_dot _ _ _ _ Ha1 Ha2 Hp2) as Hd.
  assert (Hn : Z.abs_N t1 = Z.abs_N t2) by congruence.
  lia.
Qed.

Lemma setup_prefix env w fp :
  fst (setup env w) = Ok fp ->
  exists ts,
    int_of_float (time_time env) = Ok ts /\ fp = "transcript_" +:+ str_int ts.
Proof.
  rewrite setup_eval.
  destruct (os_error env output_dir mode_w); [discriminate|].
  destruct (files w !! output_dir); [discriminate|].
  destruct (int_of_float (time_time env)) as [ts|]; [|discriminate].
  intros [= <-]. eauto.
Qed.

(** X14: runs that start in different whole seconds do not collide.  When
    the clock readings of two runs truncate to different non-negative
    integers, no artifact path of the first is an artifact path of the
    second, and the second run, successful or not, leaves every artifact of
    the first as it was. *)
Theorem runs_in_different_seconds_keep_artifacts
    env1 w1 fp1 env2 a2 w t1 t2 p :
  fst (setup env1 w1) = Ok fp1 ->
  int_of_float (time_time env1) = Ok t1 ->
  int_of_float (time_time env2) = Ok t2 ->
  0 <= t1 -> 0 <= t2 -> t1 <> t2 ->
  p ∈ artifact_paths fp1 ->
  (forall fp2, fst (setup env2 w) = Ok fp2 -> p ∉ artifact_paths fp2)
  /\ files (snd (transcribe_audio env2 a2 w)) !! p = files w !! p.
Proof.
  intros Hs1 Ht1 Ht2 H1 H2 Hne Hp.
  apply setup_prefix in Hs1 as (ts1 & Hts1 & ->).
  assert (ts1 = t1) as -> by congruence.
  assert (Hdis : forall fp2, fst (setup env2 w) = Ok fp2 ->
                 p ∉ artifact_paths fp2).
  { intros fp2 Hs2. apply setup_prefix in Hs2 as (ts2 & Hts2 & ->).
    assert (ts2 = t2) as -> by congruence.
    now apply (artifact_paths_disjoint t1 t2). }
  split; [exact Hdis|].
  destruct (transcribe_audio_confined env2 a2 w) as [_ Hf].
  apply Hf, Hdis.
Qed.

Lemma runs_in_different_seconds_keep_artifacts_witness :
  let env1 := quiet_env (float_of 6800000003 (-2)) first_document "{1}" in
  let env2 := quiet_env (float_of 6800000005 (-2)) second_document "{2}" in
  let a := default_args (audio_str "a.wav") true in
  let w1 := snd (transcribe_audio env1 a w_init) in
  files (snd (transcribe_audio env2 a w1))
    !! "whisperx_output/transcript_1700000000.txt"
  = Some ("first" +:+ nl).
Proof.
  intros env1 env2 a w1.
  destruct (runs_in_different_seconds_keep_artifacts env1 w_init
              "transcript_1700000000" env2 a w1 1700000000 1700000001
              "whisperx_output/transcript_1700000000.txt"
              ltac:(vm_compute; reflexivity) ltac:(vm_compute; reflexivity)
              ltac:(vm_compute; reflexivity) ltac:(lia) ltac:(lia)
              ltac:(lia)
              ltac:(apply list_elem_of_In; cbn; tauto)) as [_ H].
  rewrite H. vm_compute. reflexivity.
Defined.

(** ** Failures before the export *)

Lemma bind_ret_r {A} (c : M A) w : bind c ret w = c w.
Proof. unfold bind, ret. destruct (c w) as [[a|e] w1]; reflexivity. Qed.

Lemma bind_ext {A B} (c : M A) (k k' : A -> M B) w :
  (forall a w1, k a w1 = k' a w1) -> bind c k w = bind c k' w.
Proof.
  intros H. unfold bind. destruct (c w) as [[a|e] w1]; [apply H | reflexivity].
Qed.

Lemma run_stages_split env a fp audio mm mn mx w :
  run_stages env a fp audio mm mn mx w =
  bind (stages env a audio mm mn mx)
    (fun result => export_results env fp (Args.diarize a) result) w.
Proof.
  unfold run_stages, stages.
  rewrite bind_assoc. apply bind_ext. intros r0 w1.
  rewrite bind_assoc. apply bind_ext. intros r1 w2. reflexivity.
Qed.

Lemma stages_files env a audio mm mn mx w :
  files (snd (stages env a audio mm mn mx w)) = files w.
Proof.
  assert (H : confined (fun _ => True) [] (stages env a audio mm mn mx)).
  { unfold stages, call_model.
    repeat first
      [ apply confined_ret | apply confined_raise
      | apply confined_external; exact I
      | apply confined_bind; [| intros ? ]
      | match goal with
        | |- confined _ _ (if ?b then _ else _) => destruct b
        | |- confined _ _ (match ?x with _ => _ end) => destruct x
        end ]. }
  destruct (H w) as [_ Hf]. apply map_eq. intros p. apply Hf.
  apply not_elem_of_nil.
Qed.

Lemma stages_manager env a audio mm mn mx w :
  MODEL_MANAGER (snd (stages env a audio mm mn mx w)) = MODEL_MANAGER w.
Proof.
  set (same := fun (A : Type) (c : M A) =>
                 forall w, MODEL_MANAGER (snd (c w)) = MODEL_MANAGER w).
  assert (Hret : forall A (x : A), same A (ret x)) by (intros A x w0; reflexivity).
  assert (Hraise : forall A e, same A (raise e)) by (intros A e w0; reflexivity).
  assert (Hext : forall A c (r : Result A), same A (external c r)).
  { intros A c r w0. unfold external, bind, record_call, lift.
    destruct r; reflexivity. }
  assert (Hbind : forall A B (c : M A) (k : A -> M B),
            same A c -> (forall x, same B (k x)) -> same B (bind c k)).
  { intros A B c k Hc Hk w0. unfold bind. specialize (Hc w0).
    destruct (c w0) as [[x|e] w1]; cbn in Hc; [|exact Hc].
    rewrite Hk. exact Hc. }
  assert (H : same Document (stages env a audio mm mn mx)).
  { unfold stages, call_model.
    repeat first
      [ apply Hret | apply Hraise | apply Hext
      | apply Hbind; [| intros ? ]
      | match goal with
        | |- same _ (if ?b then _ else _) => destruct b
        | |- same _ (match ?x with _ => _ end) => destruct x
        end ]. }
  apply H.
Qed.

(** X15: a failure before the export writes nothing.  When the model
    lookup and the parsing of the bounds have passed and one of the stages
    (transcription, alignment loader, aligner, diarization pipeline,
    diarization, speaker assignment) raises [e], the run returns
    ["Error: " + str(e)] with an empty list of artifacts, no file has been
    created or changed, and the cache is as the lookup left it. *)
Theorem stage_failure_writes_nothing env a w fp mm w2 mn mx e w3 :
  setup env w = (Ok fp, w) ->
  get_asr_model env (Args.model a) (Args.device a) (Args.compute_type a) w
  = (Ok mm, w2) ->
  parse_bound (Args.min_speakers a) = Ok mn ->
  parse_bound (Args.max_speakers a) = Ok mx ->
  stages env a (audio_path_of a) mm mn mx w2 = (Raise e, w3) ->
  transcribe_audio env a w = (Ok ("Error: " +:+ exc_str e, []), w3)
  /\ files w3 = files w
  /\ MODEL_MANAGER w3 = MODEL_MANAGER w2.
Proof.
  intros Hsetup Hget Hmn Hmx Hst.
  split; [|split].
  - rewrite transcribe_audio_attempt. unfold bind at 1. rewrite Hsetup.
    unfold try_except, attempt. fold (audio_path_of a).
    unfold bind at 1. rewrite Hget.
    unfold bind at 1. unfold lift at 1. rewrite Hmn.
    unfold bind at 1. unfold lift at 1. rewrite Hmx.
    rewrite run_stages_split. unfold bind at 1. rewrite Hst. reflexivity.
  - pose proof (stages_files env a (audio_path_of a) mm mn mx w2) as Hf.
    rewrite Hst in Hf. cbn [snd] in Hf. rewrite Hf.
    pose proof (get_asr_model_effect env (Args.model a) (Args.device a)
                  (Args.compute_type a) w) as Hg.
    rewrite Hget in Hg. apply Hg.
  - pose proof (stages_manager env a (audio_path_of a) mm mn mx w2) as Hk.
    rewrite Hst in Hk. exact Hk.
Qed.

Lemma stage_failure_writes_nothing_witness :
  let env := mkEnv (float_of 1700000000 0) (fun _ _ => None)
    (fun _ _ _ => None)
    (fun _ _ _ _ _ _ => Raise (mkExc RuntimeError "CUDA out of memory"))
    (fun _ _ _ => Ok (0%nat, 0%nat))
    (fun s _ _ _ _ _ _ => Ok (mkDocument s None))
    (fun _ => Ok 0%nat) (fun _ _ _ _ => Ok 0%nat) (fun _ d => Ok d)
    (fun _ => Ok "{}") (fun _ => "") in
  let a := default_args (audio_str "a.wav") false in
  exists w3,
    transcribe_audio env a w_init
    = (Ok ("Error: CUDA out of memory", []), w3)
    /\ files w3 = files w_init
    /\ resident w3 0%nat "medium" "cuda" "float16".
Proof.
  intros env a.
  destruct (stage_failure_writes_nothing env a w_init
              "transcript_1700000000" (Some 0%nat)
              (snd (get_asr_model env "medium" "cuda" "float16" w_init))
              bound_none bound_none
              (mkExc RuntimeError "CUDA out of memory")
              (snd (stages env a (audio_str "a.wav") (Some 0%nat) bound_none
                      bound_none
                      (snd (get_asr_model env "medium" "cuda" "float16"
                              w_init))))
              ltac:(vm_compute; reflexivity) ltac:(vm_compute; reflexivity)
              eq_refl eq_refl ltac:(vm_compute; reflexivity))
    as (Hrun & Hf & Hm).
  eexists. split; [exact Hrun|]. split; [exact Hf|].
  unfold resident. rewrite Hm. vm_compute. reflexivity.
Defined.

(** ** Speaker bounds *)

Lemma digit_not_blank c :
  ((48 <=? N_of_ascii c) && (N_of_ascii c <=? 57))%N = true ->
  int_blank c = false.
Proof.
  intros H. apply andb_true_iff in H as [H1 H2].
  apply N.leb_le in H1, H2. unfold int_blank.
  generalize dependent (N_of_ascii c). intros n H1 H2.
  destruct (N.leb_spec 9 n), (N.leb_spec n 13), (N.eqb_spec n 32),
    (N.eqb_spec n 133), (N.eqb_spec n 160); cbn; try reflexivity; lia.
Qed.

Lemma digit_value_digit c :
  ((48 <=? N_of_ascii c) && (N_of_ascii c <=? 57))%N = true ->
  digit_value c = Some (Z.of_N (N_of_ascii c - 48)).
Proof.
  intros H. unfold digit_value. rewrite H. f_equal.
  apply andb_true_iff in H as [H1 _]. apply N.leb_le in H1. lia.
Qed.

Lemma int_lstrip_digits D : all_digits D = true -> int_lstrip D = D.
Proof.
  destruct D as [|c r]; [reflexivity|]. cbn [all_digits int_lstrip].
  intros H. apply andb_true_iff in H as [Hc _].
  now rewrite (digit_not_blank _ Hc).
Qed.

Lemma int_rstrip_digits D : all_digits D = true -> int_rstrip D = D.
Proof.
  induction D as [|c r IH]; [reflexivity|]. cbn [all_digits int_rstrip].
  intros H. apply andb_true_iff in H as [Hc Hr].
  rewrite (IH Hr), (digit_not_blank _ Hc). now destruct r.
Qed.

Lemma int_digits_after_digit D :
  forall acc, all_digits D = true -> 0 <= acc ->
  int_digits acc true D = Some (Z.of_N (decimal_value (Z.to_N acc) D)).
Proof.
  induction D as [|c r IH]; intros acc H Hacc.
  - cbn. f_equal. lia.
  - cbn [all_digits] in H. apply andb_true_iff in H as [Hc Hr].
    cbn [int_digits decimal_value]. rewrite (digit_value_digit _ Hc).
    rewrite IH by (try exact Hr; lia). do 3 f_equal. lia.
Qed.

Lemma int_digits_digits D b :
  all_digits D = true -> D <> "" ->
  int_digits 0 b D = Some (Z.of_N (decimal_value 0 D)).
Proof.
  destruct D as [|c r]; [congruence|]. intros H _.
  cbn [all_digits] in H. apply andb_true_iff in H as [Hc Hr].
  cbn [int_digits decimal_value]. rewrite (digit_value_digit _ Hc).
  rewrite int_digits_after_digit by (try exact Hr; lia). do 3 f_equal. lia.
Qed.

Lemma int_literal_digits D :
  all_digits D = true -> D <> "" ->
  int_literal D = Some (Z.of_N (decimal_value 0 D)).
Proof.
  intros H Hne. unfold int_literal.
  rewrite int_lstrip_digits, int_rstrip_digits by exact H.
  rewrite <- (int_digits_digits D false H Hne).
  destruct D as [|c r]; [congruence|].
  cbn [all_digits] in H. apply andb_true_iff in H as [Hc _]. clear - Hc.
  destruct c as [[] [] [] [] [] [] [] []];
    try (vm_compute in Hc; discriminate Hc); reflexivity.
Qed.

Lemma int_literal_minus_digits D :
  all_digits D = true -> D <> "" ->
  int_literal ("-" +:+ D) = Some (- Z.of_N (decimal_value 0 D)).
Proof.
  intros H Hne. unfold int_literal.
  rewrite append_cons, append_nil_l.
  change (int_lstrip (String "-" D)) with (String "-"%char D).
  cbn [int_rstrip]. rewrite (int_rstrip_digits _ H).
  destruct D as [|c r]; [congruence|].
  now rewrite (int_digits_digits _ false H Hne).
Qed.

(** ** Line endings of the returned transcript *)

Lemma universal_newlines_has_no_cr n :
  forall s, (String.length s <= n)%nat ->
  has_char "013" (universal_newlines s) = false.
Proof.
  induction n as [|n IH]; intros s Hlen.
  - destruct s; [reflexivity | cbn in Hlen; lia].
  - destruct s as [|c r]; [reflexivity|].
    rewrite string_length_cons in Hlen. cbn [universal_newlines].
    destruct (Ascii.eqb c "013") eqn:Hc.
    + cbn [has_char]. change (Ascii.eqb "010" "013") with false.
      cbn [orb]. destruct r as [|c' r']; [reflexivity|].
      rewrite string_length_cons in Hlen.
      destruct (Ascii.eqb c' "010"); apply IH;
        rewrite ?string_length_cons; lia.
    + cbn [has_char]. rewrite Hc. cbn [orb]. apply IH. lia.
Qed.

(** X17: the transcript returned by a successful run contains no
    carriage return, whatever the text of the segments: reading the text
    artifact back turns every [\r\n] and every lone [\r] into [\n]; so
    reading it a second time would change nothing. *)
Theorem returned_transcript_has_no_carriage_return env a w t fs w' :
  transcribe_audio env a w = (Ok (t, fs), w') ->
  fs <> [] ->
  has_char "013" t = false /\ universal_newlines t = t.
Proof.
  intros Hrun Hfs.
  destruct (run_success_inv env a w t fs w' Hrun Hfs)
    as (fp & h & mn & mx & r0 & r1 & r2 & j & ll & la & ld & H).
  destruct H as (_ & _ & _ & _ & _ & _ & _ & _ & Ht & _).
  assert (Hno : has_char "013" t = false)
    by (rewrite Ht; apply (universal_newlines_has_no_cr _ _ (le_n _))).
  split; [exact Hno | now apply universal_newlines_no_cr].
Qed.

Lemma returned_transcript_has_no_carriage_return_witness :
  let env := quiet_env (float_of 1700000000 0) cr_document "{}" in
  let a := default_args (audio_str "a.wav") true in
  let t := fst (default ("", []) (match fst (transcribe_audio env a w_init)
                                  with Ok r => Some r | Raise _ => None end)) in
  files (snd (transcribe_audio env a w_init))
    !! "whisperx_output/transcript_1700000000.txt"
  = Some ("a" +:+ cr +:+ "b" +:+ nl)
  /\ t = "a" +:+ nl +:+ "b" +:+ nl
  /\ has_char "013" t = false /\ universal_newlines t = t.
Proof.
  intros env a t.
  split; [vm_compute; reflexivity|]. split; [vm_compute; reflexivity|].
  apply (returned_transcript_has_no_carriage_return env a w_init t
           (artifact_paths "transcript_1700000000")
           (snd (transcribe_audio env a w_init)));
    [vm_compute; reflexivity | discriminate].
Defined.

(** ** Hotwords *)

(** X18: the hotwords are parsed and then dropped.  Whatever is given as
    hotwords, the run returns the same value, makes the same calls with the
    same arguments and leaves the same files and the same cache. *)
Theorem hotwords_are_ignored env a hotwords w :
  transcribe_audio env (with_hotwords a hotwords) w = transcribe_audio env a w.
Proof.
  rewrite !transcribe_audio_attempt. reflexivity.
Qed.

Lemma digit_run_digits D : all_digits D = true -> digit_run D = D.
Proof.
  induction D as [|c r IH]; [reflexivity|]. cbn [all_digits digit_run].
  intros H. apply andb_true_iff in H as [Hc Hr].
  rewrite (digit_value_digit _ Hc). now rewrite IH.
Qed.

Lemma count_digits_digits D :
  all_digits D = true -> count_digits D = N.of_nat (String.length D).
Proof.
  induction D as [|c r IH]; [reflexivity|]. cbn [all_digits count_digits].
  intros H. apply andb_true_iff in H as [Hc Hr].
  rewrite (digit_value_digit _ Hc), (IH Hr), string_length_cons. lia.
Qed.

Lemma int_body_digits D : all_digits D = true -> int_body D = D.
Proof.
  intros H. unfold int_body. rewrite (int_lstrip_digits _ H).
  destruct D as [|c r]; [reflexivity|].
  cbn [all_digits] in H. apply andb_true_iff in H as [Hc _]. clear - Hc.
  destruct c as [[] [] [] [] [] [] [] []];
    try (vm_compute in Hc; discriminate Hc); reflexivity.
Qed.

Lemma convertible_inv D :
  convertible D = true ->
  all_digits D = true /\ D <> ""
  /\ (N.of_nat (String.length D) <= int_max_str_digits)%N.
Proof.
  unfold convertible. intros H.
  apply andb_true_iff in H as [H Hlen]. apply andb_true_iff in H as [Hd Hne].
  split; [exact Hd|]. split; [|now apply N.leb_le].
  intros ->. discriminate.
Qed.

Lemma int_too_long_signed neg D :
  convertible D = true -> int_too_long (signed neg D) = None.
Proof.
  intros H. apply convertible_inv in H as (Hd & Hne & Hlen).
  assert (Hbody : int_body (signed neg D) = D).
  { destruct neg; [|now apply int_body_digits].
    unfold signed. rewrite append_cons, append_nil_l. reflexivity. }
  unfold int_too_long. rewrite Hbody, (digit_run_digits _ Hd).
  rewrite (int_digits_digits _ false Hd Hne), (count_digits_digits _ Hd).
  destruct (N.ltb_spec int_max_str_digits (N.of_nat (String.length D)));
    [lia | reflexivity].
Qed.

(** The conversion of a bound written in decimal. *)
Lemma parse_bound_signed neg D :
  convertible D = true ->
  parse_bound (Some (signed neg D)) = Ok (bound_int (signed_value neg D)).
Proof.
  intros H. pose proof (int_too_long_signed neg D H) as Hlong.
  apply convertible_inv in H as (Hd & Hne & _).
  assert (Htruthy : truthy (signed neg D) = true).
  { destruct D as [|c r]; [congruence|]. now destruct neg. }
  unfold parse_bound, int_of_str. rewrite Htruthy, Hlong.
  unfold signed, signed_value. destruct neg.
  - now rewrite (int_literal_minus_digits _ Hd Hne).
  - now rewrite (int_literal_digits _ Hd Hne).
Qed.

(** X16: a speaker bound written in decimal reaches the diarization as
    that number.  In a successful run with diarization the last three calls
    are the diarization pipeline, the diarization and the assignment of
    speakers; a bound given as decimal digits (at least one, at most the
    4300 the interpreter converts), with or without a minus sign, is handed
    to the diarization as the integer it denotes, negative or zero included,
    and nothing checks it before or after. *)
Theorem decimal_bounds_reach_diarization env a w t fs w' :
  Args.diarize a = true ->
  transcribe_audio env a w = (Ok (t, fs), w') ->
  fs <> [] ->
  exists l dm ds r1 mn mx,
    calls w'
    = calls w ++ l
      ++ [call_DiarizationPipeline (Args.device a);
          call_diarize_model dm (audio_path_of a) mn mx;
          call_assign_word_speakers ds r1]
    /\ diarize_model env dm (audio_path_of a) mn mx = Ok ds
    /\ (forall neg D,
          convertible D = true ->
          Args.min_speakers a = Some (signed neg D) ->
          mn = bound_int (signed_value neg D))
    /\ (forall neg D,
          convertible D = true ->
          Args.max_speakers a = Some (signed neg D) ->
          mx = bound_int (signed_value neg D)).
Proof.
  intros Hd Hrun Hne.
  destruct (run_success_inv _ _ _ _ _ _ Hrun Hne)
    as (fp & h & mn & mx & r0 & r1 & r2 & j & ll & la & ld & _ & Hmn & Hmx
        & _ & _ & _ & Hld & _ & _ & _ & _ & _ & Hcalls).
  destruct Hld as [(Hoff & _) | (_ & dm & ds & _ & Hdm & _ & ->)];
    [congruence|].
  exists (ll ++ [call_transcribe h (audio_path_of a) (Args.language a)
                   (Args.task a) (Args.batch_size a) (Args.chunk_size a)]
          ++ la), dm, ds, r1, mn, mx.
  split; [rewrite Hcalls, <- !app_assoc; reflexivity|].
  split; [exact Hdm|].
  split; intros neg D HD Hgiven.
  - rewrite Hgiven, (parse_bound_signed neg D HD) in Hmn. congruence.
  - rewrite Hgiven, (parse_bound_signed neg D HD) in Hmx. congruence.
Qed.

Lemma decimal_bounds_reach_diarization_witness :
  let env := quiet_env (float_of 1700000000 0) hello_document "{}" in
  let a := diarize_args (Some "2") (Some "-3") in
  exists l dm ds r1,
    calls (snd (transcribe_audio env a w_init))
    = l ++ [call_DiarizationPipeline "cuda";
            call_diarize_model dm (audio_str "a.wav") (bound_int 2)
              (bound_int (-3));
            call_assign_word_speakers ds r1].
Proof.
  intros env a.
  destruct (decimal_bounds_reach_diarization env a w_init
              ("hello world" +:+ nl) (artifact_paths "transcript_1700000000")
              (snd (transcribe_audio env a w_init))
              eq_refl ltac:(vm_compute; reflexivity) ltac:(discriminate))
    as (l & dm & ds & r1 & mn & mx & Hcalls & _ & Hmin & Hmax).
  exists l, dm, ds, r1.
  rewrite (Hmin false "2" eq_refl eq_refl) in Hcalls.
  rewrite (Hmax true "3" eq_refl eq_refl) in Hcalls.
  exact Hcalls.
Defined.

(** ** The error boundary *)

(** C6 fails when the set-up fails.  On a read-only file system without
    the output directory, creating the directory raises and the exception
    leaves [transcribe_audio]: no message and no list is returned.  The
    same refusal one step later, at the opening of the first artifact, is
    turned into an error message with an empty list of artifacts. *)
Theorem setup_error_leaves_transcribe_audio :
  let a := default_args (audio_str "a.wav") true in
  let json := "whisperx_output/transcript_1700000000.json" in
  let no_mkdir :=
    refusing_env (float_of 1700000000 0) hello_document "{}"
      "whisperx_output" (read_only "whisperx_output") in
  let no_open :=
    refusing_env (float_of 1700000000 0) hello_document "{}"
      json (read_only json) in
  transcribe_audio no_mkdir a w_init
  = (Raise (mkExc OSError
              "[Errno 30] Read-only file system: 'whisperx_output'"),
     w_init)
  /\ fst (transcribe_audio no_open a w_init)
     = Ok ("Error: [Errno 30] Read-only file system: "
           +:+ "'whisperx_output/transcript_1700000000.json'", []).
Proof.
  split; vm_compute; reflexivity.
Qed.

Lemma attempt_stages env a fp w :
  attempt env a fp w =
  bind (get_asr_model env (Args.model a) (Args.device a)
          (Args.compute_type a))
    (fun mm =>
       bind (lift (parse_bound (Args.min_speakers a)))
         (fun mn =>
            bind (lift (parse_bound (Args.max_speakers a)))
              (fun mx =>
                 bind (stages env a (audio_path_of a) mm mn mx)
                   (fun result =>
                      export_results env fp (Args.diarize a) result)))) w.
Proof.
  unfold attempt. fold (audio_path_of a).
  apply bind_ext. intros mm w1. apply bind_ext. intros mn w2.
  apply bind_ext. intros mx w3. apply run_stages_split.
Qed.

(** X19: once the set-up has passed, [transcribe_audio] returns, and in
    one of two ways.  Either an exception [e] was raised inside the two
    [try] blocks (by the model lookup, the conversion of a bound, a stage or
    the exporter): then the value is ["Error: " + str(e)] with an empty
    list.  Or nothing was raised: then the list holds the four artifact
    paths, the four files hold the rendering of the document the stages
    produced, and the text is the text artifact read back. *)
Theorem transcribe_audio_returns_after_setup env a w fp :
  fst (setup env w) = Ok fp ->
  exists t fs w',
    transcribe_audio env a w = (Ok (t, fs), w')
    /\ ((exists e,
           raised_in env a fp w e w'
           /\ t = "Error: " +:+ exc_str e /\ fs = [])
        \/ completed env a fp w t fs w').
Proof.
  intros Hsetup.
  assert (Hs : setup env w = (Ok fp, w)).
  { pose proof (setup_state env w) as Hw.
    destruct (setup env w) as [r w0]. cbn in Hsetup, Hw. congruence. }
  rewrite transcribe_audio_attempt. unfold bind at 1. rewrite Hs.
  unfold try_except. rewrite attempt_stages.
  unfold bind at 1.
  pose proof (get_asr_model_effect env (Args.model a) (Args.device a)
                (Args.compute_type a) w) as Heff.
  destruct (get_asr_model env _ _ _ w) as [[mm|e] w1] eqn:Hget.
  2:{ eexists _, _, _. split; [reflexivity|]. left. exists e.
      split; [left; exact Hget | split; reflexivity]. }
  destruct Heff as [Hfiles1 _].
  unfold bind at 1, lift at 1.
  destruct (parse_bound (Args.min_speakers a)) as [mn|e] eqn:Hmn.
  2:{ eexists _, _, _. split; [reflexivity|]. left. exists e.
      split; [|split; reflexivity].
      right. exists mm, w1. split; [exact Hget|]. left. auto. }
  unfold bind at 1, lift at 1.
  destruct (parse_bound (Args.max_speakers a)) as [mx|e] eqn:Hmx.
  2:{ eexists _, _, _. split; [reflexivity|]. left. exists e.
      split; [|split; reflexivity].
      right. exists mm, w1. split; [exact Hget|]. right. exists mn.
      split; [exact Hmn|]. left. auto. }
  unfold bind at 1.
  pose proof (stages_files env a (audio_path_of a) mm mn mx w1) as Hfiles2.
  pose proof (stages_manager env a (audio_path_of a) mm mn mx w1) as Hman2.
  destruct (stages env a (audio_path_of a) mm mn mx w1)
    as [[result|e] w2] eqn:Hst.
  2:{ eexists _, _, _. split; [reflexivity|]. left. exists e.
      split; [|split; reflexivity].
      right. exists mm, w1. split; [exact Hget|]. right. exists mn.
      split; [exact Hmn|]. right. exists mx. split; [exact Hmx|].
      left. exact Hst. }
  cbn [snd] in Hfiles2, Hman2.
  destruct (export_results env fp (Args.diarize a) result w2)
    as [[[t fs]|e] w3] eqn:Hexp.
  2:{ eexists _, _, _. split; [reflexivity|]. left. exists e.
      split; [|split; reflexivity].
      right. exists mm, w1. split; [exact Hget|]. right. exists mn.
      split; [exact Hmn|]. right. exists mx. split; [exact Hmx|].
      right. exists result, w2. split; [exact Hst | exact Hexp]. }
  apply export_results_ok in Hexp as (j & Hj & _ & _ & [= -> ->] & ->).
  eexists _, _, _. split; [reflexivity|]. right.
  exists mm, w1, mn, mx, result, w2, j.
  repeat (split; [first [reflexivity | assumption | discriminate]|]).
  cbn [set_files files MODEL_MANAGER calls].
  rewrite Hfiles2, Hfiles1. auto.
Qed.

Lemma transcribe_audio_returns_after_setup_witness :
  let env := quiet_env (float_of 1700000000 0) hello_document "{}" in
  let a := default_args (audio_str "a.wav") true in
  exists t fs w',
    transcribe_audio env a w_init = (Ok (t, fs), w')
    /\ ((exists e,
           raised_in env a "transcript_1700000000" w_init e w'
           /\ t = "Error: " +:+ exc_str e /\ fs = [])
        \/ completed env a "transcript_1700000000" w_init t fs w').
Proof.
  intros env a.
  apply (transcribe_audio_returns_after_setup env a w_init
           "transcript_1700000000").
  vm_compute. reflexivity.
Defined.


